(** * IRRuntime: the runtime-function provider of the ELL emitters library

    A model of [IRRuntime.cpp] (namespace [ell::emitters]).  The file has three
    layers:

    - the module under construction ([IRModuleEmitter]): a symbol table from
      function names to declarations and definitions, with the operations the
      provider calls on it;
    - the provider ([IRRuntime]): every [Get...Function] member, as a
      computation over the provider's state that may throw an
      [EmitterException];
    - the bodies the provider authors (the GEMV and GEMM fallback kernels, the
      Windows [clock_gettime] replacement and [GetTime]), written with the
      operations of the function emitter, so that each body can be run on a
      memory. *)

From Stdlib Require Import ZArith String List Lia QArith Qround Lqa.
From stdpp Require Import base option functions gmap strings stringmap pretty list list_numbers
  fin_maps.

Open Scope Z_scope.
Open Scope string_scope.

(** ** State and exceptions *)

(** [State S A]: a computation that reads and updates a state [S]. *)
Definition State (S A : Type) : Type := S -> A * S.

#[global] Instance state_ret {S} : MRet (State S) := fun A a s => (a, s).
#[global] Instance state_bind {S} : MBind (State S) :=
  fun A B f m s => let '(a, s') := m s in f a s'.

Definition gets {S A} (f : S -> A) : State S A := fun s => (f s, s).
Definition modify {S} (f : S -> S) : State S unit := fun s => (tt, f s).

(** The error codes of [EmitterException] that this file throws. *)
Inductive EmitterError := functionNotFound.

Inductive EmitterException := MkEmitterException (error : EmitterError).

(** [Throwing S A]: a computation over [S] that returns or throws; the state
    changes made before a throw stay. *)
Definition Throwing (S A : Type) : Type := S -> (EmitterException + A) * S.

#[global] Instance throwing_ret {S} : MRet (Throwing S) := fun A a s => (inr a, s).
#[global] Instance throwing_bind {S} : MBind (Throwing S) :=
  fun A B f m s =>
    match m s with
    | (inl e, s') => (inl e, s')
    | (inr a, s') => f a s'
    end.

Definition throw {S A} (e : EmitterException) : Throwing S A := fun s => (inl e, s).

(** ** Types *)

(** Modelled from the spec: the enumeration [VariableType] (its declaration is
    not part of the sources at hand): the value kinds that [IRRuntime.cpp]
    names, and the other scalar kinds the spec's data model lists. *)
Inductive VariableType :=
  | Void | Boolean | Byte | Int16 | Int32 | Int64 | Float | Double
  | VoidPointer | BytePointer | Int16Pointer | Int32Pointer | Int64Pointer
  | FloatPointer | DoublePointer.

#[global] Instance VariableType_eq_dec : EqDecision VariableType.
Proof. solve_decision. Defined.

Definition VariableTypeList := list VariableType.
Definition NamedVariableTypeList := list (string * VariableType).

(** LLVM types.  A struct type is an identified struct: it is referred to by
    its name, and its layout is held by the [StructType] record. *)
Inductive LLVMType :=
  | VoidTy
  | IntegerTy (numBits : N)
  | FloatTy
  | DoubleTy
  | PointerTy (pointee : LLVMType)
  | NamedStructTy (name : string).

#[global] Instance LLVMType_eq_dec : EqDecision LLVMType.
Proof. solve_decision. Defined.

Record StructType := {
  structName : string;
  elementTypes : list LLVMType
}.

(** [llvm::Type::getIntNTy], [getInt32Ty], [getInt64Ty], [getDoubleTy],
    [getVoidTy] and [getPointerTo]. *)
Definition getIntNTy (numBits : N) : LLVMType := IntegerTy numBits.
Definition getInt32Ty : LLVMType := IntegerTy 32.
Definition getInt64Ty : LLVMType := IntegerTy 64.
Definition getDoubleTy : LLVMType := DoubleTy.
Definition getVoidTy : LLVMType := VoidTy.
Definition getPointerTo (t : LLVMType) : LLVMType := PointerTy t.
Definition structPointerTo (s : StructType) : LLVMType :=
  PointerTy (NamedStructTy (structName s)).

(** [StructType::getElementType(i)]; the struct types of this file have the
    fields that are asked for, and [VoidTy] stands for a missing field. *)
Definition getElementType (s : StructType) (i : nat) : LLVMType :=
  nth i (elementTypes s) VoidTy.

(** Modelled from the spec: [IREmitter::Type], the map from a logical value
    kind to its native representation. *)
Definition Type_ (t : VariableType) : LLVMType :=
  match t with
  | Void => VoidTy
  | Boolean => IntegerTy 1
  | Byte => IntegerTy 8
  | Int16 => IntegerTy 16
  | Int32 => IntegerTy 32
  | Int64 => IntegerTy 64
  | Float => FloatTy
  | Double => DoubleTy
  | VoidPointer => PointerTy (IntegerTy 8)
  | BytePointer => PointerTy (IntegerTy 8)
  | Int16Pointer => PointerTy (IntegerTy 16)
  | Int32Pointer => PointerTy (IntegerTy 32)
  | Int64Pointer => PointerTy (IntegerTy 64)
  | FloatPointer => PointerTy FloatTy
  | DoublePointer => PointerTy DoubleTy
  end.

Definition GetLLVMTypes (ts : VariableTypeList) : list LLVMType := map Type_ ts.

Record FunctionType := {
  returnType : LLVMType;
  paramTypes : list LLVMType;
  isVarArg : bool
}.

#[global] Instance FunctionType_eq_dec : EqDecision FunctionType.
Proof. solve_decision. Defined.

(** [llvm::FunctionType::get(result, params, isVarArg)]. *)
Definition FunctionType_get (result : LLVMType) (params : list LLVMType)
    (varArg : bool) : FunctionType :=
  {| returnType := result; paramTypes := params; isVarArg := varArg |}.

(** ** The target *)

(** Modelled from the spec: the target-device descriptor (its declaration is
    not part of the sources at hand), with what the provider reads of it: the
    native integer bit-width [numBits] (0 means the 32-bit default) and the OS
    family, as the answer of [IsWindows()]. *)
Record TargetDevice := {
  numBits : N;
  IsWindows : bool
}.

Record CompilerOptions := {
  targetDevice : TargetDevice
}.

(** ** The module *)

(** A function handle ([LLVMFunction], a [llvm::Function*]): the function's
    symbol, which is unique in its module; [None] is [nullptr]. *)
Definition LLVMFunction := option string.

(** The bodies that the provider authors.  What each one computes is defined
    in the sections on the kernels and on the timing functions below. *)
Inductive FunctionBody :=
  | DotProductBody
  | GEMVBody (ValueType : VariableType)
  | GEMMBody (ValueType : VariableType)
  | ClockGettimeBody (tmFieldVarType : VariableType) (qpcFunction qpfFunction : LLVMFunction)
  | GetTimeBody (getTimeFunction : string) (timespecType : StructType).

(** A function of the module: a declaration has no body, a definition has an
    open body ([Some None], between [BeginFunction] and the emission of its
    code) or a finished one. *)
Record FunctionDef := {
  fn_type : FunctionType;
  fn_argNames : list string;
  fn_body : option (option FunctionBody);
  fn_inHeader : bool
}.

Record IRModuleEmitter := {
  moduleName : string;
  functions : gmap string FunctionDef;
  compilerOptions : CompilerOptions
}.

Definition set_functions (f : gmap string FunctionDef -> gmap string FunctionDef)
    (module : IRModuleEmitter) : IRModuleEmitter :=
  {| moduleName := moduleName module;
     functions := f (functions module);
     compilerOptions := compilerOptions module |}.

Definition isDefinition (d : FunctionDef) : bool :=
  match fn_body d with Some _ => true | None => false end.

(** The symbols of the module that have a body. *)
Definition definedFunctions (module : IRModuleEmitter) : gmap string FunctionDef :=
  filter (fun kv => isDefinition kv.2 = true) (functions module).

(** The number of function bodies in the module. *)
Definition authoredBodies (module : IRModuleEmitter) : nat :=
  size (definedFunctions module).

Definition GetModuleName (module : IRModuleEmitter) : string := moduleName module.
Definition GetCompilerOptions (module : IRModuleEmitter) : CompilerOptions :=
  compilerOptions module.

(** [llvm::Module::getFunction] (LLVM's): the function of that name, or
    [nullptr]. *)
Definition getFunction (module : IRModuleEmitter) (name : string) : LLVMFunction :=
  match functions module !! name with
  | Some _ => Some name
  | None => None
  end.

Definition declaration (ty : FunctionType) : FunctionDef :=
  {| fn_type := ty; fn_argNames := []; fn_body := None; fn_inHeader := false |}.

(** [llvm::Module::getOrInsertFunction] (LLVM's): the function of that name
    when there is one (whatever its type), else a new declaration of the type
    asked for. *)
Definition getOrInsertFunction (name : string) (ty : FunctionType)
    : State IRModuleEmitter LLVMFunction :=
  fun module =>
    match functions module !! name with
    | Some _ => (Some name, module)
    | None => (Some name, set_functions (insert name (declaration ty)) module)
    end.

(** Modelled from the spec: [IRModuleEmitter::DeclareFunction] (the module
    builder is not part of the sources at hand), which declares an external
    symbol idempotently. *)
Definition DeclareFunction (name : string) (ty : FunctionType)
    : State IRModuleEmitter unit :=
  _ ← getOrInsertFunction name ty; mret tt.

(** Modelled from the spec: [IRModuleEmitter::GetFunction], which resolves a
    name to the function of the module, or to [nullptr]. *)
Definition GetFunction (name : string) : State IRModuleEmitter LLVMFunction :=
  gets (fun module => getFunction module name).

(** The backend intrinsics that the provider asks for
    ([llvm::Intrinsic::sqrt] and so on). *)
Module Intrinsic.
Inductive ID := sqrt | fabs | exp | log | sin | cos.
End Intrinsic.

Definition intrinsicBaseName (id : Intrinsic.ID) : string :=
  match id with
  | Intrinsic.sqrt => "llvm.sqrt"
  | Intrinsic.fabs => "llvm.fabs"
  | Intrinsic.exp => "llvm.exp"
  | Intrinsic.log => "llvm.log"
  | Intrinsic.sin => "llvm.sin"
  | Intrinsic.cos => "llvm.cos"
  end.

(** The suffix that LLVM gives an overloaded intrinsic for a type. *)
Fixpoint mangledTypeName (t : LLVMType) : string :=
  match t with
  | VoidTy => "isVoid"
  | IntegerTy bits => "i" +:+ pretty bits
  | FloatTy => "f32"
  | DoubleTy => "f64"
  | PointerTy pointee => "p0" +:+ mangledTypeName pointee
  | NamedStructTy name => "s_" +:+ name +:+ "s"
  end.

(** Modelled from the spec: [IRModuleEmitter::GetIntrinsic(id, {argType})],
    which returns the backend intrinsic specialized for the type: the
    declaration of the intrinsic in the module, made at the first request.
    The spec has this for the two floating-point types; what the module
    builder does for another type is not in the sources at hand, and the
    model declares there as it does for the floating-point types.  Below,
    what is said of the answer of an intrinsic getter is said for the
    floating-point types only; for another type only that the functions of
    the module are kept is used. *)
Definition GetIntrinsic (id : Intrinsic.ID) (argType : LLVMType)
    : State IRModuleEmitter LLVMFunction :=
  getOrInsertFunction (intrinsicBaseName id +:+ "." +:+ mangledTypeName argType)
    (FunctionType_get argType [argType] false).

(** Modelled from the spec: the function emitter that [BeginFunction] hands
    out ([IRFunctionEmitter]), with the function it writes. *)
Record IRFunctionEmitter := {
  fe_function : string
}.

(** Modelled from the spec: [IRFunctionEmitter::GetFunction], the handle of
    the function being written; it is never [nullptr]. *)
Definition fe_GetFunction (function : IRFunctionEmitter) : LLVMFunction :=
  Some (fe_function function).

(** The symbol a new function gets (LLVM's [Function::Create]): the name asked
    for when it is free in the module, else that name with a numeric suffix
    that makes it unique (LLVM renames a new global whose name is taken; which
    suffix it picks plays no role below). *)
Definition uniqueName (module : IRModuleEmitter) (name : string) : string :=
  fresh_string name (functions module).

(** Modelled from the spec: [IRModuleEmitter::BeginFunction] (the module
    builder is not part of the sources at hand), which opens a new named
    function with a typed signature; this is the overload that takes LLVM
    types.  A new function is created at each call. *)
Definition BeginFunctionLLVM (functionName : string) (ret : LLVMType)
    (argNames : list string) (args : list LLVMType)
    : State IRModuleEmitter IRFunctionEmitter :=
  fun module =>
    let symbol := uniqueName module functionName in
    let def := {| fn_type := FunctionType_get ret args false;
                  fn_argNames := argNames;
                  fn_body := Some None;
                  fn_inHeader := false |} in
    ({| fe_function := symbol |}, set_functions (insert symbol def) module).

(** Modelled from the spec: [IRModuleEmitter::BeginFunction], the overload
    that takes a [VariableTypeList]. *)
Definition BeginFunction (functionName : string) (ret : VariableType)
    (args : VariableTypeList) : State IRModuleEmitter IRFunctionEmitter :=
  BeginFunctionLLVM functionName (Type_ ret) [] (GetLLVMTypes args).

(** Modelled from the spec: [IRModuleEmitter::BeginFunction], the overload
    that takes a [NamedVariableTypeList]. *)
Definition BeginFunctionNamed (functionName : string) (ret : VariableType)
    (args : NamedVariableTypeList) : State IRModuleEmitter IRFunctionEmitter :=
  BeginFunctionLLVM functionName (Type_ ret) (map fst args) (GetLLVMTypes (map snd args)).

(** Modelled from the spec: [IRFunctionEmitter::IncludeInHeader], which marks
    the function as visible outside the compilation unit. *)
Definition IncludeInHeader (function : IRFunctionEmitter) : State IRModuleEmitter unit :=
  modify (set_functions (alter
    (fun d => {| fn_type := fn_type d; fn_argNames := fn_argNames d;
                 fn_body := fn_body d; fn_inHeader := true |})
    (fe_function function))).

(** Modelled from the spec: the emission of a body through the function
    emitter, between [BeginFunction] and [EndFunction]; the module records
    which body was written. *)
Definition EmitBody (function : IRFunctionEmitter) (body : FunctionBody)
    : State IRModuleEmitter unit :=
  modify (set_functions (alter
    (fun d => {| fn_type := fn_type d; fn_argNames := fn_argNames d;
                 fn_body := Some (Some body); fn_inHeader := fn_inHeader d |})
    (fe_function function))).

(** Modelled from the spec: [IRModuleEmitter::EndFunction], which closes the
    function being written. *)
Definition EndFunction : State IRModuleEmitter unit := mret tt.

(** The type and the body of a function of the module. *)
Definition functionType (module : IRModuleEmitter) (f : LLVMFunction) : option FunctionType :=
  name ← f; d ← functions module !! name; Some (fn_type d).

Definition functionBody (module : IRModuleEmitter) (f : LLVMFunction) : option FunctionBody :=
  name ← f; d ← functions module !! name; b ← fn_body d; b.

(** ** The provider *)

(** The state of an [IRRuntime]: the module it writes to, the timespec struct
    type that its POSIX runtime hands out ([_posixRuntime.GetTimespecType()],
    the struct-layout description of the two-field time structure), and the
    cached [GetTime] function. *)
Record IRRuntime := {
  _module : IRModuleEmitter;
  _posixRuntime : StructType;
  _pGetCurrentTimeFunction : LLVMFunction
}.

(** The constructor [IRRuntime::IRRuntime(module)]: nothing is cached yet. *)
Definition IRRuntime_new (module : IRModuleEmitter) (timespecType : StructType) : IRRuntime :=
  {| _module := module; _posixRuntime := timespecType; _pGetCurrentTimeFunction := None |}.

Definition set_module (module : IRModuleEmitter) (rt : IRRuntime) : IRRuntime :=
  {| _module := module; _posixRuntime := _posixRuntime rt;
     _pGetCurrentTimeFunction := _pGetCurrentTimeFunction rt |}.

Definition set_pGetCurrentTimeFunction (f : LLVMFunction) (rt : IRRuntime) : IRRuntime :=
  {| _module := _module rt; _posixRuntime := _posixRuntime rt;
     _pGetCurrentTimeFunction := f |}.

(** A computation on the module, run on the provider's module. *)
Definition onModule {A} (c : State IRModuleEmitter A) : State IRRuntime A :=
  fun rt => let '(a, module) := c (_module rt) in (a, set_module module rt).

(** A computation that does not throw, seen as one that may. *)
Definition lift {S A} (c : State S A) : Throwing S A :=
  fun s => let '(a, s') := c s in (inr a, s').

(** Modelled from the spec: [IRPosixRuntime::GetTimespecType], which hands out
    the struct type of the time structure. *)
Definition GetTimespecType : State IRRuntime StructType := gets _posixRuntime.

Definition countName := "count".
Definition lVectorName := "pLVector".
Definition rVectorName := "pRVector".
Definition resultName := "pResult".

Definition dotProductFloatName := "DotProductFloat".
Definition dotProductIntName := "DotProductInt".
Definition getTimeFunctionName := "GetTime".

(** [IRRuntime::GetIntType]. *)
Definition GetIntType : State IRRuntime LLVMType :=
  bits ← gets (fun rt => numBits (targetDevice (GetCompilerOptions (_module rt))));
  if decide (bits <> 0%N)
  then mret (getIntNTy bits)
  else mret getInt32Ty.

(** [IRRuntime::GetNamespacePrefix]. *)
Definition GetNamespacePrefix : State IRRuntime string :=
  gets (fun rt => GetModuleName (_module rt)).

(** [IRRuntime::GetDotProductFloatFunction]: the body is the dot product that
    the function emitter writes ([function.DotProduct] on the four arguments)
    and a return. *)
Definition GetDotProductFloatFunction : State IRRuntime LLVMFunction :=
  prefix ← GetNamespacePrefix;
  let functionName := prefix +:+ "_" +:+ dotProductFloatName in
  let argTypes := [ (countName, Int32);
                    (lVectorName, DoublePointer);
                    (rVectorName, DoublePointer);
                    (resultName, DoublePointer) ] in
  onModule (
    function ← BeginFunctionNamed functionName Void argTypes;
    IncludeInHeader function;;
    EmitBody function DotProductBody;;
    EndFunction;;
    mret (fe_GetFunction function)).

(** [IRRuntime::GetDotProductIntFunction]. *)
Definition GetDotProductIntFunction : State IRRuntime LLVMFunction :=
  prefix ← GetNamespacePrefix;
  let functionName := prefix +:+ "_" +:+ dotProductIntName in
  let argTypes := [ (countName, Int32);
                    (lVectorName, Int32Pointer);
                    (rVectorName, Int32Pointer);
                    (resultName, Int32Pointer) ] in
  onModule (
    function ← BeginFunctionNamed functionName Void argTypes;
    IncludeInHeader function;;
    EmitBody function DotProductBody;;
    EndFunction;;
    mret (fe_GetFunction function)).

(** The prototype of the two Win32 performance-counter functions, as
    [ResolveCurrentTimeFunction] declares them. *)
Definition qpcProto : FunctionType :=
  FunctionType_get getInt32Ty [getPointerTo getInt64Ty] false.

(** [IRRuntime::ResolveCurrentTimeFunction]: for a Windows target, the two
    Win32 functions are declared and a [clock_gettime] is written (its body is
    [clock_gettime_windows] below); for any other target, the external
    [clock_gettime] is declared and looked up. *)
Definition ResolveCurrentTimeFunction (timespecType : StructType)
    : State IRRuntime LLVMFunction :=
  let int32Type := getInt32Ty in
  let int64Type := getInt64Ty in
  let tmFieldType := getElementType timespecType 0 in
  let intType := tmFieldType in
  windows ← gets (fun rt => IsWindows (targetDevice (GetCompilerOptions (_module rt))));
  if (windows : bool) then
    let tmFieldVarType := if decide (tmFieldType = int64Type) then Int64 else Int32 in
    onModule (
      DeclareFunction "QueryPerformanceCounter" qpcProto;;
      DeclareFunction "QueryPerformanceFrequency" qpcProto;;
      qpcFunction ← GetFunction "QueryPerformanceCounter";
      qpfFunction ← GetFunction "QueryPerformanceFrequency";
      let args := [int32Type; structPointerTo timespecType] in
      emitter ← BeginFunctionLLVM "clock_gettime" int32Type [] args;
      let function := fe_GetFunction emitter in
      EmitBody emitter (ClockGettimeBody tmFieldVarType qpcFunction qpfFunction);;
      EndFunction;;
      mret function)
  else
    let gettimeType :=
      FunctionType_get intType [int32Type; structPointerTo timespecType] false in
    onModule (
      DeclareFunction "clock_gettime" gettimeType;;
      GetFunction "clock_gettime").

(** The prototype of [clock_gettime] that [GetCurrentTimeFunction] declares. *)
Definition gettimeType (timespecType : StructType) : FunctionType :=
  FunctionType_get getInt32Ty [getInt32Ty; structPointerTo timespecType] false.

(** [IRRuntime::GetCurrentTimeFunction], with the member that resolves the
    clock-read function as a parameter [resolve]; the member itself is this
    function at [ResolveCurrentTimeFunction].  The body of the function it
    writes is [GetTimeFunction] below. *)
Definition GetCurrentTimeFunctionWith
    (resolve : StructType -> State IRRuntime LLVMFunction)
    : Throwing IRRuntime LLVMFunction :=
  cached ← lift (gets _pGetCurrentTimeFunction);
  match cached with
  | None =>
      timespecType ← lift GetTimespecType;
      lift (onModule (DeclareFunction "clock_gettime" (gettimeType timespecType)));;
      getTimeFunction ← lift (resolve timespecType);
      match getTimeFunction with
      | Some clock =>
          prefix ← lift GetNamespacePrefix;
          let functionName := prefix +:+ "_" +:+ getTimeFunctionName in
          lift (
            f ← onModule (
              function ← BeginFunction functionName Double [];
              EmitBody function (GetTimeBody clock timespecType);;
              EndFunction;;
              mret (fe_GetFunction function));
            modify (set_pGetCurrentTimeFunction f));;
          lift (gets _pGetCurrentTimeFunction)
      | None => throw (MkEmitterException functionNotFound)
      end
  | Some _ => lift (gets _pGetCurrentTimeFunction)
  end.

Definition GetCurrentTimeFunction : Throwing IRRuntime LLVMFunction :=
  GetCurrentTimeFunctionWith ResolveCurrentTimeFunction.

(** [IRRuntime::GetSqrtFunction(VariableType)] and the five other intrinsic
    getters on a [VariableType]. *)
Definition GetSqrtFunction (argType : VariableType) : State IRRuntime LLVMFunction :=
  onModule (GetIntrinsic Intrinsic.sqrt (Type_ argType)).

Definition GetAbsFunction (argType : VariableType) : State IRRuntime LLVMFunction :=
  onModule (GetIntrinsic Intrinsic.fabs (Type_ argType)).

Definition GetExpFunction (argType : VariableType) : State IRRuntime LLVMFunction :=
  onModule (GetIntrinsic Intrinsic.exp (Type_ argType)).

Definition GetLogFunction (argType : VariableType) : State IRRuntime LLVMFunction :=
  onModule (GetIntrinsic Intrinsic.log (Type_ argType)).

Definition GetSinFunction (argType : VariableType) : State IRRuntime LLVMFunction :=
  onModule (GetIntrinsic Intrinsic.sin (Type_ argType)).

Definition GetCosFunction (argType : VariableType) : State IRRuntime LLVMFunction :=
  onModule (GetIntrinsic Intrinsic.cos (Type_ argType)).

(** [IRRuntime::GetSqrtFunction(LLVMType)] and the five other intrinsic getters
    on an LLVM type. *)
Definition GetSqrtFunction_LLVMType (argType : LLVMType) : State IRRuntime LLVMFunction :=
  onModule (GetIntrinsic Intrinsic.sqrt argType).

Definition GetAbsFunction_LLVMType (argType : LLVMType) : State IRRuntime LLVMFunction :=
  onModule (GetIntrinsic Intrinsic.fabs argType).

Definition GetExpFunction_LLVMType (argType : LLVMType) : State IRRuntime LLVMFunction :=
  onModule (GetIntrinsic Intrinsic.exp argType).

Definition GetLogFunction_LLVMType (argType : LLVMType) : State IRRuntime LLVMFunction :=
  onModule (GetIntrinsic Intrinsic.log argType).

Definition GetSinFunction_LLVMType (argType : LLVMType) : State IRRuntime LLVMFunction :=
  onModule (GetIntrinsic Intrinsic.sin argType).

Definition GetCosFunction_LLVMType (argType : LLVMType) : State IRRuntime LLVMFunction :=
  onModule (GetIntrinsic Intrinsic.cos argType).

(** [IRRuntime::GetTanhFunction(VariableType)]. *)
Definition GetTanhFunction (argType : VariableType) : Throwing IRRuntime LLVMFunction :=
  match argType with
  | Float | Double =>
      let funcName := if decide (argType = Double) then "tanh" else "tanhf" in
      let valueType := Type_ argType in
      let tanhProto := FunctionType_get valueType [valueType] false in
      lift (onModule (
        DeclareFunction funcName tanhProto;;
        GetFunction funcName))
  | _ => throw (MkEmitterException functionNotFound)
  end.

(** *** BLAS *)

(** [EmitGEMVFunction<ValueType>]: opens the function, writes the body
    ([GEMVFunction] below), closes the function and returns it. *)
Definition EmitGEMVFunction (ValueType : VariableType) (functionName : string)
    (argTypes : VariableTypeList) : State IRModuleEmitter LLVMFunction :=
  function ← BeginFunction functionName Int32 argTypes;
  EmitBody function (GEMVBody ValueType);;
  EndFunction;;
  mret (fe_GetFunction function).

(** [EmitGEMMFunction<ValueType>]: opens the function, writes the body
    ([GEMMFunction] below), closes the function and returns it. *)
Definition EmitGEMMFunction (ValueType : VariableType) (functionName : string)
    (argTypes : VariableTypeList) : State IRModuleEmitter LLVMFunction :=
  function ← BeginFunction functionName Int32 argTypes;
  EmitBody function (GEMMBody ValueType);;
  EndFunction;;
  mret (fe_GetFunction function).

(** The argument list of [cblas_?gemv]:
    order, transpose, m, n, alpha, A, lda, x, incx, beta, y, incy. *)
Definition gemvArgTypes (scalar pointer : VariableType) : VariableTypeList :=
  [ Int32; Int32; Int32; Int32; scalar; pointer; Int32; pointer; Int32;
    scalar; pointer; Int32 ].

(** The argument list of [cblas_?gemm]:
    order, transposeA, transposeB, m, n, k, alpha, A, lda, B, ldb, beta, C, ldc. *)
Definition gemmArgTypes (scalar pointer : VariableType) : VariableTypeList :=
  [ Int32; Int32; Int32; Int32; Int32; Int32; scalar; pointer; Int32; pointer;
    Int32; scalar; pointer; Int32 ].

(** The text that the four BLAS getters share, with what they differ in as
    parameters: with [useBlas], the external symbol [blasName] is declared and
    returned; else the function [noblasName] of the module is returned when
    there is one, and is written by [emit] when there is none. *)
Definition GetBlasFunction (useBlas : bool) (argTypes : VariableTypeList)
    (blasName noblasName : string)
    (emit : string -> VariableTypeList -> State IRModuleEmitter LLVMFunction)
    : State IRRuntime LLVMFunction :=
  if useBlas then
    let types := GetLLVMTypes argTypes in
    let functionType := FunctionType_get (Type_ Int32) types false in
    onModule (getOrInsertFunction blasName functionType)
  else
    pFunction ← onModule (GetFunction noblasName);
    match pFunction with
    | Some _ => mret pFunction
    | None => onModule (emit noblasName argTypes)
    end.

(** [IRRuntime::GetSGEMVFunction], [GetDGEMVFunction], [GetSGEMMFunction] and
    [GetDGEMMFunction]. *)
Definition GetSGEMVFunction (useBlas : bool) : State IRRuntime LLVMFunction :=
  GetBlasFunction useBlas (gemvArgTypes Float FloatPointer)
    "cblas_sgemv" "noblas_sgemv" (EmitGEMVFunction Float).

Definition GetDGEMVFunction (useBlas : bool) : State IRRuntime LLVMFunction :=
  GetBlasFunction useBlas (gemvArgTypes Double DoublePointer)
    "cblas_dgemv" "noblas_dgemv" (EmitGEMVFunction Double).

Definition GetSGEMMFunction (useBlas : bool) : State IRRuntime LLVMFunction :=
  GetBlasFunction useBlas (gemmArgTypes Float FloatPointer)
    "cblas_sgemm" "noblas_sgemm" (EmitGEMMFunction Float).

Definition GetDGEMMFunction (useBlas : bool) : State IRRuntime LLVMFunction :=
  GetBlasFunction useBlas (gemmArgTypes Double DoublePointer)
    "cblas_dgemm" "noblas_dgemm" (EmitGEMMFunction Double).

(** The template [GetGEMVFunction<ValueType>] and [GetGEMMFunction<ValueType>]
    have the two specialisations [float] and [double]. *)
Inductive BlasValueType := blas_float | blas_double.

Definition GetGEMVFunction (ValueType : BlasValueType) (useBlas : bool)
    : State IRRuntime LLVMFunction :=
  match ValueType with
  | blas_float => GetSGEMVFunction useBlas
  | blas_double => GetDGEMVFunction useBlas
  end.

Definition GetGEMMFunction (ValueType : BlasValueType) (useBlas : bool)
    : State IRRuntime LLVMFunction :=
  match ValueType with
  | blas_float => GetSGEMMFunction useBlas
  | blas_double => GetDGEMMFunction useBlas
  end.

(** [IRRuntime::GetOpenBLASGetNumThreadsFunction]. *)
Definition GetOpenBLASGetNumThreadsFunction : State IRRuntime LLVMFunction :=
  intType ← GetIntType;
  let functionType := FunctionType_get intType [] false in
  onModule (getOrInsertFunction "openblas_get_num_threads" functionType).

(** [IRRuntime::GetOpenBLASSetNumThreadsFunction]. *)
Definition GetOpenBLASSetNumThreadsFunction : State IRRuntime LLVMFunction :=
  let voidType := getVoidTy in
  intType ← GetIntType;
  let functionType := FunctionType_get voidType [intType] false in
  onModule (getOrInsertFunction "openblas_set_num_threads" functionType).

(** *** Requests *)

(** A request to the provider, and a sequence of requests served one after the
    other on the same provider (a request that throws leaves the provider as
    it was at the throw, and the next request goes on from there). *)
Inductive Request :=
  | ReqDotProductFloat
  | ReqDotProductInt
  | ReqCurrentTime
  | ReqSqrt (argType : VariableType)
  | ReqAbs (argType : VariableType)
  | ReqExp (argType : VariableType)
  | ReqLog (argType : VariableType)
  | ReqSin (argType : VariableType)
  | ReqCos (argType : VariableType)
  | ReqSqrtLLVMType (argType : LLVMType)
  | ReqAbsLLVMType (argType : LLVMType)
  | ReqExpLLVMType (argType : LLVMType)
  | ReqLogLLVMType (argType : LLVMType)
  | ReqSinLLVMType (argType : LLVMType)
  | ReqCosLLVMType (argType : LLVMType)
  | ReqTanh (argType : VariableType)
  | ReqSGEMV (useBlas : bool)
  | ReqDGEMV (useBlas : bool)
  | ReqSGEMM (useBlas : bool)
  | ReqDGEMM (useBlas : bool)
  | ReqOpenBLASGetNumThreads
  | ReqOpenBLASSetNumThreads.

Definition serve (r : Request) : Throwing IRRuntime LLVMFunction :=
  match r with
  | ReqDotProductFloat => lift GetDotProductFloatFunction
  | ReqDotProductInt => lift GetDotProductIntFunction
  | ReqCurrentTime => GetCurrentTimeFunction
  | ReqSqrt argType => lift (GetSqrtFunction argType)
  | ReqAbs argType => lift (GetAbsFunction argType)
  | ReqExp argType => lift (GetExpFunction argType)
  | ReqLog argType => lift (GetLogFunction argType)
  | ReqSin argType => lift (GetSinFunction argType)
  | ReqCos argType => lift (GetCosFunction argType)
  | ReqSqrtLLVMType argType => lift (GetSqrtFunction_LLVMType argType)
  | ReqAbsLLVMType argType => lift (GetAbsFunction_LLVMType argType)
  | ReqExpLLVMType argType => lift (GetExpFunction_LLVMType argType)
  | ReqLogLLVMType argType => lift (GetLogFunction_LLVMType argType)
  | ReqSinLLVMType argType => lift (GetSinFunction_LLVMType argType)
  | ReqCosLLVMType argType => lift (GetCosFunction_LLVMType argType)
  | ReqTanh argType => GetTanhFunction argType
  | ReqSGEMV useBlas => lift (GetSGEMVFunction useBlas)
  | ReqDGEMV useBlas => lift (GetDGEMVFunction useBlas)
  | ReqSGEMM useBlas => lift (GetSGEMMFunction useBlas)
  | ReqDGEMM useBlas => lift (GetDGEMMFunction useBlas)
  | ReqOpenBLASGetNumThreads => lift GetOpenBLASGetNumThreadsFunction
  | ReqOpenBLASSetNumThreads => lift GetOpenBLASSetNumThreadsFunction
  end.

Fixpoint serveAll (rs : list Request) (rt : IRRuntime)
    : list (EmitterException + LLVMFunction) * IRRuntime :=
  match rs with
  | [] => ([], rt)
  | r :: rs' =>
      let '(a, rt') := serve r rt in
      let '(answers, rt'') := serveAll rs' rt' in
      (a :: answers, rt'')
  end.

(** The symbol that a request for a fallback kernel must answer with. *)
Definition fallbackName (r : Request) : option string :=
  match r with
  | ReqSGEMV false => Some "noblas_sgemv"
  | ReqDGEMV false => Some "noblas_dgemv"
  | ReqSGEMM false => Some "noblas_sgemm"
  | ReqDGEMM false => Some "noblas_dgemm"
  | _ => None
  end.

(** The requests for which the sources at hand and the spec say what is
    answered: every request but one for an intrinsic at a type that is not a
    floating-point type. *)
Definition floatingPoint (argType : LLVMType) : bool :=
  bool_decide (argType = FloatTy) || bool_decide (argType = DoubleTy).

Definition inScope (r : Request) : bool :=
  match r with
  | ReqSqrt argType | ReqAbs argType | ReqExp argType
  | ReqLog argType | ReqSin argType | ReqCos argType => floatingPoint (Type_ argType)
  | ReqSqrtLLVMType argType | ReqAbsLLVMType argType | ReqExpLLVMType argType
  | ReqLogLLVMType argType | ReqSinLLVMType argType | ReqCosLLVMType argType =>
      floatingPoint argType
  | _ => true
  end.

(** ** The values of generated code *)

(** An [Int32] value of the generated code: an integer in [-2^31, 2^31), with
    the wrap-around of the machine's addition and multiplication. *)
Definition wrap32 (z : Z) : Z := (z + 2 ^ 31) `mod` 2 ^ 32 - 2 ^ 31.
Definition add32 (a b : Z) : Z := wrap32 (a + b).
Definition mul32 (a b : Z) : Z := wrap32 (a * b).

Declare Scope int32_scope.
Delimit Scope int32_scope with i32.
Infix "+" := add32 : int32_scope.
Infix "*" := mul32 : int32_scope.

(** The element type of a kernel (the template parameter [ValueType]) with the
    operations the kernels use: [vfill b] is the element all of whose bytes are
    [b], and the element whose bytes are all zero is the zero of the type. *)
Class ValueOps (V : Type) := {
  vzero : V;
  vadd : V -> V -> V;
  vmul : V -> V -> V;
  vfill : Z -> V;
  vfill_zero : vfill 0 = vzero
}.

(** ** The fallback kernels *)

Section Kernels.
Context {V : Type} `{ValueOps V}.

(** The memory a kernel runs on: the caller's buffers, addressed in
    elements ([heap]), and the function's own stack variables ([stack]). *)
Record Memory := {
  heap : Z -> V;
  stack : string -> V
}.

Definition Emit (A : Type) : Type := State Memory A.

(** The operations of the function emitter ([IRFunctionEmitter],
    [IRLocalArray], [IRLocalScalar]) are not part of the sources at hand; the
    spec has them as the capability to emit loads, stores, arithmetic and
    calls.  Each one is modelled as what the code it emits does. *)

(** Modelled from the spec: [function.Variable(type, name)], which allocates a
    stack variable. *)
Definition Variable_ (name : string) : Emit string := mret name.

(** Modelled from the spec: [function.Load(variable)], a load from a stack
    variable. *)
Definition Load (variable : string) : Emit V :=
  gets (fun mem => stack mem variable).

(** Modelled from the spec: [function.Store(variable, value)], a store to a
    stack variable. *)
Definition Store (variable : string) (value : V) : Emit unit :=
  modify (fun mem => {| heap := heap mem; stack := <[variable := value]> (stack mem) |}).

(** Modelled from the spec: [function.StoreZero(variable)]. *)
Definition StoreZero (variable : string) : Emit unit := Store variable vzero.

(** Modelled from the spec: the read of [array[index]], for an array argument
    [array] (the address of its first element) and an [Int32] index. *)
Definition ArrayLoad (array index : Z) : Emit V :=
  gets (fun mem => heap mem (array + index)).

(** Modelled from the spec: the assignment [array[index] = value]. *)
Definition ArrayStore (array index : Z) (value : V) : Emit unit :=
  modify (fun mem => {| heap := <[array + index := value]> (heap mem); stack := stack mem |}).

(** Modelled from the spec: the loop that [function.For(count, body)] emits:
    [body] runs for the index 0, 1, ... while the index is less than [count].
    [ForLoop] is the loop with [iterations] rounds to go. *)
Fixpoint ForLoop (iterations : nat) (index : Z) (body : Z -> Emit unit) : Emit unit :=
  match iterations with
  | O => mret tt
  | S iterations' => body index;; ForLoop iterations' (index + 1) body
  end.

(** Modelled from the spec: [function.For(count, body)]. *)
Definition For (count : Z) (body : Z -> Emit unit) : Emit unit :=
  ForLoop (Z.to_nat count) 0 body.

(** Modelled from the spec:
    [function.MemorySet<ValueType>(pointer, offset, value, count)]: every byte
    of the [count] elements from [pointer + offset] on becomes [value] (no
    element when [count] is not positive). *)
Definition MemorySet (pointer offset value count : Z) : Emit unit :=
  For count (fun element => ArrayStore pointer (offset + element) (vfill value)).

(** Modelled from the spec: [function.Select(condition, ifTrue, ifFalse)]:
    both values are computed and one of them is picked; there is no branch. *)
Definition Select {A} (condition : bool) (ifTrue ifFalse : A) : A :=
  if condition then ifTrue else ifFalse.

(** Modelled from the spec: the comparison [IRLocalScalar == int]. *)
Definition scalarEq (a b : Z) : bool := bool_decide (a = b).

(** The body that [EmitGEMVFunction<ValueType>] writes, run on the twelve
    arguments of the function. *)
Definition GEMVFunction (order transpose m n : Z) (alpha : V) (A lda x incx : Z)
    (beta : V) (y incy : Z) : Emit Z :=
  accum ← Variable_ "accum";
  For m (fun rowIndex =>
    StoreZero accum;;
    For n (fun columnIndex =>
      let aIndex := ((rowIndex * lda) + columnIndex)%i32 in
      let xIndex := (columnIndex * incx)%i32 in
      aVal ← ArrayLoad A aIndex;
      xVal ← ArrayLoad x xIndex;
      let aTimesX := vmul aVal xVal in
      sum ← Load accum;
      Store accum (vadd sum aTimesX));;
    let yIndex := (rowIndex * incy)%i32 in
    sum ← Load accum;
    ArrayStore y yIndex sum);;
  mret 0.

(** The body that [EmitGEMMFunction<ValueType>] writes, run on the fourteen
    arguments of the function. *)
Definition GEMMFunction (order transA transB m n k : Z) (alpha : V)
    (A lda B ldb : Z) (beta : V) (C ldc : Z) : Emit Z :=
  let CblasNoTrans := 111 in
  let CblasTrans := 112 in
  let transposeA := scalarEq transA CblasTrans in
  let transposeB := scalarEq transB CblasTrans in
  let count := (ldc * m)%i32 in
  MemorySet C 0 0 count;;
  For m (fun i =>
    For k (fun k =>
      For n (fun j =>
        let aOffset := Select transposeA ((k * lda) + i)%i32 ((i * lda) + k)%i32 in
        let bOffset := Select transposeB ((j * ldb) + k)%i32 ((k * ldb) + j)%i32 in
        let cOffset := ((i * ldc) + j)%i32 in
        cVal ← ArrayLoad C cOffset;
        aVal ← ArrayLoad A aOffset;
        bVal ← ArrayLoad B bOffset;
        ArrayStore C cOffset (vadd cVal (vmul aVal bVal)))));;
  mret 0.

(** *** The kernels as the specification words them *)

(** GEMV: for each row index [i] in [0, m): an accumulator starts at zero,
    accumulates [A[i*lda + j] * x[j*incx]] for each column index [j] in
    [0, n), and is stored to [y[i*incy]].  The index expressions are [Int32]
    expressions, as every scalar of the kernel is. *)
Definition gemv_row (n A lda x incx : Z) (h : Z -> V) (i : Z) : V :=
  fold_left
    (fun accum j => vadd accum (vmul (h (A + (i * lda + j)%i32)) (h (x + (j * incx)%i32))))
    (seqZ 0 n) vzero.

Definition gemv_spec (m n A lda x incx y incy : Z) (h : Z -> V) : Z -> V :=
  fold_left
    (fun h i => <[y + (i * incy)%i32 := gemv_row n A lda x incx h i]> h)
    (seqZ 0 m) h.

(** GEMM: the [m*ldc] elements of the output buffer are zeroed, then for [i]
    in [0, m), for [k] in [0, k_dim), for [j] in [0, n), the product
    [A[aOffset] * B[bOffset]] is accumulated into [C[i*ldc + j]]. *)
Definition gemm_aOffset (transposeA : bool) (lda i k : Z) : Z :=
  if transposeA then (k * lda + i)%i32 else (i * lda + k)%i32.

Definition gemm_bOffset (transposeB : bool) (ldb k j : Z) : Z :=
  if transposeB then (j * ldb + k)%i32 else (k * ldb + j)%i32.

Definition gemm_clear (m C ldc : Z) (h : Z -> V) : Z -> V :=
  fold_left (fun h e => <[C + e := vzero]> h) (seqZ 0 (m * ldc)%i32) h.

Definition gemm_accumulate (transposeA transposeB : bool)
    (A lda B ldb C ldc i k j : Z) (h : Z -> V) : Z -> V :=
  <[C + (i * ldc + j)%i32 :=
      vadd (h (C + (i * ldc + j)%i32))
           (vmul (h (A + gemm_aOffset transposeA lda i k))
                 (h (B + gemm_bOffset transposeB ldb k j)))]> h.

Definition gemm_spec (transposeA transposeB : bool)
    (m n k_dim A lda B ldb C ldc : Z) (h : Z -> V) : Z -> V :=
  fold_left (fun h i =>
    fold_left (fun h k =>
      fold_left (fun h j =>
        gemm_accumulate transposeA transposeB A lda B ldb C ldc i k j h)
        (seqZ 0 n) h)
      (seqZ 0 k_dim) h)
    (seqZ 0 m) (gemm_clear m C ldc h).

End Kernels.

Arguments Memory V : clear implicits.
Arguments Emit V A : clear implicits.

(** ** The timing functions *)

(** The double-precision operations of the generated timing code:
    [fconst z] is the literal whose value is the integer [z], [sitofp] converts
    an integer to floating point and [fptosi bits] truncates a floating-point
    value to an integer of [bits] bits. *)
Class DoubleOps (double : Type) := {
  fadd : double -> double -> double;
  fsub : double -> double -> double;
  fmul : double -> double -> double;
  fdiv : double -> double -> double;
  fconst : Z -> double;
  sitofp : Z -> double;
  fptosi : N -> double -> Z
}.

(** A memory location of the timing code: a stack variable, or a member of the
    struct at a location ([CreateInBoundsGEP(type, base, {0, index})]). *)
Inductive Location :=
  | Local (name : string)
  | Field (base : Location) (index : nat).

#[global] Instance Location_eq_dec : EqDecision Location.
Proof. solve_decision. Defined.

Inductive Argument :=
  | IntArg (value : Z)
  | PtrArg (pointer : Location).

(** What a run of generated code does that its caller can observe, besides the
    memory: the stack variables it allocates and the calls it makes. *)
Inductive Event :=
  | AllocaEvent (name : string) (type : LLVMType)
  | CallEvent (callee : string) (arguments : list Argument).

Record Machine := {
  cells : Location -> Z;
  trace : list Event
}.

(** What a function does when it is called: its effect on the machine and its
    integer result. *)
Definition Callee : Type := list Argument -> State Machine Z.

(** The operators of [TypedOperator] that the timing code uses. *)
Inductive TypedOperator := addFloat | subtractFloat | multiplyFloat | divideFloat.

(** The width of an integer type. *)
Definition integerBits (t : LLVMType) : N :=
  match t with
  | IntegerTy bits => bits
  | _ => 0%N
  end.

Section Timing.
Context {double : Type} `{DoubleOps double}.

(** The clock id [CLOCK_REALTIME]: the macro of the host's [<time.h>], and 0
    under [_MSC_VER]. *)
Variable CLOCK_REALTIME : Z.

(** The stack variables that the code allocates and the calls that it makes
    are recorded, in order. *)
Definition record (e : Event) : State Machine unit :=
  modify (fun st => {| cells := cells st; trace := trace st ++ [e] |}).

(** The operations of the function emitter and of the IR builder that the
    timing code uses are not part of the sources at hand; the spec has them
    as the capability to emit loads, stores, arithmetic and calls.  Each one
    is modelled as what the code it emits does. *)

(** Modelled from the spec: [function.Variable(type, name)], which allocates a
    stack variable. *)
Definition AllocaVariable (type : LLVMType) (name : string) : State Machine Location :=
  record (AllocaEvent name type);; mret (Local name).

(** Modelled from the spec: [CreateInBoundsGEP(structType, pointer, {0, member})],
    the address of a member of the struct that [pointer] points to. *)
Definition CreateInBoundsGEP (pointer : Location) (indices : list Z) : Location :=
  match indices with
  | [0; member] => Field pointer (Z.to_nat member)
  | _ => pointer
  end.

(** Modelled from the spec: [function.Load(pointer)]. *)
Definition LoadCell (pointer : Location) : State Machine Z :=
  gets (fun st => cells st pointer).

(** Modelled from the spec: [function.Store(pointer, value)]. *)
Definition StoreCell (pointer : Location) (value : Z) : State Machine unit :=
  modify (fun st => {| cells := <[pointer := value]> (cells st); trace := trace st |}).

(** Modelled from the spec: [function.Call(callee, arguments)]; [behaviour] is
    what the function [callee] does. *)
Definition Call (callee : string) (behaviour : Callee) (arguments : list Argument)
    : State Machine Z :=
  record (CallEvent callee arguments);; behaviour arguments.

(** Modelled from the spec: [CastIntToFloat(value, Double, isSigned)] for a
    value of [bits] bits: an unsigned conversion reads the bits of the value as
    a natural number. *)
Definition CastIntToFloat (bits : N) (value : Z) (isSigned : bool) : double :=
  if isSigned then sitofp value else sitofp (value `mod` 2 ^ Z.of_N bits).

(** Modelled from the spec: [CastFloatToInt(value, destinationType)]. *)
Definition CastFloatToInt (value : double) (destinationType : VariableType) : Z :=
  fptosi (integerBits (Type_ destinationType)) value.

(** Modelled from the spec: [Operator(TypedOperator, left, right)] on doubles. *)
Definition Operator (operator : TypedOperator) (left right : double) : double :=
  match operator with
  | addFloat => fadd left right
  | subtractFloat => fsub left right
  | multiplyFloat => fmul left right
  | divideFloat => fdiv left right
  end.

(** The body of the [clock_gettime] that [ResolveCurrentTimeFunction] writes
    for a Windows target, run on its two arguments; [qpc] and [qpf] are what
    the two Win32 functions do. *)
Definition clock_gettime_windows (tmFieldVarType : VariableType)
    (qpcFunction qpfFunction : string) (qpc qpf : Callee)
    (clk_id : Z) (timeSpecArg : Location) : State Machine Z :=
  let zero := 0 in
  let hundredNanoSeconds := fconst 10000000 in
  let secondsPtr := CreateInBoundsGEP timeSpecArg [0; 0] in
  let nanoPtr := CreateInBoundsGEP timeSpecArg [0; 1] in
  timeVar ← AllocaVariable getInt64Ty "time";
  freqVar ← AllocaVariable getInt64Ty "freq";
  Call qpcFunction qpc [PtrArg timeVar];;
  Call qpfFunction qpf [PtrArg freqVar];;
  time ← LoadCell timeVar;
  let timeDouble := CastIntToFloat 64 time true in
  freq ← LoadCell freqVar;
  let freqDouble := CastIntToFloat 64 freq true in
  let seconds := Operator divideFloat timeDouble freqDouble in
  let intSeconds := CastFloatToInt seconds Int64 in
  let floatSeconds := CastIntToFloat 64 intSeconds true in
  let remainder := Operator subtractFloat seconds floatSeconds in
  let nanoseconds := Operator multiplyFloat remainder hundredNanoSeconds in
  let tv_nsec := CastFloatToInt nanoseconds tmFieldVarType in
  StoreCell nanoPtr tv_nsec;;
  let tv_sec := CastFloatToInt floatSeconds tmFieldVarType in
  StoreCell secondsPtr tv_sec;;
  mret zero.

(** The body of [GetTime] that [GetCurrentTimeFunction] writes; [clock] is
    what the resolved clock-read function [getTimeFunction] does. *)
Definition GetTimeFunction (timespecType : StructType)
    (getTimeFunction : string) (clock : Callee) : State Machine double :=
  timeStruct ← AllocaVariable (NamedStructTy (structName timespecType)) "tp";
  callResult ← Call getTimeFunction clock [IntArg CLOCK_REALTIME; PtrArg timeStruct];
  let secondsPtr := CreateInBoundsGEP timeStruct [0; 0] in
  let nanosecondsPtr := CreateInBoundsGEP timeStruct [0; 1] in
  secondsIntVal ← LoadCell secondsPtr;
  nanosecondsIntVal ← LoadCell nanosecondsPtr;
  let secondsDoubleVal :=
    CastIntToFloat (integerBits (getElementType timespecType 0)) secondsIntVal true in
  let nanosecondsDoubleVal :=
    CastIntToFloat (integerBits (getElementType timespecType 1)) nanosecondsIntVal false in
  let divisor := fconst 1000000000 in
  let totalSecondsDoubleVal :=
    Operator addFloat secondsDoubleVal
      (Operator divideFloat nanosecondsDoubleVal divisor) in
  mret (Operator multiplyFloat totalSecondsDoubleVal (fconst 1000)).

(** *** Running a function of the module *)

(** What the functions that the module only declares do: the linker's
    choice, by symbol. *)
Variable externals : string -> Callee.

(** A call of a clock-read function of the module: the body of the
    replacement when the module defines one, else the external function. *)
Definition clockBehaviour (module : IRModuleEmitter) (clock : string) : Callee :=
  match functionBody module (Some clock) with
  | Some (ClockGettimeBody tmFieldVarType (Some qpcFunction) (Some qpfFunction)) =>
      fun arguments =>
        match arguments with
        | [IntArg clk_id; PtrArg timeSpecArg] =>
            clock_gettime_windows tmFieldVarType qpcFunction qpfFunction
              (externals qpcFunction) (externals qpfFunction) clk_id timeSpecArg
        | _ => mret 0
        end
  | _ => externals clock
  end.

(** A call of the [GetTime] function [f] of the module. *)
Definition runGetTime (module : IRModuleEmitter) (f : LLVMFunction)
    : option (State Machine double) :=
  match functionBody module f with
  | Some (GetTimeBody getTimeFunction timespecType) =>
      Some (GetTimeFunction timespecType getTimeFunction
              (clockBehaviour module getTimeFunction))
  | _ => None
  end.

End Timing.

(** A call of a kernel of the module on its arguments: the body that the
    module holds for the symbol, when it is one of the fallback kernels. *)
Inductive KernelCall (V : Type) :=
  | GEMVCall (order transpose m n : Z) (alpha : V) (A lda x incx : Z)
      (beta : V) (y incy : Z)
  | GEMMCall (order transA transB m n k : Z) (alpha : V) (A lda B ldb : Z)
      (beta : V) (C ldc : Z).

Arguments GEMVCall {V}.
Arguments GEMMCall {V}.

Definition runKernel {V} `{ValueOps V} (module : IRModuleEmitter) (f : LLVMFunction)
    (call : KernelCall V) : option (Emit V Z) :=
  match functionBody module f, call with
  | Some (GEMVBody _), GEMVCall order transpose m n alpha A lda x incx beta y incy =>
      Some (GEMVFunction order transpose m n alpha A lda x incx beta y incy)
  | Some (GEMMBody _), GEMMCall order transA transB m n k alpha A lda B ldb beta C ldc =>
      Some (GEMMFunction order transA transB m n k alpha A lda B ldb beta C ldc)
  | _, _ => None
  end.

(** *** Instances to run the generated code on *)

(** Integer elements (the arithmetic of the kernels on exact values). *)
#[global] Instance Z_ValueOps : ValueOps Z :=
  {| vzero := 0; vadd := Z.add; vmul := Z.mul;
     vfill := fun b => b * 16843009; vfill_zero := eq_refl |}.

(** Exact rational arithmetic in place of the doubles. *)
#[global] Instance Q_DoubleOps : DoubleOps Q :=
  {| fadd := Qplus; fsub := Qminus; fmul := Qmult; fdiv := Qdiv;
     fconst := inject_Z; sitofp := inject_Z;
     fptosi := fun _ q => Z.quot (Qnum q) (Z.pos (Qden q)) |}.

(** Opening a function, writing its body and closing it adds one definition
    to the module, under the symbol that [uniqueName] picks. *)
Definition defines (module : IRModuleEmitter) (symbol : string) (body : FunctionBody)
    (module' : IRModuleEmitter) : Prop :=
  exists def,
    fn_body def = Some (Some body)
    /\ module' = set_functions (fun _ => <[symbol := def]> (functions module)) module.

(** The provider after [GetCurrentTimeFunction] has declared [clock_gettime],
    which is where the clock-read function is resolved. *)
Definition declared (rt : IRRuntime) : IRRuntime :=
  (onModule (DeclareFunction "clock_gettime" (gettimeType (_posixRuntime rt))) rt).2.

(** *** The functions of the operating system *)

(** A function that writes [value] to the location its one pointer argument
    points to, and does nothing else (the contract of
    [QueryPerformanceCounter] and [QueryPerformanceFrequency] when the counter,
    or the frequency, is [value]). *)
Definition writesValue (value : Z) (f : Callee) : Prop :=
  forall pointer st,
    exists result,
      f [PtrArg pointer] st
      = (result, {| cells := <[pointer := value]> (cells st); trace := trace st |}).

(** The Win32 functions of a machine whose performance counter reads
    [counter] at the frequency [frequency]. *)
Definition win32 (counter frequency : Z) : string -> Callee :=
  fun symbol arguments =>
    match arguments with
    | [PtrArg pointer] =>
        if decide (symbol = "QueryPerformanceCounter")
        then StoreCell pointer counter;; mret 1
        else if decide (symbol = "QueryPerformanceFrequency")
        then StoreCell pointer frequency;; mret 1
        else mret 0
    | _ => mret 0
    end.

(** The POSIX [clock_gettime] of a machine whose clock reads [seconds] and
    [nanoseconds]. *)
Definition posix (seconds nanoseconds : Z) : string -> Callee :=
  fun symbol arguments =>
    match arguments with
    | [IntArg clk_id; PtrArg tp] =>
        if decide (symbol = "clock_gettime")
        then StoreCell (Field tp 0) seconds;;
             StoreCell (Field tp 1) nanoseconds;;
             mret 0
        else mret 0
    | _ => mret 0
    end.

(** A machine with zero in every cell and nothing observed yet. *)
Definition idle : Machine := {| cells := fun _ => 0; trace := [] |}.

(** The number of arguments of each call of [callee] in a trace. *)
Definition callArities (callee : string) (events : list Event) : list nat :=
  omap (fun e =>
          match e with
          | CallEvent f arguments =>
              if decide (f = callee) then Some (length arguments) else None
          | AllocaEvent _ _ => None
          end) events.

(** *** Concrete providers *)

(** An empty module called [model] for a target of the given integer width
    and OS family, the timespec struct of a target whose [time_t] and [long]
    have [bits] bits, and a new provider on that module. *)
Definition emptyModule (bits : N) (windows : bool) : IRModuleEmitter :=
  {| moduleName := "model";
     functions := ∅;
     compilerOptions := {| targetDevice := {| numBits := bits; IsWindows := windows |} |} |}.

Definition timespec (bits : N) : StructType :=
  {| structName := "timespec"; elementTypes := [IntegerTy bits; IntegerTy bits] |}.

Definition newProvider (bits : N) (windows : bool) : IRRuntime :=
  IRRuntime_new (emptyModule bits windows) (timespec bits).

(** *** What a request keeps of the module *)

(** [module'] has the name, the options and every function of [module], each
    function as it was. *)
Definition extends (module module' : IRModuleEmitter) : Prop :=
  moduleName module' = moduleName module
  /\ compilerOptions module' = compilerOptions module
  /\ forall name def,
       functions module !! name = Some def -> functions module' !! name = Some def.

(** A computation on the module, or on the provider, that keeps what the
    module has. *)
Definition keeps {A} (c : State IRModuleEmitter A) : Prop :=
  forall module, extends module (c module).2.

Definition providerKeeps {A} (c : Throwing IRRuntime A) : Prop :=
  forall rt,
    extends (_module rt) (_module (c rt).2)
    /\ _posixRuntime (c rt).2 = _posixRuntime rt.

(** *** The current time in a function under construction *)

(** A call instruction: the function called and its arguments. *)
Record CallInstruction := {
  call_callee : LLVMFunction;
  call_arguments : list Argument
}.

(** [IRRuntime::GetCurrentTime(function)]: the value of a call, without
    arguments, of the function that [GetCurrentTimeFunction] returns. *)
Definition GetCurrentTime (function : IRFunctionEmitter)
    : Throwing IRRuntime CallInstruction :=
  getTimeFunc ← GetCurrentTimeFunction;
  let time := {| call_callee := getTimeFunc; call_arguments := [] |} in
  mret time.

(** The calls that [count] uses of [GetCurrentTime] in a row give; a throw
    ends the row. *)
Fixpoint GetCurrentTimes (function : IRFunctionEmitter) (count : nat)
    : Throwing IRRuntime (list CallInstruction) :=
  match count with
  | O => mret []
  | S count' =>
      time ← GetCurrentTime function;
      times ← GetCurrentTimes function count';
      mret (time :: times)
  end.

(** *** The timer of the generated wrapper class *)

(** The wrapper class that is generated for a model keeps a start time and
    whether it has one ([_start], [_started]).  Time points are counted in
    ticks of [std::chrono::high_resolution_clock], whose tick lasts
    [periodNum / periodDen] seconds; the clock is the sequence of the times
    that its successive readings give. *)
Record Wrapper := {
  _start : Z;
  _started : bool;
  clockReadings : nat
}.

(** A call of a client to the timer of the wrapper. *)
Inductive TimerCall := CallReset | CallGetMilliseconds.

Section WrapperTimer.
Context {double : Type} `{DoubleOps double}.
Variables periodNum periodDen : Z.
Variable clock : nat -> Z.

(** [std::chrono::high_resolution_clock::now()]: the next reading. *)
Definition now : State Wrapper Z :=
  fun w => (clock (clockReadings w),
            {| _start := _start w; _started := _started w;
               clockReadings := S (clockReadings w) |}).

(** [std::chrono::duration_cast<std::chrono::microseconds>]: the number of
    whole microseconds, rounded toward zero. *)
Definition duration_cast_microseconds (ticks : Z) : Z :=
  Z.quot (ticks * (periodNum * 1000000)) periodDen.

(** The constructor: no start time yet. *)
Definition Wrapper_new : Wrapper :=
  {| _start := 0; _started := false; clockReadings := 0 |}.

(** [Reset()]: after the reset of the model (which has no part in the timer),
    the start time is dropped. *)
Definition Reset : State Wrapper unit :=
  modify (fun w => {| _start := _start w; _started := false;
                      clockReadings := clockReadings w |}).

(** [GetMilliseconds()]. *)
Definition GetMilliseconds : State Wrapper double :=
  started ← gets _started;
  (if negb started
   then
     start ← now;
     modify (fun w => {| _start := start; _started := true;
                         clockReadings := clockReadings w |})
   else mret tt);;
  now_ ← now;
  start ← gets _start;
  let us := duration_cast_microseconds (now_ - start) in
  mret (fdiv (sitofp us) (fconst 1000)).

(** The calls of a client, one after the other; the results of the calls of
    [GetMilliseconds] are collected. *)
Fixpoint runTimer (calls : list TimerCall) : State Wrapper (list double) :=
  match calls with
  | [] => mret []
  | CallReset :: rest => Reset;; runTimer rest
  | CallGetMilliseconds :: rest =>
      ms ← GetMilliseconds;
      times ← runTimer rest;
      mret (ms :: times)
  end.

End WrapperTimer.

(** *** Getters that only declare *)

(** The getter [c] only declares a function of type [ty]: it returns a
    function, never [nullptr]; a second call returns the function of the first
    and leaves the provider as it is; no body is written; and when the name of
    the function was free, the function is a declaration of type [ty]. *)
Definition declaresOnly (c : State IRRuntime LLVMFunction) (ty : FunctionType) : Prop :=
  forall rt,
    let '(first, rt1) := c rt in
    first <> None
    /\ c rt1 = (first, rt1)
    /\ authoredBodies (_module rt1) = authoredBodies (_module rt)
    /\ (forall name, first = Some name -> functions (_module rt) !! name = None ->
        functions (_module rt1) !! name = Some (declaration ty)).

(** * Properties of the module and of the provider *)

Ltac run_state :=
  unfold mbind, mret, state_bind, state_ret, throwing_bind, throwing_ret,
    lift, throw, gets, modify, onModule in *;
  simpl in *.

Ltac author_run :=
  unfold GetDotProductFloatFunction, GetDotProductIntFunction, EmitGEMVFunction,
    EmitGEMMFunction, GetNamespacePrefix, BeginFunctionNamed, BeginFunction,
    BeginFunctionLLVM, IncludeInHeader, EmitBody, EndFunction, GetModuleName;
  run_state.

Section ModuleFacts.
Implicit Types (module : IRModuleEmitter) (name : string) (ty : FunctionType).

Lemma uniqueName_free module name :
  functions module !! name = None -> uniqueName module name = name.
Proof. intros Hfree. unfold uniqueName, fresh_string. by rewrite Hfree. Qed.

Lemma uniqueName_fresh module name :
  functions module !! uniqueName module name = None.
Proof. apply fresh_string_fresh. Qed.

Lemma getFunction_Some module name f :
  getFunction module name = Some f -> f = name /\ is_Some (functions module !! name).
Proof.
  unfold getFunction. destruct (functions module !! name) eqn:E; [|done].
  intros [= <-]. eauto.
Qed.

Lemma getFunction_None module name :
  getFunction module name = None <-> functions module !! name = None.
Proof. unfold getFunction. by destruct (functions module !! name). Qed.

Lemma getOrInsertFunction_handle name ty module :
  (getOrInsertFunction name ty module).1 = Some name.
Proof. unfold getOrInsertFunction. by destruct (functions module !! name). Qed.

Lemma getOrInsertFunction_new name ty module :
  functions module !! name = None ->
  functions (getOrInsertFunction name ty module).2
    = <[name := declaration ty]> (functions module).
Proof. intros Hfree. unfold getOrInsertFunction. by rewrite Hfree. Qed.

Lemma getOrInsertFunction_old name ty module :
  is_Some (functions module !! name) ->
  (getOrInsertFunction name ty module).2 = module.
Proof. intros [d Hd]. unfold getOrInsertFunction. by rewrite Hd. Qed.

Lemma getOrInsertFunction_declared name ty module :
  is_Some (functions (getOrInsertFunction name ty module).2 !! name).
Proof.
  unfold getOrInsertFunction. destruct (functions module !! name) eqn:E; simpl.
  - by rewrite E.
  - rewrite lookup_insert_eq. eauto.
Qed.

(** A declaration keeps the symbols that the module has. *)
Lemma getOrInsertFunction_keeps name ty module other :
  is_Some (functions module !! other) ->
  is_Some (functions (getOrInsertFunction name ty module).2 !! other).
Proof.
  intros Hother. unfold getOrInsertFunction.
  destruct (functions module !! name) eqn:E; simpl; [done|].
  rewrite lookup_insert_is_Some. destruct (decide (name = other)); eauto.
Qed.

(** After a declaration, the symbol is found. *)
Lemma DeclareFunction_GetFunction name ty module :
  getFunction (DeclareFunction name ty module).2 name = Some name.
Proof.
  unfold DeclareFunction. run_state.
  pose proof (getOrInsertFunction_declared name ty module) as [d Hd].
  destruct (getOrInsertFunction name ty module) as [f module']. simpl in *.
  unfold getFunction. by rewrite Hd.
Qed.

(** The number of bodies after a definition is added under a free symbol. *)
Lemma authoredBodies_define module symbol def :
  functions module !! symbol = None ->
  isDefinition def = true ->
  authoredBodies (set_functions (fun _ => <[symbol := def]> (functions module)) module)
    = S (authoredBodies module).
Proof.
  intros Hfree Hdef. unfold authoredBodies, definedFunctions. simpl.
  rewrite map_filter_insert_True by done.
  apply map_size_insert_None, map_lookup_filter_None. left. done.
Qed.

Lemma authoredBodies_declare module symbol ty :
  functions module !! symbol = None ->
  authoredBodies (set_functions (insert symbol (declaration ty)) module)
    = authoredBodies module.
Proof.
  intros Hfree. unfold authoredBodies, definedFunctions. simpl.
  rewrite map_filter_insert_False by (simpl; done).
  by rewrite delete_id by done.
Qed.
End ModuleFacts.

Section ProviderFacts.
Implicit Types (rt : IRRuntime) (module : IRModuleEmitter).

Lemma defines_authoredBodies module symbol body module' :
  functions module !! symbol = None ->
  defines module symbol body module' ->
  authoredBodies module' = S (authoredBodies module).
Proof.
  intros Hfree (def & Hbody & ->).
  apply authoredBodies_define; [done|]. unfold isDefinition. by rewrite Hbody.
Qed.

Lemma defines_lookup module symbol body module' :
  defines module symbol body module' ->
  functionBody module' (Some symbol) = Some body.
Proof.
  intros (def & Hbody & ->). unfold functionBody. simpl.
  rewrite lookup_insert_eq. simpl. by rewrite Hbody.
Qed.

Lemma GetDotProductFloatFunction_run rt :
  let symbol :=
    uniqueName (_module rt) (moduleName (_module rt) +:+ "_" +:+ dotProductFloatName) in
  exists module',
    defines (_module rt) symbol DotProductBody module'
    /\ GetDotProductFloatFunction rt = (Some symbol, set_module module' rt).
Proof.
  eexists. split; [|author_run; reflexivity].
  eexists. split; [|unfold set_functions; simpl; rewrite !alter_insert_eq; reflexivity].
  reflexivity.
Qed.

Lemma GetDotProductIntFunction_run rt :
  let symbol :=
    uniqueName (_module rt) (moduleName (_module rt) +:+ "_" +:+ dotProductIntName) in
  exists module',
    defines (_module rt) symbol DotProductBody module'
    /\ GetDotProductIntFunction rt = (Some symbol, set_module module' rt).
Proof.
  eexists. split; [|author_run; reflexivity].
  eexists. split; [|unfold set_functions; simpl; rewrite !alter_insert_eq; reflexivity].
  reflexivity.
Qed.

Lemma EmitGEMVFunction_run ValueType functionName argTypes module :
  let symbol := uniqueName module functionName in
  exists module',
    defines module symbol (GEMVBody ValueType) module'
    /\ EmitGEMVFunction ValueType functionName argTypes module = (Some symbol, module').
Proof.
  eexists. split; [|author_run; reflexivity].
  eexists. split; [|unfold set_functions; simpl; rewrite !alter_insert_eq; reflexivity].
  reflexivity.
Qed.

Lemma EmitGEMMFunction_run ValueType functionName argTypes module :
  let symbol := uniqueName module functionName in
  exists module',
    defines module symbol (GEMMBody ValueType) module'
    /\ EmitGEMMFunction ValueType functionName argTypes module = (Some symbol, module').
Proof.
  eexists. split; [|author_run; reflexivity].
  eexists. split; [|unfold set_functions; simpl; rewrite !alter_insert_eq; reflexivity].
  reflexivity.
Qed.
End ProviderFacts.

(** ** Requests that are served once, and requests that are not *)

Section Fallback.
(** The getters of the four kernels share their shape; [emit] is
    [EmitGEMVFunction] or [EmitGEMMFunction] at an element type. *)
Variable emit : string -> VariableTypeList -> State IRModuleEmitter LLVMFunction.
Variable body : FunctionBody.
Hypothesis emit_run : forall functionName argTypes module,
  exists module',
    defines module (uniqueName module functionName) body module'
    /\ emit functionName argTypes module
       = (Some (uniqueName module functionName), module').

Variables (argTypes : VariableTypeList) (blasName noblasName : string).

Lemma GetBlasFunction_fallback_found rt :
  is_Some (functions (_module rt) !! noblasName) ->
  GetBlasFunction false argTypes blasName noblasName emit rt = (Some noblasName, rt).
Proof.
  intros [d Hd]. unfold GetBlasFunction, GetFunction, getFunction. run_state.
  rewrite Hd. by destruct rt.
Qed.

Lemma GetBlasFunction_fallback_authored rt :
  functions (_module rt) !! noblasName = None ->
  exists module',
    defines (_module rt) noblasName body module'
    /\ GetBlasFunction false argTypes blasName noblasName emit rt
       = (Some noblasName, set_module module' rt).
Proof.
  intros Hfree. destruct rt as [module timespecType cached]. simpl in *.
  unfold GetBlasFunction, GetFunction, getFunction. run_state.
  rewrite Hfree. simpl.
  destruct (emit_run noblasName argTypes module) as (module' & Hdef & ->).
  rewrite uniqueName_free in * by done. eauto.
Qed.

(** The handle of a fallback kernel is the kernel's literal symbol. *)
Lemma GetBlasFunction_fallback_handle rt :
  (GetBlasFunction false argTypes blasName noblasName emit rt).1 = Some noblasName.
Proof.
  destruct (functions (_module rt) !! noblasName) eqn:E.
  - by rewrite GetBlasFunction_fallback_found by eauto.
  - destruct (GetBlasFunction_fallback_authored rt E) as (module' & _ & ->). done.
Qed.

(** A second request for a fallback kernel finds the kernel of the first:
    same handle, and the module is left as it is. *)
Lemma GetBlasFunction_fallback_idempotent rt :
  let '(first, rt1) := GetBlasFunction false argTypes blasName noblasName emit rt in
  GetBlasFunction false argTypes blasName noblasName emit rt1 = (first, rt1)
  /\ (authoredBodies (_module rt1) <= S (authoredBodies (_module rt)))%nat.
Proof.
  destruct (functions (_module rt) !! noblasName) eqn:E.
  - rewrite GetBlasFunction_fallback_found by eauto.
    split; [by rewrite GetBlasFunction_fallback_found by eauto | lia].
  - destruct (GetBlasFunction_fallback_authored rt E) as (module' & Hdef & ->).
    split.
    + apply GetBlasFunction_fallback_found. destruct Hdef as (def & _ & ->). simpl.
      rewrite lookup_insert_eq. eauto.
    + simpl. by rewrite (defines_authoredBodies _ _ _ _ E Hdef).
Qed.

(** A request for the external binding declares and never authors. *)
Lemma GetBlasFunction_external_idempotent rt :
  let '(first, rt1) := GetBlasFunction true argTypes blasName noblasName emit rt in
  first = Some blasName
  /\ GetBlasFunction true argTypes blasName noblasName emit rt1 = (first, rt1)
  /\ authoredBodies (_module rt1) = authoredBodies (_module rt).
Proof.
  unfold GetBlasFunction, getOrInsertFunction. run_state.
  destruct (functions (_module rt) !! blasName) eqn:E; simpl.
  - rewrite E. by destruct rt.
  - rewrite lookup_insert_eq. split; [done|]. split; [done|].
    by apply authoredBodies_declare.
Qed.
End Fallback.

Section Requests.
Implicit Types (rt : IRRuntime) (r : Request).

Lemma lift_fst {S A} (c : State S A) (s : S) : (lift c s).1 = inr (c s).1.
Proof. unfold lift. by destruct (c s). Qed.

Lemma lift_snd {S A} (c : State S A) (s : S) : (lift c s).2 = (c s).2.
Proof. unfold lift. by destruct (c s). Qed.

Lemma serve_fallback r name rt :
  fallbackName r = Some name -> (serve r rt).1 = inr (Some name).
Proof.
  destruct r as [| | | | | | | | | | | | | | | |[]|[]|[]|[]| |];
    intros [= <-]; cbn [serve]; rewrite lift_fst; f_equal.
  - apply (GetBlasFunction_fallback_handle _ _ (EmitGEMVFunction_run Float)).
  - apply (GetBlasFunction_fallback_handle _ _ (EmitGEMVFunction_run Double)).
  - apply (GetBlasFunction_fallback_handle _ _ (EmitGEMMFunction_run Float)).
  - apply (GetBlasFunction_fallback_handle _ _ (EmitGEMMFunction_run Double)).
Qed.

Lemma serveAll_cons r rs rt :
  serveAll (r :: rs) rt
  = ((serve r rt).1 :: (serveAll rs (serve r rt).2).1, (serveAll rs (serve r rt).2).2).
Proof. simpl. destruct (serve r rt) as [a rt']. simpl. by destruct (serveAll rs rt'). Qed.
End Requests.

(** ** The current-time function *)

Section CurrentTime.
Implicit Types (rt : IRRuntime) (resolve : StructType -> State IRRuntime LLVMFunction).

Lemma declared_cache rt :
  _pGetCurrentTimeFunction (declared rt) = _pGetCurrentTimeFunction rt.
Proof.
  unfold declared, DeclareFunction. run_state.
  by destruct (getOrInsertFunction _ _ (_module rt)).
Qed.

Lemma declared_timespec rt : _posixRuntime (declared rt) = _posixRuntime rt.
Proof.
  unfold declared, DeclareFunction. run_state.
  by destruct (getOrInsertFunction _ _ (_module rt)).
Qed.

Lemma GetCurrentTimeFunctionWith_cached resolve rt f :
  _pGetCurrentTimeFunction rt = Some f ->
  GetCurrentTimeFunctionWith resolve rt = (inr (Some f), rt).
Proof.
  intros Hc. unfold GetCurrentTimeFunctionWith. run_state.
  rewrite Hc. simpl. by rewrite Hc.
Qed.

Lemma GetCurrentTimeFunctionWith_start resolve rt :
  _pGetCurrentTimeFunction rt = None ->
  GetCurrentTimeFunctionWith resolve rt
  = (let '(getTimeFunction, rt2) := resolve (_posixRuntime rt) (declared rt) in
     match getTimeFunction with
     | Some clock =>
         let functionName := moduleName (_module rt2) +:+ "_" +:+ getTimeFunctionName in
         let '(f, module') :=
           (function ← BeginFunction functionName Double [];
            EmitBody function (GetTimeBody clock (_posixRuntime rt));;
            EndFunction;;
            mret (fe_GetFunction function)) (_module rt2) in
         (inr f, set_pGetCurrentTimeFunction f (set_module module' rt2))
     | None => (inl (MkEmitterException functionNotFound), rt2)
     end).
Proof.
  intros Hc. unfold GetCurrentTimeFunctionWith, declared, GetTimespecType,
    GetNamespacePrefix, GetModuleName.
  run_state. rewrite Hc.
  destruct (DeclareFunction _ _ (_module rt)) as [u module1]. simpl.
  destruct (resolve _ _) as [[clock|] rt2]; [|done]. simpl.
  reflexivity.
Qed.

Lemma GetCurrentTimeFunctionWith_throws resolve rt :
  _pGetCurrentTimeFunction rt = None ->
  (resolve (_posixRuntime rt) (declared rt)).1 = None ->
  GetCurrentTimeFunctionWith resolve rt
  = (inl (MkEmitterException functionNotFound),
     (resolve (_posixRuntime rt) (declared rt)).2).
Proof.
  intros Hc Hnull. rewrite GetCurrentTimeFunctionWith_start by done.
  destruct (resolve _ _) as [clock rt2]. simpl in *. by subst.
Qed.

Lemma GetCurrentTimeFunctionWith_authors resolve rt clock :
  _pGetCurrentTimeFunction rt = None ->
  (resolve (_posixRuntime rt) (declared rt)).1 = Some clock ->
  let rt2 := (resolve (_posixRuntime rt) (declared rt)).2 in
  let symbol :=
    uniqueName (_module rt2) (moduleName (_module rt2) +:+ "_" +:+ getTimeFunctionName) in
  exists module',
    defines (_module rt2) symbol (GetTimeBody clock (_posixRuntime rt)) module'
    /\ GetCurrentTimeFunctionWith resolve rt
       = (inr (Some symbol),
          set_pGetCurrentTimeFunction (Some symbol) (set_module module' rt2)).
Proof.
  intros Hc Hclock. rewrite GetCurrentTimeFunctionWith_start by done.
  destruct (resolve _ _) as [getTimeFunction rt2]. simpl in *. subst.
  eexists. split; [|author_run; reflexivity].
  eexists. split; [|unfold set_functions; simpl; rewrite !alter_insert_eq; reflexivity].
  reflexivity.
Qed.

(** The clock-read function is resolved on every target. *)
Lemma ResolveCurrentTimeFunction_resolves timespecType rt :
  exists clock, (ResolveCurrentTimeFunction timespecType rt).1 = Some clock.
Proof.
  unfold ResolveCurrentTimeFunction. run_state.
  destruct (IsWindows _).
  - unfold BeginFunctionLLVM, EmitBody, EndFunction, GetFunction. run_state.
    destruct (DeclareFunction "QueryPerformanceCounter" _ _) as [u1 module1].
    destruct (DeclareFunction "QueryPerformanceFrequency" _ _) as [u2 module2].
    simpl. eauto.
  - unfold GetFunction. run_state.
    pose proof (DeclareFunction_GetFunction "clock_gettime"
      (FunctionType_get (getElementType timespecType 0)
         [getInt32Ty; structPointerTo timespecType] false) (_module rt)) as Hfound.
    destruct (DeclareFunction _ _ _) as [u module1]. simpl in *. eauto.
Qed.

(** A second call answers from the cache: same handle, nothing written. *)
Lemma GetCurrentTimeFunction_idempotent rt :
  let '(first, rt1) := GetCurrentTimeFunction rt in
  GetCurrentTimeFunction rt1 = (first, rt1).
Proof.
  unfold GetCurrentTimeFunction.
  destruct (_pGetCurrentTimeFunction rt) as [f|] eqn:Hc.
  - rewrite (GetCurrentTimeFunctionWith_cached _ _ _ Hc).
    by apply GetCurrentTimeFunctionWith_cached.
  - destruct (ResolveCurrentTimeFunction_resolves (_posixRuntime rt) (declared rt))
      as [clock Hclock].
    destruct (GetCurrentTimeFunctionWith_authors _ _ _ Hc Hclock) as (module' & _ & ->).
    by apply GetCurrentTimeFunctionWith_cached.
Qed.
End CurrentTime.

(** C10: on every target, Windows-like or not, [ResolveCurrentTimeFunction]
    returns a function and not [nullptr]: for a Windows target the function
    is a definition, the replacement it has just written, and for any other
    target it is the declared external [clock_gettime].  So
    [GetCurrentTimeFunction] never takes the branch that throws: it returns
    a function on every provider. *)
Theorem ResolveCurrentTimeFunction_never_null :
  (forall timespecType rt,
     let '(function, rt') := ResolveCurrentTimeFunction timespecType rt in
     function <> None
     /\ if IsWindows (targetDevice (compilerOptions (_module rt)))
        then exists tmFieldVarType qpcFunction qpfFunction,
               functionBody (_module rt') function
               = Some (ClockGettimeBody tmFieldVarType qpcFunction qpfFunction)
        else function = Some "clock_gettime"
             /\ getFunction (_module rt') "clock_gettime" = function)
  /\ (forall rt,
        (GetCurrentTimeFunction rt).1 <> inl (MkEmitterException functionNotFound)
        /\ exists f, (GetCurrentTimeFunction rt).1 = inr (Some f)).
Proof.
  split.
  - intros timespecType rt.
    unfold ResolveCurrentTimeFunction, GetCompilerOptions. run_state.
    destruct (IsWindows _).
    + unfold BeginFunctionLLVM, EmitBody, EndFunction, GetFunction. run_state.
      destruct (DeclareFunction "QueryPerformanceCounter" _ _) as [u1 module1].
      destruct (DeclareFunction "QueryPerformanceFrequency" _ _) as [u2 module2].
      simpl. split; [done|]. do 3 eexists.
      unfold functionBody. simpl. rewrite lookup_alter_eq, lookup_insert_eq. reflexivity.
    + unfold GetFunction. run_state.
      pose proof (DeclareFunction_GetFunction "clock_gettime"
        (FunctionType_get (getElementType timespecType 0)
           [getInt32Ty; structPointerTo timespecType] false) (_module rt)) as Hfound.
      destruct (DeclareFunction _ _ _) as [u module1]. simpl in *.
      rewrite Hfound. done.
  - intros rt.
    assert (exists f, (GetCurrentTimeFunction rt).1 = inr (Some f)) as [f Hf].
    { unfold GetCurrentTimeFunction.
      destruct (_pGetCurrentTimeFunction rt) as [f|] eqn:Hc.
      - rewrite (GetCurrentTimeFunctionWith_cached _ _ _ Hc). eauto.
      - destruct (ResolveCurrentTimeFunction_resolves (_posixRuntime rt) (declared rt))
          as [clock Hclock].
        destruct (GetCurrentTimeFunctionWith_authors _ _ _ Hc Hclock) as (module' & _ & ->).
        eauto. }
    split; [by rewrite Hf | eauto].
Qed.

(** C7: [GetCurrentTimeFunction] throws the function-resolution error of the
    emitter ([EmitterError::functionNotFound]) if and only if it has no cached
    function yet and the resolution of the clock-read function, run after the
    declaration of [clock_gettime], yields [nullptr]; this holds for whatever
    the resolver does, [ResolveCurrentTimeFunction] included.  The failure is
    a throw, and nothing is written to the module after the failed
    resolution; in every other case the call returns a function that is not
    [nullptr], which is then the cached one. *)
Theorem GetCurrentTimeFunction_throws_iff
    (resolve : StructType -> State IRRuntime LLVMFunction) (rt : IRRuntime) :
  let unresolved :=
    _pGetCurrentTimeFunction rt = None
    /\ (resolve (_posixRuntime rt) (declared rt)).1 = None in
  ((GetCurrentTimeFunctionWith resolve rt).1 = inl (MkEmitterException functionNotFound)
   <-> unresolved)
  /\ (unresolved ->
      (GetCurrentTimeFunctionWith resolve rt).2
      = (resolve (_posixRuntime rt) (declared rt)).2)
  /\ (~ unresolved ->
      exists f, (GetCurrentTimeFunctionWith resolve rt).1 = inr (Some f)
                /\ _pGetCurrentTimeFunction (GetCurrentTimeFunctionWith resolve rt).2
                   = Some f).
Proof.
  intros unresolved. subst unresolved.
  destruct (_pGetCurrentTimeFunction rt) as [f|] eqn:Hc.
  - rewrite (GetCurrentTimeFunctionWith_cached _ _ _ Hc). simpl.
    split; [split; [done | by intros [? _]] |].
    split; [by intros [? _] | eauto].
  - destruct ((resolve (_posixRuntime rt) (declared rt)).1) as [clock|] eqn:Hclock.
    + destruct (GetCurrentTimeFunctionWith_authors _ _ _ Hc Hclock) as (module' & _ & ->).
      simpl. split; [split; [done | by intros [_ ?]] |].
      split; [by intros [_ ?] | eauto].
    + rewrite (GetCurrentTimeFunctionWith_throws _ _ Hc Hclock). simpl.
      split; [done|]. split; [done | by intros []].
Qed.

(** C7 on two providers: a resolver that finds no clock-read function makes
    the call throw, and the resolver of the provider, on a Windows target,
    makes it return a function. *)
Lemma GetCurrentTimeFunction_throws_iff_witness :
  (GetCurrentTimeFunctionWith (fun _ => mret None) (newProvider 64 false)).1
    = inl (MkEmitterException functionNotFound)
  /\ exists f,
       (GetCurrentTimeFunctionWith ResolveCurrentTimeFunction (newProvider 64 true)).1
       = inr (Some f).
Proof.
  split.
  - apply (GetCurrentTimeFunction_throws_iff (fun _ => mret None) (newProvider 64 false)).
    split; reflexivity.
  - destruct (GetCurrentTimeFunction_throws_iff ResolveCurrentTimeFunction
                (newProvider 64 true)) as (_ & _ & Hreturns).
    destruct Hreturns as (f & Hf & _).
    + intros [_ Hnull]. vm_compute in Hnull. discriminate Hnull.
    + exists f. exact Hf.
Defined.

(** ** The hyperbolic tangent *)

(** C4: [GetTanhFunction(type)] throws exactly when [type] is neither [Float]
    nor [Double] (the exception is the emitter's [functionNotFound], which is
    what the code throws for an unsupported type).  For [Double] it declares
    the symbol [tanh], for [Float] the symbol [tanhf], and returns the function
    of that symbol; when the module has no such symbol yet, the declaration
    has one parameter, and its parameter type and return type are both the
    native type of the requested element type. *)
Theorem GetTanhFunction_supported (argType : VariableType) (rt : IRRuntime) :
  let funcName := if decide (argType = Double) then "tanh" else "tanhf" in
  let valueType := Type_ argType in
  ((GetTanhFunction argType rt).1 = inl (MkEmitterException functionNotFound)
   <-> argType <> Float /\ argType <> Double)
  /\ (argType = Float \/ argType = Double ->
      (GetTanhFunction argType rt).1 = inr (Some funcName)
      /\ getFunction (_module (GetTanhFunction argType rt).2) funcName = Some funcName
      /\ (getFunction (_module rt) funcName = None ->
          functions (_module (GetTanhFunction argType rt).2) !! funcName
          = Some (declaration (FunctionType_get valueType [valueType] false)))).
Proof.
  intros funcName valueType. split.
  - destruct argType; simpl; try (split; [done | by intros []]);
      (split; [|tauto]); rewrite lift_fst; done.
  - intros Hfloat.
    assert (GetTanhFunction argType rt
            = lift (onModule (DeclareFunction funcName
                                (FunctionType_get valueType [valueType] false);;
                              GetFunction funcName)) rt) as ->.
    { by destruct Hfloat as [-> | ->]. }
    rewrite lift_fst, lift_snd. unfold GetFunction. run_state.
    pose proof (DeclareFunction_GetFunction funcName
      (FunctionType_get valueType [valueType] false) (_module rt)) as Hfound.
    unfold DeclareFunction in *. run_state.
    pose proof (getOrInsertFunction_new funcName
      (FunctionType_get valueType [valueType] false) (_module rt)) as Hnew.
    destruct (getOrInsertFunction _ _ _) as [u module1]. simpl in *.
    rewrite Hfound. split; [done|]. split; [done|].
    intros Hfree. rewrite Hnew by by apply getFunction_None.
    by rewrite lookup_insert_eq.
Qed.

(** C4 on an empty module: the request for [Double] declares
    [double tanh(double)], and the request for [Int32] throws. *)
Lemma GetTanhFunction_supported_witness :
  let rt := newProvider 64 false in
  ((GetTanhFunction Double rt).1 = inr (Some "tanh")
   /\ functions (_module (GetTanhFunction Double rt).2) !! "tanh"
      = Some (declaration (FunctionType_get DoubleTy [DoubleTy] false)))
  /\ (GetTanhFunction Int32 rt).1 = inl (MkEmitterException functionNotFound).
Proof.
  intros rt. split.
  - destruct (GetTanhFunction_supported Double rt) as (_ & Hdeclares).
    destruct Hdeclares as (Hhandle & _ & Htype); [right; reflexivity|].
    split; [exact Hhandle|]. apply Htype. reflexivity.
  - apply (GetTanhFunction_supported Int32 rt). split; discriminate.
Defined.

(** ** The OpenBLAS thread functions *)

(** C9, amended: [GetOpenBLASGetNumThreadsFunction] declares
    [openblas_get_num_threads] with the signature [() -> int] and
    [GetOpenBLASSetNumThreadsFunction] declares [openblas_set_num_threads]
    with the signature [(int) -> void], where [int] is the integer type of
    [GetIntType]: of [numBits] bits when the target descriptor gives a
    [numBits] other than zero, and of 32 bits when it gives zero.  The
    signature is the one asked for when the module has no function of that
    name yet. *)
Theorem OpenBLAS_thread_functions (rt : IRRuntime) :
  let bits := numBits (targetDevice (compilerOptions (_module rt))) in
  let intType := if decide (bits = 0%N) then IntegerTy 32 else IntegerTy bits in
  (getFunction (_module rt) "openblas_get_num_threads" = None ->
   let '(f, rt') := GetOpenBLASGetNumThreadsFunction rt in
   f = Some "openblas_get_num_threads"
   /\ functions (_module rt') !! "openblas_get_num_threads"
      = Some (declaration (FunctionType_get intType [] false)))
  /\ (getFunction (_module rt) "openblas_set_num_threads" = None ->
      let '(f, rt') := GetOpenBLASSetNumThreadsFunction rt in
      f = Some "openblas_set_num_threads"
      /\ functions (_module rt') !! "openblas_set_num_threads"
         = Some (declaration (FunctionType_get VoidTy [intType] false))).
Proof.
  intros bits intType. subst bits intType.
  split; intros Hfree%getFunction_None;
    unfold GetOpenBLASGetNumThreadsFunction, GetOpenBLASSetNumThreadsFunction,
      GetIntType, GetCompilerOptions, getOrInsertFunction;
    run_state;
    destruct (decide (numBits _ <> 0%N)) as [Hbits|Hbits];
    destruct (decide (numBits _ = 0%N)) as [Hzero|Hzero]; try done;
    simpl; rewrite Hfree; simpl; by rewrite lookup_insert_eq.
Qed.

(** C9, amended, on an empty module for a 64-bit target and for a target that
    gives no width. *)
Lemma OpenBLAS_thread_functions_witness :
  functions (_module (GetOpenBLASGetNumThreadsFunction (newProvider 64 false)).2)
    !! "openblas_get_num_threads"
  = Some (declaration (FunctionType_get (IntegerTy 64) [] false))
  /\ functions (_module (GetOpenBLASSetNumThreadsFunction (newProvider 0 false)).2)
       !! "openblas_set_num_threads"
     = Some (declaration (FunctionType_get VoidTy [IntegerTy 32] false)).
Proof.
  split.
  - pose proof (proj1 (OpenBLAS_thread_functions (newProvider 64 false)) eq_refl) as Hget.
    destruct (GetOpenBLASGetNumThreadsFunction (newProvider 64 false)) as [f rt'].
    exact (proj2 Hget).
  - pose proof (proj2 (OpenBLAS_thread_functions (newProvider 0 false)) eq_refl) as Hset.
    destruct (GetOpenBLASSetNumThreadsFunction (newProvider 0 false)) as [f rt'].
    exact (proj2 Hset).
Defined.

(** C9 as stated fails for a target whose descriptor gives 64 bits: on an
    empty module, the declared [openblas_get_num_threads] returns a 64-bit
    integer, and [openblas_set_num_threads] takes one, so neither signature
    is the one with [Int32]. *)
Lemma OpenBLAS_Int32_counterexample :
  let rt := newProvider 64 false in
  functionType (_module (GetOpenBLASGetNumThreadsFunction rt).2)
    (GetOpenBLASGetNumThreadsFunction rt).1
  <> Some (FunctionType_get getInt32Ty [] false)
  /\ functionType (_module (GetOpenBLASSetNumThreadsFunction rt).2)
       (GetOpenBLASSetNumThreadsFunction rt).1
     <> Some (FunctionType_get getVoidTy [getInt32Ty] false).
Proof. split; vm_compute; discriminate. Qed.

(** ** The dot product functions *)

Section DotProduct.
Implicit Types (rt : IRRuntime).

(** A getter that authors at each call: what two calls in a row do. *)
Variable getter : State IRRuntime LLVMFunction.
Variable operationName : string.
Hypothesis getter_run : forall rt,
  let symbol :=
    uniqueName (_module rt) (moduleName (_module rt) +:+ "_" +:+ operationName) in
  exists module',
    defines (_module rt) symbol DotProductBody module'
    /\ getter rt = (Some symbol, set_module module' rt).

End DotProduct.


(** The two calls on a new provider for an empty module [model]: the second
    function is a second definition, under a symbol of its own. *)
Example GetDotProductFloatFunction_twice_model :
  let '(first, rt1) := GetDotProductFloatFunction (newProvider 64 false) in
  let '(second, rt2) := GetDotProductFloatFunction rt1 in
  first = Some "model_DotProductFloat"
  /\ second = Some "model_DotProductFloat0"
  /\ authoredBodies (_module rt1) = 1%nat
  /\ authoredBodies (_module rt2) = 2%nat.
Proof. vm_compute. done. Qed.

(** * Properties of the generated timing code *)

Section TimingFacts.
Context {double : Type} `{DoubleOps double}.
Variable CLOCK_REALTIME : Z.

(** One run of the body of [GetTime], for any clock-read function. *)
Lemma GetTimeFunction_run timespecType getTimeFunction (clock : Callee) st :
  let tp := Local "tp" in
  let called :=
    {| cells := cells st;
       trace := trace st
                ++ [AllocaEvent "tp" (NamedStructTy (structName timespecType));
                    CallEvent getTimeFunction [IntArg CLOCK_REALTIME; PtrArg tp]] |} in
  let after := (clock [IntArg CLOCK_REALTIME; PtrArg tp] called).2 in
  GetTimeFunction CLOCK_REALTIME timespecType getTimeFunction clock st
  = (fmul
       (fadd
          (sitofp (cells after (Field tp 0)))
          (fdiv
             (sitofp (cells after (Field tp 1)
                      `mod` 2 ^ Z.of_N (integerBits (getElementType timespecType 1))))
             (fconst 1000000000)))
       (fconst 1000),
     after).
Proof.
  unfold GetTimeFunction, AllocaVariable, Call, record, LoadCell, CastIntToFloat,
    Operator, CreateInBoundsGEP.
  run_state. rewrite <- app_assoc. simpl.
  destruct (clock _ _) as [callResult after]. reflexivity.
Qed.

(** One run of the body of the Windows [clock_gettime], for Win32 functions
    that write the counter and the frequency. *)
Lemma clock_gettime_windows_run tmFieldVarType qpcFunction qpfFunction
    (qpc qpf : Callee) counter frequency clk_id timeSpecArg st :
  writesValue counter qpc ->
  writesValue frequency qpf ->
  let seconds := fdiv (sitofp counter) (sitofp frequency) in
  let floatSeconds := sitofp (fptosi 64 seconds) in
  let bits := integerBits (Type_ tmFieldVarType) in
  clock_gettime_windows tmFieldVarType qpcFunction qpfFunction qpc qpf clk_id timeSpecArg st
  = (0,
     {| cells :=
          <[Field timeSpecArg 0 := fptosi bits floatSeconds]>
            (<[Field timeSpecArg 1 :=
                 fptosi bits (fmul (fsub seconds floatSeconds) (fconst 10000000))]>
               (<[Local "freq" := frequency]>
                  (<[Local "time" := counter]> (cells st))));
        trace :=
          trace st
          ++ [AllocaEvent "time" (IntegerTy 64);
              AllocaEvent "freq" (IntegerTy 64);
              CallEvent qpcFunction [PtrArg (Local "time")];
              CallEvent qpfFunction [PtrArg (Local "freq")]] |}).
Proof.
  intros Hqpc Hqpf seconds floatSeconds bits.
  unfold clock_gettime_windows, AllocaVariable, Call, record, LoadCell, StoreCell,
    CastIntToFloat, CastFloatToInt, Operator, CreateInBoundsGEP.
  run_state.
  destruct (Hqpc (Local "time")
    {| cells := cells st;
       trace := ((trace st ++ [AllocaEvent "time" getInt64Ty])
                 ++ [AllocaEvent "freq" getInt64Ty])
                ++ [CallEvent qpcFunction [PtrArg (Local "time")]] |}) as [r1 ->].
  simpl.
  destruct (Hqpf (Local "freq")
    {| cells := <[Local "time" := counter]> (cells st);
       trace := (((trace st ++ [AllocaEvent "time" getInt64Ty])
                  ++ [AllocaEvent "freq" getInt64Ty])
                 ++ [CallEvent qpcFunction [PtrArg (Local "time")]])
                ++ [CallEvent qpfFunction [PtrArg (Local "freq")]] |}) as [r2 ->].
  simpl.
  rewrite fn_lookup_insert.
  rewrite fn_lookup_insert_ne by done. rewrite fn_lookup_insert.
  rewrite <- !app_assoc. reflexivity.
Qed.
End TimingFacts.

Section TimingClaims.
Context {double : Type} `{DoubleOps double}.
Variable CLOCK_REALTIME : Z.
Variable externals : string -> Callee.

(** What [ResolveCurrentTimeFunction] leaves in the module of a Windows
    target. *)
Lemma windows_module_after_resolve timespecType rt :
  IsWindows (targetDevice (compilerOptions (_module rt))) = true ->
  let tmFieldVarType :=
    if decide (getElementType timespecType 0 = getInt64Ty) then Int64 else Int32 in
  exists symbol,
    (ResolveCurrentTimeFunction timespecType rt).1 = Some symbol
    /\ functionType (_module (ResolveCurrentTimeFunction timespecType rt).2) (Some symbol)
       = Some (gettimeType timespecType)
    /\ functionBody (_module (ResolveCurrentTimeFunction timespecType rt).2) (Some symbol)
       = Some (ClockGettimeBody tmFieldVarType
                 (Some "QueryPerformanceCounter") (Some "QueryPerformanceFrequency"))
    /\ (getFunction (_module rt) "QueryPerformanceCounter" = None ->
        functions (_module (ResolveCurrentTimeFunction timespecType rt).2)
          !! "QueryPerformanceCounter" = Some (declaration qpcProto))
    /\ (getFunction (_module rt) "QueryPerformanceFrequency" = None ->
        functions (_module (ResolveCurrentTimeFunction timespecType rt).2)
          !! "QueryPerformanceFrequency" = Some (declaration qpcProto)).
Proof.
  intros Hwindows tmFieldVarType.
  unfold ResolveCurrentTimeFunction, GetCompilerOptions. run_state.
  rewrite Hwindows.
  unfold BeginFunctionLLVM, EmitBody, EndFunction, GetFunction, DeclareFunction.
  run_state.
  pose proof (getOrInsertFunction_declared "QueryPerformanceCounter" qpcProto
                (_module rt)) as Hqpc.
  pose proof (getOrInsertFunction_new "QueryPerformanceCounter" qpcProto
                (_module rt)) as Hqpc_new.
  pose proof (getOrInsertFunction_old "QueryPerformanceCounter" qpcProto
                (_module rt)) as Hqpc_old.
  destruct (getOrInsertFunction "QueryPerformanceCounter" qpcProto (_module rt))
    as [f1 module1]. simpl in *.
  pose proof (getOrInsertFunction_keeps "QueryPerformanceFrequency" qpcProto
                module1 _ Hqpc) as Hqpc'.
  pose proof (getOrInsertFunction_declared "QueryPerformanceFrequency" qpcProto
                module1) as Hqpf.
  pose proof (getOrInsertFunction_new "QueryPerformanceFrequency" qpcProto
                module1) as Hqpf_new.
  pose proof (getOrInsertFunction_old "QueryPerformanceFrequency" qpcProto
                module1) as Hqpf_old.
  destruct (getOrInsertFunction "QueryPerformanceFrequency" qpcProto module1)
    as [f2 module2]. simpl in *.
  pose proof (uniqueName_fresh module2 "clock_gettime") as Hfresh.
  set (symbol := uniqueName module2 "clock_gettime") in *.
  assert (symbol <> "QueryPerformanceCounter") as Hne1.
  { intros Heq. rewrite Heq in Hfresh. rewrite Hfresh in Hqpc'. by destruct Hqpc'. }
  assert (symbol <> "QueryPerformanceFrequency") as Hne2.
  { intros Heq. rewrite Heq in Hfresh. rewrite Hfresh in Hqpf. by destruct Hqpf. }
  exists symbol. split; [done|].
  unfold functionType, functionBody, getFunction. simpl.
  rewrite !lookup_alter_eq, !lookup_insert_eq. simpl.
  destruct Hqpc' as [d1 ->]. destruct Hqpf as [d2 Hd2]. rewrite Hd2.
  split; [done|]. split; [done|].
  rewrite !lookup_alter_ne, !lookup_insert_ne by done.
  split.
  - intros Hfree%getFunction_None. specialize (Hqpc_new Hfree).
    destruct (functions module1 !! "QueryPerformanceFrequency") eqn:E.
    + rewrite Hqpf_old by eauto. rewrite Hqpc_new. by rewrite lookup_insert_eq.
    + rewrite Hqpf_new by done. rewrite lookup_insert_ne by done.
      rewrite Hqpc_new. by rewrite lookup_insert_eq.
  - intros Hfree%getFunction_None.
    assert (functions module1 !! "QueryPerformanceFrequency" = None) as Hfree1.
    { destruct (functions (_module rt) !! "QueryPerformanceCounter") eqn:E.
      - by rewrite Hqpc_old by eauto.
      - rewrite Hqpc_new by done. by rewrite lookup_insert_ne. }
    rewrite Hqpf_new by done. by rewrite lookup_insert_eq.
Qed.

(** C6, amended: on a Windows target, [ResolveCurrentTimeFunction] declares
    the two Win32 performance-counter functions, each with one parameter, a
    pointer to a 64-bit integer, and writes a function of the signature
    [(Int32, pointer to timespec) -> Int32], the prototype of [clock_gettime]
    that [GetCurrentTimeFunction] declares.  When the Win32 functions write
    the counter and the frequency to the location they are given, a call of
    the written function allocates two 64-bit variables, calls
    [QueryPerformanceCounter] and [QueryPerformanceFrequency] with one
    argument each, the address of one of the variables, converts counter and
    frequency to floating point, takes [seconds = counter / frequency],
    truncates it to whole seconds, stores the fractional remainder scaled by
    10,000,000 in the second member of the caller's struct and the whole
    seconds in its first member, and returns zero. *)
Theorem ResolveCurrentTimeFunction_windows (timespecType : StructType)
    (rt : IRRuntime) (counter frequency clk_id : Z) (tp : Location) (st : Machine) :
  IsWindows (targetDevice (compilerOptions (_module rt))) = true ->
  writesValue counter (externals "QueryPerformanceCounter") ->
  writesValue frequency (externals "QueryPerformanceFrequency") ->
  let '(function, rt') := ResolveCurrentTimeFunction timespecType rt in
  let bits :=
    if decide (getElementType timespecType 0 = IntegerTy 64) then 64%N else 32%N in
  let seconds := fdiv (sitofp counter) (sitofp frequency) in
  let wholeSeconds := sitofp (fptosi 64 seconds) in
  exists symbol,
    function = Some symbol
    /\ functionType (_module rt') function = Some (gettimeType timespecType)
    /\ paramTypes qpcProto = [PointerTy (IntegerTy 64)]
    /\ (getFunction (_module rt) "QueryPerformanceCounter" = None ->
        functions (_module rt') !! "QueryPerformanceCounter" = Some (declaration qpcProto))
    /\ (getFunction (_module rt) "QueryPerformanceFrequency" = None ->
        functions (_module rt') !! "QueryPerformanceFrequency" = Some (declaration qpcProto))
    /\ let '(result, st') :=
         clockBehaviour externals (_module rt') symbol [IntArg clk_id; PtrArg tp] st in
       result = 0
       /\ cells st' (Field tp 0) = fptosi bits wholeSeconds
       /\ cells st' (Field tp 1)
          = fptosi bits (fmul (fsub seconds wholeSeconds) (fconst 10000000))
       /\ trace st'
          = (trace st
             ++ [AllocaEvent "time" (IntegerTy 64);
                 AllocaEvent "freq" (IntegerTy 64);
                 CallEvent "QueryPerformanceCounter" [PtrArg (Local "time")];
                 CallEvent "QueryPerformanceFrequency" [PtrArg (Local "freq")]])%list.
Proof.
  intros Hwindows Hqpc Hqpf.
  destruct (windows_module_after_resolve timespecType rt Hwindows)
    as (symbol & Hfunction & Htype & Hbody & Hdecl1 & Hdecl2).
  destruct (ResolveCurrentTimeFunction timespecType rt) as [function rt'].
  cbn [fst snd] in *. subst function. exists symbol.
  split; [done|]. split; [done|]. split; [done|]. split; [done|]. split; [done|].
  unfold clockBehaviour. rewrite Hbody.
  rewrite (clock_gettime_windows_run _ _ _ _ _ counter frequency) by done.
  simpl. split; [done|].
  rewrite fn_lookup_insert, fn_lookup_insert_ne, fn_lookup_insert by done.
  unfold getInt64Ty. by destruct (decide (getElementType timespecType 0 = IntegerTy 64)).
Qed.

(** The steps of [GetTime], on every target: the function that
    [GetCurrentTimeFunction] writes at its first call is the body of
    [GetTime]; a call of it allocates a time struct on its stack, calls the
    clock-read function that was resolved with the realtime-clock id and the
    address of the struct, loads the two members of the struct, converts both
    to floating point, and returns [(first + second / 1e9) * 1000] of the two
    members.  Whether that is the current time in milliseconds depends on
    what the clock-read function has stored in the second member. *)
Theorem GetCurrentTimeFunction_milliseconds (rt : IRRuntime) (st : Machine) :
  _pGetCurrentTimeFunction rt = None ->
  let '(answer, rt') := GetCurrentTimeFunction rt in
  let timespecType := _posixRuntime rt in
  exists f clock run,
    answer = inr (Some f)
    /\ (ResolveCurrentTimeFunction timespecType (declared rt)).1 = Some clock
    /\ runGetTime CLOCK_REALTIME externals (_module rt') (Some f) = Some run
    /\ let tp := Local "tp" in
       let called :=
         {| cells := cells st;
            trace := trace st
                     ++ [AllocaEvent "tp" (NamedStructTy (structName timespecType));
                         CallEvent clock [IntArg CLOCK_REALTIME; PtrArg tp]] |} in
       let after :=
         (clockBehaviour externals (_module rt') clock
            [IntArg CLOCK_REALTIME; PtrArg tp] called).2 in
       let seconds := sitofp (cells after (Field tp 0)) in
       let nanoseconds :=
         sitofp (cells after (Field tp 1)
                 `mod` 2 ^ Z.of_N (integerBits (getElementType timespecType 1))) in
       run st
       = (fmul (fadd seconds (fdiv nanoseconds (fconst 1000000000))) (fconst 1000),
          after).
Proof.
  intros Hc. unfold GetCurrentTimeFunction.
  destruct (ResolveCurrentTimeFunction_resolves (_posixRuntime rt) (declared rt))
    as [clock Hclock].
  destruct (GetCurrentTimeFunctionWith_authors _ _ _ Hc Hclock) as (module' & Hdef & ->).
  simpl. eexists _, clock, _. split; [done|]. split; [done|].
  unfold runGetTime. rewrite (defines_lookup _ _ _ _ Hdef).
  split; [done|]. apply GetTimeFunction_run.
Qed.
End TimingClaims.

(** C6, amended, on a machine whose counter reads 123456789 at a frequency
    of 10000000 per second, with exact arithmetic: the replacement written for
    a 64-bit Windows target stores 12 whole seconds and the remainder
    0.3456789 scaled by 10,000,000, and returns zero. *)
Lemma ResolveCurrentTimeFunction_windows_witness :
  let '(function, rt') := ResolveCurrentTimeFunction (timespec 64) (newProvider 64 true) in
  exists symbol,
    function = Some symbol
    /\ let '(result, st') :=
         clockBehaviour (double := Q) (win32 123456789 10000000) (_module rt') symbol
           [IntArg 0; PtrArg (Local "tp")] idle in
       result = 0
       /\ cells st' (Field (Local "tp") 0) = 12
       /\ cells st' (Field (Local "tp") 1) = 3456789.
Proof.
  pose proof (ResolveCurrentTimeFunction_windows (double := Q)
    (win32 123456789 10000000) (timespec 64) (newProvider 64 true)
    123456789 10000000 0 (Local "tp") idle eq_refl) as Hrun.
  destruct (ResolveCurrentTimeFunction (timespec 64) (newProvider 64 true))
    as [function rt'].
  destruct Hrun as (symbol & Hsymbol & _ & _ & _ & _ & Hcall).
  - intros pointer st. eexists. reflexivity.
  - intros pointer st. eexists. reflexivity.
  - exists symbol. split; [exact Hsymbol|].
    destruct (clockBehaviour _ _ _ _ _) as [result st'].
    destruct Hcall as (Hresult & Hseconds & Hremainder & _).
    split; [exact Hresult|]. split.
    + rewrite Hseconds. vm_compute. reflexivity.
    + rewrite Hremainder. vm_compute. reflexivity.
Defined.

(** C6 as stated fails on the number of arguments: in a call of the
    replacement written for a 64-bit Windows target, [QueryPerformanceCounter]
    and [QueryPerformanceFrequency] are each called once, with one argument,
    and the module declares each of them with one parameter; so the two
    external calls are not calls with two arguments. *)
Lemma performance_counter_calls_one_argument :
  let rt' := (ResolveCurrentTimeFunction (timespec 64) (newProvider 64 true)).2 in
  let st' :=
    (clockBehaviour (double := Q) (win32 123456789 10000000) (_module rt') "clock_gettime"
       [IntArg 0; PtrArg (Local "tp")] idle).2 in
  let arities :=
    (callArities "QueryPerformanceCounter" (trace st')
     ++ callArities "QueryPerformanceFrequency" (trace st'))%list in
  arities = [1%nat; 1%nat]
  /\ ~ Forall (fun arity => arity = 2%nat) arities
  /\ (paramTypes <$> functionType (_module rt') (Some "QueryPerformanceCounter"))
     = Some [PointerTy (IntegerTy 64)]
  /\ (paramTypes <$> functionType (_module rt') (Some "QueryPerformanceFrequency"))
     = Some [PointerTy (IntegerTy 64)].
Proof.
  vm_compute. split; [reflexivity|]. split; [|split; reflexivity].
  intros Hall. inversion Hall as [|? ? Hone _]. discriminate Hone.
Qed.

(** On a POSIX target whose clock reads 12 seconds and 500000000
    nanoseconds, with exact arithmetic, [GetTime] returns 12500
    milliseconds. *)
Lemma GetCurrentTimeFunction_milliseconds_witness :
  let '(answer, rt') := GetCurrentTimeFunction (newProvider 64 false) in
  exists f run,
    answer = inr (Some f)
    /\ runGetTime (double := Q) 0 (posix 12 500000000) (_module rt') (Some f) = Some run
    /\ ((run idle).1 == 12500)%Q.
Proof.
  pose proof (GetCurrentTimeFunction_milliseconds (double := Q) 0 (posix 12 500000000)
    (newProvider 64 false) idle eq_refl) as Hrun.
  destruct (GetCurrentTimeFunction (newProvider 64 false)) as [answer rt'] eqn:Hcall.
  vm_compute in Hcall. injection Hcall as <- <-.
  destruct Hrun as (f & clock & run & Hanswer & Hclock & Hbody & Hvalue).
  vm_compute in Hclock. injection Hclock as <-.
  exists f, run. split; [exact Hanswer|]. split; [exact Hbody|].
  rewrite Hvalue. vm_compute. reflexivity.
Defined.

(** * Properties of the fallback kernels *)

Section KernelFacts.
Context {V : Type} `{ValueOps V}.
Implicit Types (mem : Memory V) (h : Z -> V).

Lemma fold_left_ext {A B} (f g : A -> B -> A) (l : list B) (a : A) :
  (forall a b, f a b = g a b) -> fold_left f l a = fold_left g l a.
Proof. intros Hfg. revert a. induction l as [|b l IH]; intros a; simpl; [done|]. by rewrite Hfg, IH. Qed.

(** A loop is the fold of its body over the indices, in increasing order. *)
Lemma ForLoop_fold (body : Z -> Emit V unit) iterations index mem :
  (ForLoop iterations index body mem).2
  = fold_left (fun mem i => (body i mem).2) (seqZ index (Z.of_nat iterations)) mem.
Proof.
  revert index mem. induction iterations as [|iterations IH]; intros index mem.
  - reflexivity.
  - rewrite seqZ_cons by lia. cbn [ForLoop fold_left]. run_state.
    destruct (body index mem) as [[] mem']. simpl.
    rewrite IH. f_equal. f_equal; lia.
Qed.

Lemma For_fold (body : Z -> Emit V unit) count mem :
  (For count body mem).2 = fold_left (fun mem i => (body i mem).2) (seqZ 0 count) mem.
Proof. unfold For. rewrite ForLoop_fold. unfold seqZ. by rewrite Nat2Z.id. Qed.

(** A loop whose body changes the heap by [step], whatever the stack holds. *)
Lemma fold_heap (body : Z -> Emit V unit) (step : Z -> (Z -> V) -> Z -> V) indices mem :
  (forall i mem, heap (body i mem).2 = step i (heap mem)) ->
  heap (fold_left (fun mem i => (body i mem).2) indices mem)
  = fold_left (fun h i => step i h) indices (heap mem).
Proof.
  intros Hstep. revert mem. induction indices as [|i indices IH]; intros mem; simpl; [done|].
  by rewrite IH, Hstep.
Qed.

Lemma For_heap (body : Z -> Emit V unit) (step : Z -> (Z -> V) -> Z -> V) count mem :
  (forall i mem, heap (body i mem).2 = step i (heap mem)) ->
  heap (For count body mem).2 = fold_left (fun h i => step i h) (seqZ 0 count) (heap mem).
Proof. intros Hstep. rewrite For_fold. by apply fold_heap. Qed.

(** *** GEMV *)

(** The inner loop of GEMV leaves the heap as it is and adds the products of
    the row to the accumulator, from left to right. *)
Lemma GEMV_columns (A lda x incx rowIndex : Z) indices mem :
  let body := fun columnIndex : Z =>
    (aVal ← ArrayLoad A ((rowIndex * lda) + columnIndex)%i32;
     xVal ← ArrayLoad x (columnIndex * incx)%i32;
     sum ← Load "accum";
     Store "accum" (vadd sum (vmul aVal xVal))) : Emit V unit in
  let mem' := fold_left (fun mem j => (body j mem).2) indices mem in
  heap mem' = heap mem
  /\ stack mem' "accum"
     = fold_left
         (fun accum j =>
            vadd accum (vmul (heap mem (A + (rowIndex * lda + j)%i32))
                             (heap mem (x + (j * incx)%i32))))
         indices (stack mem "accum").
Proof.
  intros body. revert mem. induction indices as [|j indices IH]; intros mem; [done|].
  cbn [fold_left]. destruct (IH (body j mem).2) as [Hheap Hstack].
  rewrite Hheap, Hstack. subst body. unfold ArrayLoad, Load, Store. run_state.
  rewrite fn_lookup_insert. done.
Qed.

(** One row of GEMV stores the accumulated row at [y[rowIndex * incy]]. *)
Lemma GEMV_row (n A lda x incx y incy rowIndex : Z) mem :
  let body := fun rowIndex : Z =>
    (StoreZero "accum";;
     For n (fun columnIndex =>
       aVal ← ArrayLoad A ((rowIndex * lda) + columnIndex)%i32;
       xVal ← ArrayLoad x (columnIndex * incx)%i32;
       sum ← Load "accum";
       Store "accum" (vadd sum (vmul aVal xVal)));;
     sum ← Load "accum";
     ArrayStore y (rowIndex * incy)%i32 sum) : Emit V unit in
  heap (body rowIndex mem).2
  = <[y + (rowIndex * incy)%i32 := gemv_row n A lda x incx (heap mem) rowIndex]> (heap mem).
Proof.
  intros body. subst body. unfold StoreZero, Store at 1. run_state.
  set (zeroed := {| heap := heap mem; stack := <["accum" := vzero]> (stack mem) |}).
  pose proof (For_fold (fun columnIndex =>
       aVal ← ArrayLoad A ((rowIndex * lda) + columnIndex)%i32;
       xVal ← ArrayLoad x (columnIndex * incx)%i32;
       sum ← Load "accum";
       Store "accum" (vadd sum (vmul aVal xVal))) n zeroed) as Hloop.
  destruct (GEMV_columns A lda x incx rowIndex (seqZ 0 n) zeroed) as [Hheap Hstack].
  run_state. rewrite <- Hloop in Hheap, Hstack.
  destruct (For n _ zeroed) as [[] mem']. unfold Load, ArrayStore. run_state.
  rewrite Hheap, Hstack. subst zeroed. simpl. rewrite fn_lookup_insert. reflexivity.
Qed.

(** The heap that GEMV leaves. *)
Lemma GEMVFunction_heap (order transpose m n : Z) (alpha : V) (A lda x incx : Z)
    (beta : V) (y incy : Z) mem :
  heap (GEMVFunction order transpose m n alpha A lda x incx beta y incy mem).2
  = gemv_spec m n A lda x incx y incy (heap mem).
Proof.
  unfold GEMVFunction, Variable_. run_state.
  pose proof (For_heap (fun rowIndex =>
    StoreZero "accum";;
    For n (fun columnIndex =>
      aVal ← ArrayLoad A ((rowIndex * lda) + columnIndex)%i32;
      xVal ← ArrayLoad x (columnIndex * incx)%i32;
      sum ← Load "accum";
      Store "accum" (vadd sum (vmul aVal xVal)));;
    sum ← Load "accum";
    ArrayStore y (rowIndex * incy)%i32 sum)
    (fun i h => <[y + (i * incy)%i32 := gemv_row n A lda x incx h i]> h)
    m mem) as Hrows.
  run_state. destruct (For m _ mem) as [[] mem']. simpl in *.
  rewrite Hrows; [done|].
  intros i mem0. by apply (GEMV_row n A lda x incx y incy i mem0).
Qed.

(** C3: for [m, n >= 0], the GEMV fallback kernel returns the status zero
    and leaves in memory what the row-by-row computation leaves: for each row
    index [i] of [0, m), in increasing order, an accumulator that starts at
    zero, accumulates [A[i*lda + j] * x[j*incx]] over the column indices [j] of
    [0, n), in increasing order, and is then stored to [y[i*incy]].  The
    [order], [transpose], [alpha] and [beta] arguments change nothing: the
    kernel does the same with any other values for them. *)
Theorem GEMV_fallback (order transpose m n : Z) (alpha : V) (A lda x incx : Z)
    (beta : V) (y incy : Z) (mem : Memory V) :
  0 <= m -> 0 <= n ->
  let run := GEMVFunction order transpose m n alpha A lda x incx beta y incy mem in
  run.1 = 0
  /\ heap run.2 = gemv_spec m n A lda x incx y incy (heap mem)
  /\ forall order' transpose' alpha' beta',
       GEMVFunction order' transpose' m n alpha' A lda x incx beta' y incy mem = run.
Proof.
  intros Hm Hn run. subst run. split; [|split; [|reflexivity]].
  - unfold GEMVFunction, Variable_. run_state. by destruct (For m _ mem).
  - apply GEMVFunction_heap.
Qed.

(** *** GEMM *)

(** The innermost step of GEMM. *)
Lemma GEMM_step (transposeA transposeB : bool) (A lda B ldb C ldc i k j : Z) mem :
  let body :=
    (let aOffset := Select transposeA ((k * lda) + i)%i32 ((i * lda) + k)%i32 in
     let bOffset := Select transposeB ((j * ldb) + k)%i32 ((k * ldb) + j)%i32 in
     let cOffset := ((i * ldc) + j)%i32 in
     cVal ← ArrayLoad C cOffset;
     aVal ← ArrayLoad A aOffset;
     bVal ← ArrayLoad B bOffset;
     ArrayStore C cOffset (vadd cVal (vmul aVal bVal))) : Emit V unit in
  heap (body mem).2
  = gemm_accumulate transposeA transposeB A lda B ldb C ldc i k j (heap mem).
Proof. by destruct transposeA, transposeB. Qed.

(** [MemorySet] with the byte zero clears the elements one after the other. *)
Lemma MemorySet_zero (pointer count : Z) mem :
  heap (MemorySet pointer 0 0 count mem).2
  = fold_left (fun h e => <[pointer + e := vzero]> h) (seqZ 0 count) (heap mem).
Proof.
  unfold MemorySet.
  rewrite (For_heap _ (fun e h => <[pointer + e := vzero]> h)) by
    (intros i mem0; unfold ArrayStore; run_state; by rewrite vfill_zero).
  done.
Qed.

(** The heap that GEMM leaves. *)
Lemma GEMMFunction_heap (order transA transB m n k : Z) (alpha : V)
    (A lda B ldb : Z) (beta : V) (C ldc : Z) mem :
  heap (GEMMFunction order transA transB m n k alpha A lda B ldb beta C ldc mem).2
  = gemm_spec (bool_decide (transA = 112)) (bool_decide (transB = 112))
      m n k A lda B ldb C ldc (heap mem).
Proof.
  set (transposeA := bool_decide (transA = 112)).
  set (transposeB := bool_decide (transB = 112)).
  unfold GEMMFunction. run_state. fold transposeA transposeB.
  pose proof (MemorySet_zero C (ldc * m)%i32 mem) as Hclear.
  destruct (MemorySet C 0 0 (ldc * m)%i32 mem) as [[] mem1]. simpl in Hclear.
  unfold gemm_spec, gemm_clear.
  replace (m * ldc)%i32 with (ldc * m)%i32 in * by (unfold mul32; f_equal; lia).
  rewrite <- Hclear. clear Hclear.
  pose proof (For_heap (fun i =>
    For k (fun k =>
      For n (fun j =>
        let aOffset := Select transposeA ((k * lda) + i)%i32 ((i * lda) + k)%i32 in
        let bOffset := Select transposeB ((j * ldb) + k)%i32 ((k * ldb) + j)%i32 in
        let cOffset := ((i * ldc) + j)%i32 in
        cVal ← ArrayLoad C cOffset;
        aVal ← ArrayLoad A aOffset;
        bVal ← ArrayLoad B bOffset;
        ArrayStore C cOffset (vadd cVal (vmul aVal bVal)))))
    (fun i h =>
       fold_left (fun h k =>
         fold_left (fun h j =>
           gemm_accumulate transposeA transposeB A lda B ldb C ldc i k j h)
           (seqZ 0 n) h)
         (seqZ 0 k) h)
    m mem1) as Hrows.
  run_state. destruct (For m _ mem1) as [[] mem2]. simpl in *.
  apply Hrows. intros i mem0.
  apply (For_heap _ (fun k h =>
    fold_left (fun h j =>
      gemm_accumulate transposeA transposeB A lda B ldb C ldc i k j h)
      (seqZ 0 n) h)).
  intros k0 mem3.
  apply (For_heap _ (fun j h =>
    gemm_accumulate transposeA transposeB A lda B ldb C ldc i k0 j h)).
  intros j mem4. apply GEMM_step.
Qed.

(** C2: for [m, n, k >= 0], the GEMM fallback kernel returns the status zero
    and leaves in memory what this computation leaves: first the [m*ldc]
    elements of [C] are set to zero, then for [i] in [0, m), for [k] in
    [0, k_dim), for [j] in [0, n), in that nesting and each in increasing
    order, [A[aOffset] * B[bOffset]] is added to [C[i*ldc + j]], where
    [aOffset] is [k*lda + i] when [transposeA] and [i*lda + k] otherwise, and
    [bOffset] is [j*ldb + k] when [transposeB] and [k*ldb + j] otherwise; a
    flag is set when the argument is [CblasTrans] (112), and each offset is
    the [Select] of the two computed candidates.  The [order], [alpha] and
    [beta] arguments change nothing. *)
Theorem GEMM_fallback (order transA transB m n k : Z) (alpha : V)
    (A lda B ldb : Z) (beta : V) (C ldc : Z) (mem : Memory V) :
  0 <= m -> 0 <= n -> 0 <= k ->
  let transposeA := bool_decide (transA = 112) in
  let transposeB := bool_decide (transB = 112) in
  let run := GEMMFunction order transA transB m n k alpha A lda B ldb beta C ldc mem in
  run.1 = 0
  /\ heap run.2 = gemm_spec transposeA transposeB m n k A lda B ldb C ldc (heap mem)
  /\ (forall i k j,
        gemm_aOffset transposeA lda i k
          = Select transposeA (k * lda + i)%i32 (i * lda + k)%i32
        /\ gemm_bOffset transposeB ldb k j
          = Select transposeB (j * ldb + k)%i32 (k * ldb + j)%i32)
  /\ forall order' alpha' beta',
       GEMMFunction order' transA transB m n k alpha' A lda B ldb beta' C ldc mem = run.
Proof.
  intros Hm Hn Hk transposeA transposeB run. subst run.
  split; [|split; [|split; [done | reflexivity]]].
  - unfold GEMMFunction. run_state.
    destruct (MemorySet _ _ _ _ mem) as [[] mem1]. by destruct (For m _ mem1).
  - apply GEMMFunction_heap.
Qed.
End KernelFacts.

(** C3 on integers: with [A = [[1, 2], [3, 4]]] at address 0, [x = [11, 12]] at
    address 10 and [y] at address 20, the kernel stores [A x = [35, 81]],
    whatever [alpha] and [beta] are (here 5). *)
Lemma GEMV_fallback_witness :
  let mem := {| heap := fun a => a + 1; stack := fun _ => 7 |} in
  let run := GEMVFunction (V := Z) 101 111 2 2 5 0 2 10 1 5 20 1 mem in
  run.1 = 0 /\ heap run.2 20 = 35 /\ heap run.2 21 = 81.
Proof.
  intros mem run.
  destruct (GEMV_fallback (V := Z) 101 111 2 2 5 0 2 10 1 5 20 1 mem)
    as (Hstatus & Hheap & _); [lia | lia |].
  fold run in Hstatus, Hheap. split; [exact Hstatus|].
  rewrite Hheap. split; vm_compute; reflexivity.
Defined.

(** C2 on integers: with [A = [[1, 2], [3, 4]]] at address 0,
    [B = [[11, 12], [13, 14]]] at address 10 and [C] at address 20, the kernel
    with [transposeA] set stores the product of the transpose of [A] and [B],
    [[50, 54], [74, 80]], whatever [alpha] and [beta] are (here 5). *)
Lemma GEMM_fallback_witness :
  let mem := {| heap := fun a => a + 1; stack := fun _ => 7 |} in
  let run := GEMMFunction (V := Z) 101 112 111 2 2 2 5 0 2 10 2 5 20 2 mem in
  run.1 = 0
  /\ (heap run.2 20, heap run.2 21, heap run.2 22, heap run.2 23) = (50, 54, 74, 80).
Proof.
  intros mem run.
  destruct (GEMM_fallback (V := Z) 101 112 111 2 2 2 5 0 2 10 2 5 20 2 mem)
    as (Hstatus & Hheap & _); [lia | lia | lia |].
  fold run in Hstatus, Hheap. split; [exact Hstatus|].
  rewrite Hheap. vm_compute. reflexivity.
Defined.

(** ** The product that GEMV computes *)

Section KernelProducts.
Context {V : Type} `{ValueOps V}.
Implicit Types (mem : Memory V) (h : Z -> V).

(** An [Int32] expression whose value fits is exact. *)
Lemma wrap32_exact z : - 2 ^ 31 <= z < 2 ^ 31 -> wrap32 z = z.
Proof. intros Hz. unfold wrap32. rewrite Z.mod_small by lia. lia. Qed.

Lemma fold_left_ext_in {A B} (f g : A -> B -> A) (l : list B) (a : A) :
  (forall a b, b ∈ l -> f a b = g a b) -> fold_left f l a = fold_left g l a.
Proof.
  revert a. induction l as [|b l IH]; intros a Hfg; simpl; [done|].
  rewrite Hfg by left. apply IH. intros a' b' Hb'. apply Hfg. by right.
Qed.

(** The accumulated row reads the heap at the elements of the row of [A] and
    at the elements of [x] only. *)
Lemma gemv_row_ext n A lda x incx h h' i :
  (forall j, 0 <= j < n ->
     h' (A + (i * lda + j)%i32) = h (A + (i * lda + j)%i32)
     /\ h' (x + (j * incx)%i32) = h (x + (j * incx)%i32)) ->
  gemv_row n A lda x incx h' i = gemv_row n A lda x incx h i.
Proof.
  intros Hsame. unfold gemv_row. apply fold_left_ext_in.
  intros accum j Hj%elem_of_seqZ.
  destruct (Hsame j) as [-> ->]; [lia | done].
Qed.

(** When the rows of the result are stored at different places, none of which
    is an element of [A] or of [x] that the kernel reads, the kernel leaves at
    [y[i*incy]] the product of row [i] of [A] with [x], taken on the memory it
    started from, and changes no other place. *)
Lemma gemv_spec_product m n A lda x incx y incy h :
  (forall i i', 0 <= i < i' -> i' < m -> (i * incy)%i32 <> (i' * incy)%i32) ->
  (forall i i' j, 0 <= i < m -> 0 <= i' < m -> 0 <= j < n ->
     y + (i * incy)%i32 <> A + (i' * lda + j)%i32) ->
  (forall i j, 0 <= i < m -> 0 <= j < n ->
     y + (i * incy)%i32 <> x + (j * incx)%i32) ->
  (forall i, 0 <= i < m ->
     gemv_spec m n A lda x incx y incy h (y + (i * incy)%i32)
     = gemv_row n A lda x incx h i)
  /\ (forall a, (forall i, 0 <= i < m -> a <> y + (i * incy)%i32) ->
        gemv_spec m n A lda x incx y incy h a = h a).
Proof.
  intros Hrows HA Hx.
  destruct (decide (0 <= m)) as [Hm|Hm]; cycle 1.
  { split; [intros; lia|]. intros a _. unfold gemv_spec. by rewrite seqZ_nil by lia. }
  assert (forall rows : nat, Z.of_nat rows <= m ->
    (forall i, 0 <= i < Z.of_nat rows ->
       gemv_spec (Z.of_nat rows) n A lda x incx y incy h (y + (i * incy)%i32)
       = gemv_row n A lda x incx h i)
    /\ (forall a, (forall i, 0 <= i < Z.of_nat rows -> a <> y + (i * incy)%i32) ->
          gemv_spec (Z.of_nat rows) n A lda x incx y incy h a = h a)) as Hprefix.
  { induction rows as [|rows IH]; intros Hle.
    - split; [intros; lia|]. intros a _. reflexivity.
    - destruct IH as [IHrow IHother]; [lia|].
      assert (gemv_row n A lda x incx
                (gemv_spec (Z.of_nat rows) n A lda x incx y incy h) (Z.of_nat rows)
              = gemv_row n A lda x incx h (Z.of_nat rows)) as Hrow.
      { apply gemv_row_ext. intros j Hj. split; apply IHother; intros i Hi.
        - apply not_eq_sym, HA; lia.
        - apply not_eq_sym, Hx; lia. }
      unfold gemv_spec in *. rewrite seqZ_S, fold_left_app. cbn [fold_left].
      rewrite Z.add_0_l, Hrow. split.
      + intros i Hi. destruct (decide (i = Z.of_nat rows)) as [->|Hne].
        * by rewrite fn_lookup_insert.
        * rewrite fn_lookup_insert_ne; [apply IHrow; lia|].
          intros Heq. apply (Hrows i (Z.of_nat rows)); lia.
      + intros a Ha. rewrite fn_lookup_insert_ne; [apply IHother|].
        * intros i Hi. apply Ha. lia.
        * apply not_eq_sym, Ha. lia. }
  specialize (Hprefix (Z.to_nat m)). rewrite Z2Nat.id in Hprefix by done.
  apply Hprefix. lia.
Qed.

(** The same for the run of the kernel. *)
Lemma GEMVFunction_product (order transpose m n : Z) (alpha : V) (A lda x incx : Z)
    (beta : V) (y incy : Z) mem :
  (forall i i', 0 <= i < i' -> i' < m -> (i * incy)%i32 <> (i' * incy)%i32) ->
  (forall i i' j, 0 <= i < m -> 0 <= i' < m -> 0 <= j < n ->
     y + (i * incy)%i32 <> A + (i' * lda + j)%i32) ->
  (forall i j, 0 <= i < m -> 0 <= j < n ->
     y + (i * incy)%i32 <> x + (j * incx)%i32) ->
  forall i, 0 <= i < m ->
    heap (GEMVFunction order transpose m n alpha A lda x incx beta y incy mem).2
      (y + (i * incy)%i32)
    = fold_left
        (fun accum j =>
           vadd accum (vmul (heap mem (A + (i * lda + j)%i32))
                            (heap mem (x + (j * incx)%i32))))
        (seqZ 0 n) vzero.
Proof.
  intros Hrows HA Hx i Hi. rewrite GEMVFunction_heap.
  by apply gemv_spec_product.
Qed.
End KernelProducts.

(** ** The kernels of the module *)

Section KernelsOfTheModule.
Context {V : Type} `{ValueOps V}.
Implicit Types (rt : IRRuntime).

(** A call of the function that a request for a GEMV fallback kernel writes
    runs the body of [EmitGEMVFunction]. *)
Lemma GetGEMVFunction_kernel ValueType rt (call : KernelCall V) :
  let noblasName :=
    match ValueType with blas_float => "noblas_sgemv" | blas_double => "noblas_dgemv" end in
  getFunction (_module rt) noblasName = None ->
  let '(f, rt') := GetGEMVFunction ValueType false rt in
  f = Some noblasName
  /\ runKernel (_module rt') f call
     = match call with
       | GEMVCall order transpose m n alpha A lda x incx beta y incy =>
           Some (GEMVFunction order transpose m n alpha A lda x incx beta y incy)
       | GEMMCall _ _ _ _ _ _ _ _ _ _ _ _ _ _ => None
       end.
Proof.
  intros noblasName Hfree%getFunction_None. subst noblasName.
  destruct ValueType; cbn [GetGEMVFunction];
    unfold GetSGEMVFunction, GetDGEMVFunction.
  - destruct (GetBlasFunction_fallback_authored _ _ (EmitGEMVFunction_run Float)
      (gemvArgTypes Float FloatPointer) "cblas_sgemv" "noblas_sgemv" rt Hfree)
      as (module' & Hdef & ->).
    cbv beta iota. split; [done|]. unfold runKernel, set_module. cbn [_module].
    rewrite (defines_lookup _ _ _ _ Hdef). by destruct call.
  - destruct (GetBlasFunction_fallback_authored _ _ (EmitGEMVFunction_run Double)
      (gemvArgTypes Double DoublePointer) "cblas_dgemv" "noblas_dgemv" rt Hfree)
      as (module' & Hdef & ->).
    cbv beta iota. split; [done|]. unfold runKernel, set_module. cbn [_module].
    rewrite (defines_lookup _ _ _ _ Hdef). by destruct call.
Qed.

(** A call of the function that a request for a GEMM fallback kernel writes
    runs the body of [EmitGEMMFunction]. *)
Lemma GetGEMMFunction_kernel ValueType rt (call : KernelCall V) :
  let noblasName :=
    match ValueType with blas_float => "noblas_sgemm" | blas_double => "noblas_dgemm" end in
  getFunction (_module rt) noblasName = None ->
  let '(f, rt') := GetGEMMFunction ValueType false rt in
  f = Some noblasName
  /\ runKernel (_module rt') f call
     = match call with
       | GEMVCall _ _ _ _ _ _ _ _ _ _ _ _ => None
       | GEMMCall order transA transB m n k alpha A lda B ldb beta C ldc =>
           Some (GEMMFunction order transA transB m n k alpha A lda B ldb beta C ldc)
       end.
Proof.
  intros noblasName Hfree%getFunction_None. subst noblasName.
  destruct ValueType; cbn [GetGEMMFunction];
    unfold GetSGEMMFunction, GetDGEMMFunction.
  - destruct (GetBlasFunction_fallback_authored _ _ (EmitGEMMFunction_run Float)
      (gemmArgTypes Float FloatPointer) "cblas_sgemm" "noblas_sgemm" rt Hfree)
      as (module' & Hdef & ->).
    cbv beta iota. split; [done|]. unfold runKernel, set_module. cbn [_module].
    rewrite (defines_lookup _ _ _ _ Hdef). by destruct call.
  - destruct (GetBlasFunction_fallback_authored _ _ (EmitGEMMFunction_run Double)
      (gemmArgTypes Double DoublePointer) "cblas_dgemm" "noblas_dgemm" rt Hfree)
      as (module' & Hdef & ->).
    cbv beta iota. split; [done|]. unfold runKernel, set_module. cbn [_module].
    rewrite (defines_lookup _ _ _ _ Hdef). by destruct call.
Qed.
End KernelsOfTheModule.

(** ** The prototype of the POSIX clock-read function *)

(** On a target that is not Windows, the clock-read function that
    [GetCurrentTimeFunction] resolves is the external [clock_gettime], and
    when the module had no such function, its prototype is the one declared
    first, [(Int32, pointer to timespec) -> Int32]. *)
Lemma GetCurrentTimeFunction_posix_prototype (rt : IRRuntime) :
  IsWindows (targetDevice (compilerOptions (_module rt))) = false ->
  _pGetCurrentTimeFunction rt = None ->
  getFunction (_module rt) "clock_gettime" = None ->
  (ResolveCurrentTimeFunction (_posixRuntime rt) (declared rt)).1 = Some "clock_gettime"
  /\ functionType (_module (GetCurrentTimeFunction rt).2) (Some "clock_gettime")
     = Some (gettimeType (_posixRuntime rt)).
Proof.
  intros Hposix Hc Hfree%getFunction_None.
  assert (functions (_module (declared rt)) !! "clock_gettime"
          = Some (declaration (gettimeType (_posixRuntime rt)))) as Hdeclared.
  { unfold declared, DeclareFunction, getOrInsertFunction. run_state.
    rewrite Hfree. simpl. by rewrite lookup_insert_eq. }
  assert (IsWindows (targetDevice (compilerOptions (_module (declared rt)))) = false)
    as Hposix'.
  { unfold declared, DeclareFunction, getOrInsertFunction. run_state.
    by rewrite Hfree. }
  assert (ResolveCurrentTimeFunction (_posixRuntime rt) (declared rt)
          = (Some "clock_gettime", declared rt)) as Hresolve.
  { unfold ResolveCurrentTimeFunction, GetCompilerOptions, DeclareFunction,
      getOrInsertFunction, GetFunction, getFunction.
    run_state. rewrite Hposix'. simpl. rewrite Hdeclared. simpl. rewrite Hdeclared.
    by destruct (declared rt). }
  split; [by rewrite Hresolve|].
  unfold GetCurrentTimeFunction.
  pose proof (GetCurrentTimeFunctionWith_authors ResolveCurrentTimeFunction rt
    "clock_gettime" Hc) as Hauthors.
  rewrite Hresolve in Hauthors. destruct Hauthors as (module' & Hdef & ->); [done|].
  simpl. destruct Hdef as (def & _ & ->). unfold functionType. simpl.
  rewrite lookup_insert_ne.
  - by rewrite Hdeclared.
  - intros Heq.
    pose proof (uniqueName_fresh (_module (declared rt))
      (moduleName (_module (declared rt)) +:+ "_" +:+ getTimeFunctionName)) as Hfresh.
    rewrite Heq, Hdeclared in Hfresh. done.
Qed.

(** ** The product that GEMM computes *)

Section Frame.
Context {V : Type}.

(** A fold of steps on the heap, seen from one place [x]: when each step
    keeps the places [reads] as they are in [g0], and changes the value at [x]
    by a function of that value alone, so does the fold. *)
Lemma fold_frame {T} (reads : Z -> Prop) (g0 : Z -> V) (x : Z)
    (step : T -> (Z -> V) -> Z -> V) (change : T -> V -> V) (l : list T) :
  (forall t, t ∈ l -> forall g, (forall r, reads r -> g r = g0 r) ->
     (forall r, reads r -> step t g r = g0 r) /\ step t g x = change t (g x)) ->
  forall g, (forall r, reads r -> g r = g0 r) ->
    (forall r, reads r -> fold_left (fun g t => step t g) l g r = g0 r)
    /\ fold_left (fun g t => step t g) l g x = fold_left (fun v t => change t v) l (g x).
Proof.
  induction l as [|t l IH]; intros Hstep g Hg; [done|]. cbn [fold_left].
  destruct (Hstep t (list_elem_of_here _ _) g Hg) as [Hkeeps Hchange].
  rewrite <- Hchange. apply IH; [|done].
  intros t' Ht'. apply Hstep. by right.
Qed.

Lemma fold_left_unchanged {A B} (f : A -> B -> A) (l : list B) (a : A) :
  (forall a b, b ∈ l -> f a b = a) -> fold_left f l a = a.
Proof.
  revert a. induction l as [|b l IH]; intros a Hf; simpl; [done|].
  rewrite Hf by left. apply IH. intros a' b' Hb'. apply Hf. by right.
Qed.

(** A fold that acts at one index of the list only. *)
Lemma fold_left_once {A} (f : A -> A) (l : list Z) (z0 : Z) (a : A) :
  NoDup l -> z0 ∈ l ->
  fold_left (fun a z => if decide (z = z0) then f a else a) l a = f a.
Proof.
  revert a. induction l as [|z l IH]; intros a Hnodup Hin; [by apply elem_of_nil in Hin|].
  apply NoDup_cons in Hnodup as [Hz Hnodup]. cbn [fold_left].
  destruct (decide (z = z0)) as [->|Hne].
  - apply fold_left_unchanged. intros a' b Hb. destruct (decide (b = z0)); [by subst|done].
  - apply IH; [done|]. apply elem_of_cons in Hin as [?|?]; [by subst|done].
Qed.
End Frame.

Section GemmProduct.
Context {V : Type} `{ValueOps V}.
Implicit Types (h g : Z -> V).

(** The clearing sets the [m*ldc] elements of [C] to zero and leaves every
    other place as it is. *)
Lemma gemm_clear_lookup m C ldc h :
  (forall e, 0 <= e < (m * ldc)%i32 -> gemm_clear m C ldc h (C + e) = vzero)
  /\ (forall x, (forall e, 0 <= e < (m * ldc)%i32 -> x <> C + e) ->
        gemm_clear m C ldc h x = h x).
Proof.
  unfold gemm_clear. generalize (m * ldc)%i32. intros count.
  destruct (decide (0 <= count)) as [Hcount|Hcount]; cycle 1.
  { rewrite seqZ_nil by lia. split; [intros; lia | done]. }
  rewrite <- (Z2Nat.id count) by done. generalize (Z.to_nat count). clear.
  induction n as [|n [IHin IHout]]; [split; [intros; lia | done]|].
  rewrite seqZ_S, fold_left_app. cbn [fold_left]. rewrite Z.add_0_l. split.
  - intros e He. destruct (decide (e = Z.of_nat n)) as [->|Hne].
    + by rewrite fn_lookup_insert.
    + rewrite fn_lookup_insert_ne by lia. apply IHin. lia.
  - intros x Hx. rewrite fn_lookup_insert_ne.
    + apply IHout. intros e He. apply Hx. lia.
    + apply not_eq_sym, Hx. lia.
Qed.

(** When the elements [C[i*ldc + j]] of the result are different places for
    different [(i, j)], all among the [m*ldc] elements that are cleared, and
    none of the cleared places is an element of [A] or of [B] that the kernel
    reads, the kernel leaves at [C[i*ldc + j]] the product of row [i] of the
    (possibly transposed) [A] with column [j] of the (possibly transposed)
    [B], accumulated over [k] from left to right, on the memory it started
    from. *)
Lemma gemm_spec_product (transposeA transposeB : bool)
    (m n k_dim A lda B ldb C ldc : Z) h (i0 j0 : Z) :
  0 <= i0 < m -> 0 <= j0 < n ->
  (forall i j, 0 <= i < m -> 0 <= j < n ->
     0 <= (i * ldc + j)%i32 < (m * ldc)%i32) ->
  (forall i j i' j', 0 <= i < m -> 0 <= j < n -> 0 <= i' < m -> 0 <= j' < n ->
     (i * ldc + j)%i32 = (i' * ldc + j')%i32 -> i = i' /\ j = j') ->
  (forall e i k, 0 <= e < (m * ldc)%i32 -> 0 <= i < m -> 0 <= k < k_dim ->
     C + e <> A + gemm_aOffset transposeA lda i k) ->
  (forall e k j, 0 <= e < (m * ldc)%i32 -> 0 <= k < k_dim -> 0 <= j < n ->
     C + e <> B + gemm_bOffset transposeB ldb k j) ->
  gemm_spec transposeA transposeB m n k_dim A lda B ldb C ldc h
    (C + (i0 * ldc + j0)%i32)
  = fold_left
      (fun accum k =>
         vadd accum (vmul (h (A + gemm_aOffset transposeA lda i0 k))
                          (h (B + gemm_bOffset transposeB ldb k j0))))
      (seqZ 0 k_dim) vzero.
Proof.
  intros Hi0 Hj0 Hcleared Hdistinct HA HB.
  destruct (gemm_clear_lookup m C ldc h) as [Hzero Hkept].
  pose (reads := fun r : Z =>
    (exists i k, 0 <= i < m /\ 0 <= k < k_dim /\ r = A + gemm_aOffset transposeA lda i k)
    \/ (exists k j, 0 <= k < k_dim /\ 0 <= j < n /\ r = B + gemm_bOffset transposeB ldb k j)).
  set (x := C + (i0 * ldc + j0)%i32).
  pose (term := fun (i k j : Z) (v : V) =>
    vadd v (vmul (h (A + gemm_aOffset transposeA lda i k))
                 (h (B + gemm_bOffset transposeB ldb k j)))).
  pose (change := fun (i k j : Z) (v : V) =>
    if decide (C + (i * ldc + j)%i32 = x) then term i k j v else v).
  assert (forall e r, 0 <= e < (m * ldc)%i32 -> reads r -> r <> C + e) as Hreads.
  { intros e r He [(i & k & Hi & Hk & ->)|(k & j & Hk & Hj & ->)]; apply not_eq_sym.
    - by apply HA.
    - by apply HB. }
  assert (forall r, reads r -> gemm_clear m C ldc h r = h r) as Hstart.
  { intros r Hr. apply Hkept. intros e He. by apply Hreads. }
  assert (forall i k j, 0 <= i < m -> 0 <= k < k_dim -> 0 <= j < n ->
    forall g, (forall r, reads r -> g r = h r) ->
      (forall r, reads r ->
         gemm_accumulate transposeA transposeB A lda B ldb C ldc i k j g r = h r)
      /\ gemm_accumulate transposeA transposeB A lda B ldb C ldc i k j g x
         = change i k j (g x)) as Hstep.
  { intros i k j Hi Hk Hj g Hg. unfold gemm_accumulate. split.
    - intros r Hr. rewrite fn_lookup_insert_ne; [by apply Hg|].
      apply not_eq_sym, Hreads; [by apply Hcleared | done].
    - unfold change, term. destruct (decide (C + (i * ldc + j)%i32 = x)) as [Heq|Hne].
      + rewrite Heq, fn_lookup_insert.
        assert (reads (A + gemm_aOffset transposeA lda i k)) as HrA
          by (left; eauto 10).
        assert (reads (B + gemm_bOffset transposeB ldb k j)) as HrB
          by (right; eauto 10).
        by rewrite (Hg _ HrA), (Hg _ HrB).
      + by rewrite fn_lookup_insert_ne. }
  assert (gemm_spec transposeA transposeB m n k_dim A lda B ldb C ldc h x
          = fold_left (fun v i =>
              fold_left (fun v k =>
                fold_left (fun v j => change i k j v) (seqZ 0 n) v)
                (seqZ 0 k_dim) v)
              (seqZ 0 m) vzero) as ->.
  { rewrite <- (Hzero (i0 * ldc + j0)%i32) by by apply Hcleared.
    unfold gemm_spec.
    apply (fold_frame reads h x
      (fun i g => fold_left (fun g k => fold_left (fun g j =>
         gemm_accumulate transposeA transposeB A lda B ldb C ldc i k j g)
         (seqZ 0 n) g) (seqZ 0 k_dim) g)
      (fun i v => fold_left (fun v k => fold_left (fun v j => change i k j v)
         (seqZ 0 n) v) (seqZ 0 k_dim) v)); [|done].
    intros i Hi%elem_of_seqZ g Hg.
    apply (fold_frame reads h x
      (fun k g => fold_left (fun g j =>
         gemm_accumulate transposeA transposeB A lda B ldb C ldc i k j g)
         (seqZ 0 n) g)
      (fun k v => fold_left (fun v j => change i k j v) (seqZ 0 n) v)); [|done].
    intros k Hk%elem_of_seqZ g' Hg'.
    apply (fold_frame reads h x
      (fun j g => gemm_accumulate transposeA transposeB A lda B ldb C ldc i k j g)
      (fun j v => change i k j v)); [|done].
    intros j Hj%elem_of_seqZ g'' Hg''. apply Hstep; [lia..|done]. }
  rewrite (fold_left_ext_in _
    (fun v i => if decide (i = i0)
                then fold_left (fun v k => term i0 k j0 v) (seqZ 0 k_dim) v
                else v)).
  - rewrite fold_left_once; [done | apply NoDup_seqZ | apply elem_of_seqZ; lia].
  - intros v i Hi%elem_of_seqZ. destruct (decide (i = i0)) as [->|Hne].
    + apply fold_left_ext_in. intros v' k Hk.
      rewrite (fold_left_ext_in _
        (fun v j => if decide (j = j0) then term i0 k j0 v else v)).
      * rewrite fold_left_once; [done | apply NoDup_seqZ | apply elem_of_seqZ; lia].
      * intros v'' j Hj%elem_of_seqZ. unfold change, x.
        destruct (decide (j = j0)) as [->|Hj'].
        -- by rewrite decide_True.
        -- rewrite decide_False; [done|]. intros Heq.
           destruct (Hdistinct i0 j i0 j0) as [_ ?]; [lia..| |done]. lia.
    + apply fold_left_unchanged. intros v' k Hk.
      apply fold_left_unchanged. intros v'' j Hj%elem_of_seqZ. unfold change, x.
      rewrite decide_False; [done|]. intros Heq.
      destruct (Hdistinct i j i0 j0) as [? _]; [lia..| |done]. lia.
Qed.

(** The same for the run of the kernel. *)
Lemma GEMMFunction_product (order transA transB m n k_dim : Z) (alpha : V)
    (A lda B ldb : Z) (beta : V) (C ldc : Z) (mem : Memory V) (i0 j0 : Z) :
  let transposeA := bool_decide (transA = 112) in
  let transposeB := bool_decide (transB = 112) in
  0 <= i0 < m -> 0 <= j0 < n ->
  (forall i j, 0 <= i < m -> 0 <= j < n ->
     0 <= (i * ldc + j)%i32 < (m * ldc)%i32) ->
  (forall i j i' j', 0 <= i < m -> 0 <= j < n -> 0 <= i' < m -> 0 <= j' < n ->
     (i * ldc + j)%i32 = (i' * ldc + j')%i32 -> i = i' /\ j = j') ->
  (forall e i k, 0 <= e < (m * ldc)%i32 -> 0 <= i < m -> 0 <= k < k_dim ->
     C + e <> A + gemm_aOffset transposeA lda i k) ->
  (forall e k j, 0 <= e < (m * ldc)%i32 -> 0 <= k < k_dim -> 0 <= j < n ->
     C + e <> B + gemm_bOffset transposeB ldb k j) ->
  heap (GEMMFunction order transA transB m n k_dim alpha A lda B ldb beta C ldc mem).2
    (C + (i0 * ldc + j0)%i32)
  = fold_left
      (fun accum k =>
         vadd accum (vmul (heap mem (A + gemm_aOffset transposeA lda i0 k))
                          (heap mem (B + gemm_bOffset transposeB ldb k j0))))
      (seqZ 0 k_dim) vzero.
Proof.
  intros transposeA transposeB Hi0 Hj0 Hcleared Hdistinct HA HB.
  rewrite GEMMFunction_heap. by apply gemm_spec_product.
Qed.
End GemmProduct.

(** * Further properties of the provider *)

(** ** What the requests keep *)

Section Keeping.
Implicit Types (module : IRModuleEmitter) (rt : IRRuntime).

Lemma extends_refl module : extends module module.
Proof. by repeat split. Qed.

Lemma extends_trans module1 module2 module3 :
  extends module1 module2 -> extends module2 module3 -> extends module1 module3.
Proof.
  intros (Hn1 & Ho1 & Hf1) (Hn2 & Ho2 & Hf2). repeat split; [congruence..|].
  intros name def Hdef. by apply Hf2, Hf1.
Qed.

Lemma extends_insert_free module symbol def :
  functions module !! symbol = None ->
  extends module (set_functions (fun _ => <[symbol := def]> (functions module)) module).
Proof.
  intros Hfree. repeat split. intros name def' Hdef'. simpl.
  rewrite lookup_insert_ne; [done|]. intros ->. congruence.
Qed.

Lemma keeps_ret {A} (a : A) : keeps (mret a).
Proof. intros module. apply extends_refl. Qed.

Lemma keeps_bind {A B} (c : State IRModuleEmitter A) (f : A -> State IRModuleEmitter B) :
  keeps c -> (forall a, keeps (f a)) -> keeps (c ≫= f).
Proof.
  intros Hc Hf module. specialize (Hc module). run_state.
  destruct (c module) as [a module1]. simpl in *.
  eapply extends_trans; [exact Hc | apply Hf].
Qed.

Lemma keeps_getOrInsertFunction name ty : keeps (getOrInsertFunction name ty).
Proof.
  intros module. unfold getOrInsertFunction.
  destruct (functions module !! name) eqn:E; simpl; [apply extends_refl|].
  by apply (extends_insert_free module name (declaration ty)).
Qed.

Lemma keeps_DeclareFunction name ty : keeps (DeclareFunction name ty).
Proof.
  apply keeps_bind; [apply keeps_getOrInsertFunction | intros; apply keeps_ret].
Qed.

Lemma keeps_GetFunction name : keeps (GetFunction name).
Proof. intros module. apply extends_refl. Qed.

Lemma keeps_GetIntrinsic id argType : keeps (GetIntrinsic id argType).
Proof. apply keeps_getOrInsertFunction. Qed.

Lemma defines_extends module symbol body module' :
  functions module !! symbol = None ->
  defines module symbol body module' -> extends module module'.
Proof. intros Hfree (def & _ & ->). by apply extends_insert_free. Qed.

Lemma keeps_EmitGEMVFunction ValueType functionName argTypes :
  keeps (EmitGEMVFunction ValueType functionName argTypes).
Proof.
  intros module.
  destruct (EmitGEMVFunction_run ValueType functionName argTypes module)
    as (module' & Hdef & ->).
  eapply defines_extends; [apply uniqueName_fresh | exact Hdef].
Qed.

Lemma keeps_EmitGEMMFunction ValueType functionName argTypes :
  keeps (EmitGEMMFunction ValueType functionName argTypes).
Proof.
  intros module.
  destruct (EmitGEMMFunction_run ValueType functionName argTypes module)
    as (module' & Hdef & ->).
  eapply defines_extends; [apply uniqueName_fresh | exact Hdef].
Qed.

(** From the module to the provider. *)
Lemma providerKeeps_onModule {A} (c : State IRModuleEmitter A) :
  keeps c -> providerKeeps (lift (onModule c)).
Proof.
  intros Hc rt. specialize (Hc (_module rt)). unfold lift, onModule.
  destruct (c (_module rt)) as [a module']. simpl in *. done.
Qed.

Lemma providerKeeps_lift_bind {A B} (c : State IRRuntime A)
    (f : A -> State IRRuntime B) :
  providerKeeps (lift c) -> (forall a, providerKeeps (lift (f a))) ->
  providerKeeps (lift (c ≫= f)).
Proof.
  intros Hc Hf rt. destruct (Hc rt) as [Hc1 Hc2].
  rewrite lift_snd in Hc1, Hc2. rewrite lift_snd.
  unfold mbind, state_bind. destruct (c rt) as [a rt1]. simpl in *.
  destruct (Hf a rt1) as [Hf1 Hf2]. rewrite lift_snd in Hf1, Hf2.
  split; [eapply extends_trans; eassumption | congruence].
Qed.

Lemma providerKeeps_gets {A B} (g : IRRuntime -> A) (f : A -> State IRRuntime B) :
  (forall a, providerKeeps (lift (f a))) -> providerKeeps (lift (gets g ≫= f)).
Proof.
  intros Hf. apply providerKeeps_lift_bind; [|done].
  intros rt. split; [apply extends_refl | done].
Qed.

Lemma providerKeeps_GetBlasFunction useBlas argTypes blasName noblasName emit :
  (forall functionName argTypes, keeps (emit functionName argTypes)) ->
  providerKeeps (lift (GetBlasFunction useBlas argTypes blasName noblasName emit)).
Proof.
  intros Hemit. unfold GetBlasFunction. destruct useBlas.
  - apply providerKeeps_onModule, keeps_getOrInsertFunction.
  - apply providerKeeps_lift_bind.
    + apply providerKeeps_onModule, keeps_GetFunction.
    + intros [f|].
      * intros rt. split; [apply extends_refl | done].
      * apply providerKeeps_onModule, Hemit.
Qed.

Lemma providerKeeps_author (getter : State IRRuntime LLVMFunction) body :
  (forall rt, exists symbol module',
     functions (_module rt) !! symbol = None
     /\ defines (_module rt) symbol body module'
     /\ getter rt = (Some symbol, set_module module' rt)) ->
  providerKeeps (lift getter).
Proof.
  intros Hrun rt. destruct (Hrun rt) as (symbol & module' & Hfree & Hdef & Heq).
  unfold lift. rewrite Heq. simpl. split; [|done].
  by eapply defines_extends.
Qed.

Lemma providerKeeps_ResolveCurrentTimeFunction timespecType :
  providerKeeps (lift (ResolveCurrentTimeFunction timespecType)).
Proof.
  unfold ResolveCurrentTimeFunction. apply providerKeeps_gets. intros [|].
  - apply providerKeeps_onModule.
    apply keeps_bind; [apply keeps_DeclareFunction | intros _].
    apply keeps_bind; [apply keeps_DeclareFunction | intros _].
    apply keeps_bind; [apply keeps_GetFunction | intros qpcFunction].
    apply keeps_bind; [apply keeps_GetFunction | intros qpfFunction].
    intros module. unfold BeginFunctionLLVM, EmitBody, EndFunction. run_state.
    unfold set_functions. simpl. rewrite alter_insert_eq.
    apply (extends_insert_free module), uniqueName_fresh.
  - apply providerKeeps_onModule.
    apply keeps_bind; [apply keeps_DeclareFunction | intros _; apply keeps_GetFunction].
Qed.

Lemma providerKeeps_GetCurrentTimeFunction : providerKeeps GetCurrentTimeFunction.
Proof.
  intros rt. unfold GetCurrentTimeFunction.
  destruct (_pGetCurrentTimeFunction rt) as [f|] eqn:Hc.
  - rewrite (GetCurrentTimeFunctionWith_cached _ _ _ Hc). split; [apply extends_refl|done].
  - destruct (ResolveCurrentTimeFunction_resolves (_posixRuntime rt) (declared rt))
      as [clock Hclock].
    destruct (GetCurrentTimeFunctionWith_authors _ _ _ Hc Hclock) as (module' & Hdef & ->).
    pose proof (providerKeeps_ResolveCurrentTimeFunction (_posixRuntime rt) (declared rt))
      as [Hresolve Hts].
    rewrite lift_snd in Hresolve, Hts.
    pose proof (providerKeeps_onModule _
      (keeps_DeclareFunction "clock_gettime" (gettimeType (_posixRuntime rt))) rt)
      as [Hdeclared Hts'].
    rewrite lift_snd in Hdeclared, Hts'. fold (declared rt) in Hdeclared, Hts'.
    simpl. split; [|congruence].
    eapply extends_trans; [exact Hdeclared|].
    eapply extends_trans; [exact Hresolve|].
    eapply defines_extends; [apply uniqueName_fresh | exact Hdef].
Qed.

Lemma providerKeeps_serve (r : Request) : providerKeeps (serve r).
Proof.
  destruct r; cbn [serve].
  - apply (providerKeeps_author _ DotProductBody). intros rt.
    destruct (GetDotProductFloatFunction_run rt) as (module' & Hdef & Heq).
    eexists _, module'. split; [apply uniqueName_fresh | done].
  - apply (providerKeeps_author _ DotProductBody). intros rt.
    destruct (GetDotProductIntFunction_run rt) as (module' & Hdef & Heq).
    eexists _, module'. split; [apply uniqueName_fresh | done].
  - apply providerKeeps_GetCurrentTimeFunction.
  - apply providerKeeps_onModule, keeps_GetIntrinsic.
  - apply providerKeeps_onModule, keeps_GetIntrinsic.
  - apply providerKeeps_onModule, keeps_GetIntrinsic.
  - apply providerKeeps_onModule, keeps_GetIntrinsic.
  - apply providerKeeps_onModule, keeps_GetIntrinsic.
  - apply providerKeeps_onModule, keeps_GetIntrinsic.
  - apply providerKeeps_onModule, keeps_GetIntrinsic.
  - apply providerKeeps_onModule, keeps_GetIntrinsic.
  - apply providerKeeps_onModule, keeps_GetIntrinsic.
  - apply providerKeeps_onModule, keeps_GetIntrinsic.
  - apply providerKeeps_onModule, keeps_GetIntrinsic.
  - apply providerKeeps_onModule, keeps_GetIntrinsic.
  - unfold GetTanhFunction.
    destruct argType; try (intros rt; split; [apply extends_refl | done]);
      apply providerKeeps_onModule;
      (apply keeps_bind; [apply keeps_DeclareFunction | intros _; apply keeps_GetFunction]).
  - apply providerKeeps_GetBlasFunction, keeps_EmitGEMVFunction.
  - apply providerKeeps_GetBlasFunction, keeps_EmitGEMVFunction.
  - apply providerKeeps_GetBlasFunction, keeps_EmitGEMMFunction.
  - apply providerKeeps_GetBlasFunction, keeps_EmitGEMMFunction.
  - unfold GetOpenBLASGetNumThreadsFunction, GetIntType.
    apply providerKeeps_lift_bind.
    + apply providerKeeps_gets. intros bits rt.
      unfold lift. destruct (decide (bits <> 0%N)); split; try apply extends_refl; done.
    + intros intType. apply providerKeeps_onModule, keeps_getOrInsertFunction.
  - unfold GetOpenBLASSetNumThreadsFunction, GetIntType.
    apply providerKeeps_lift_bind.
    + apply providerKeeps_gets. intros bits rt.
      unfold lift. destruct (decide (bits <> 0%N)); split; try apply extends_refl; done.
    + intros intType. apply providerKeeps_onModule, keeps_getOrInsertFunction.
Qed.
End Keeping.

(** X1: no request to the provider removes, renames or rewrites a function
    that the module has: after any sequence of requests, the module has its
    name, its compiler options and every function it had before, each with
    the type and the body it had, and the provider has the timespec type it
    had. *)
Theorem requests_keep_the_module (rs : list Request) (rt : IRRuntime) :
  extends (_module rt) (_module (serveAll rs rt).2)
  /\ _posixRuntime (serveAll rs rt).2 = _posixRuntime rt.
Proof.
  revert rt. induction rs as [|r rs IH]; intros rt.
  - split; [apply extends_refl | done].
  - rewrite serveAll_cons. simpl.
    destruct (providerKeeps_serve r rt) as [Hr Hts].
    destruct (IH (serve r rt).2) as [Hrs Hts'].
    split; [by eapply extends_trans | congruence].
Qed.

(** ** Bodies are written once, or not at all *)

Section Counting.
Implicit Types (module : IRModuleEmitter) (rt : IRRuntime).

Lemma extends_authoredBodies module module' :
  extends module module' -> (authoredBodies module <= authoredBodies module')%nat.
Proof.
  intros (_ & _ & Hkeeps). unfold authoredBodies, definedFunctions.
  apply map_subseteq_size, map_filter_subseteq_mono, map_subseteq_spec. done.
Qed.

Lemma author_step module symbol def (f : FunctionDef -> FunctionDef) :
  set_functions (alter f symbol) (set_functions (insert symbol def) module)
  = set_functions (fun _ => <[symbol := f def]> (functions module)) module.
Proof. unfold set_functions. simpl. by rewrite alter_insert_eq. Qed.

Lemma getOrInsertFunction_authoredBodies name ty module :
  authoredBodies (getOrInsertFunction name ty module).2 = authoredBodies module.
Proof.
  unfold getOrInsertFunction. destruct (functions module !! name) eqn:E; simpl; [done|].
  by apply authoredBodies_declare.
Qed.

Lemma DeclareFunction_authoredBodies name ty module :
  authoredBodies (DeclareFunction name ty module).2 = authoredBodies module.
Proof.
  unfold DeclareFunction. run_state.
  pose proof (getOrInsertFunction_authoredBodies name ty module) as Hsame.
  by destruct (getOrInsertFunction name ty module).
Qed.

Lemma declared_authoredBodies rt :
  authoredBodies (_module (declared rt)) = authoredBodies (_module rt).
Proof.
  unfold declared. run_state.
  pose proof (DeclareFunction_authoredBodies "clock_gettime"
    (gettimeType (_posixRuntime rt)) (_module rt)) as Hsame.
  by destruct (DeclareFunction _ _ (_module rt)).
Qed.

Lemma ResolveCurrentTimeFunction_authoredBodies timespecType rt :
  authoredBodies (_module (ResolveCurrentTimeFunction timespecType rt).2)
  = (authoredBodies (_module rt)
     + if IsWindows (targetDevice (compilerOptions (_module rt))) then 1 else 0)%nat.
Proof.
  unfold ResolveCurrentTimeFunction, GetCompilerOptions. run_state.
  destruct (IsWindows _).
  - unfold BeginFunctionLLVM, EmitBody, EndFunction, GetFunction. run_state.
    pose proof (DeclareFunction_authoredBodies "QueryPerformanceCounter" qpcProto
      (_module rt)) as H1.
    destruct (DeclareFunction "QueryPerformanceCounter" _ _) as [u1 module1].
    pose proof (DeclareFunction_authoredBodies "QueryPerformanceFrequency" qpcProto
      module1) as H2.
    destruct (DeclareFunction "QueryPerformanceFrequency" _ _) as [u2 module2].
    simpl in *. rewrite author_step.
    rewrite (authoredBodies_define module2); [lia | apply uniqueName_fresh | done].
  - unfold GetFunction. run_state.
    pose proof (DeclareFunction_authoredBodies "clock_gettime"
      (FunctionType_get (getElementType timespecType 0)
         [getInt32Ty; structPointerTo timespecType] false) (_module rt)) as H1.
    destruct (DeclareFunction _ _ _) as [u module1]. simpl in *. lia.
Qed.

Lemma declared_windows rt :
  IsWindows (targetDevice (compilerOptions (_module (declared rt))))
  = IsWindows (targetDevice (compilerOptions (_module rt))).
Proof.
  pose proof (providerKeeps_onModule _
    (keeps_DeclareFunction "clock_gettime" (gettimeType (_posixRuntime rt))) rt)
    as [(_ & Hoptions & _) _].
  rewrite lift_snd in Hoptions. fold (declared rt) in Hoptions. by rewrite Hoptions.
Qed.
End Counting.

(** X2: a request for a fallback kernel is served once per module: a second
    request, for GEMV or GEMM in either precision, returns the function of the
    first and leaves the provider as it is, and the first request adds at most
    one body to the module. *)
Theorem fallback_kernel_once (ValueType : BlasValueType) (rt : IRRuntime) :
  (let '(first, rt1) := GetGEMVFunction ValueType false rt in
   GetGEMVFunction ValueType false rt1 = (first, rt1)
   /\ (authoredBodies (_module rt1) <= S (authoredBodies (_module rt)))%nat)
  /\ (let '(first, rt1) := GetGEMMFunction ValueType false rt in
      GetGEMMFunction ValueType false rt1 = (first, rt1)
      /\ (authoredBodies (_module rt1) <= S (authoredBodies (_module rt)))%nat).
Proof.
  destruct ValueType; split; cbn [GetGEMVFunction GetGEMMFunction];
    unfold GetSGEMVFunction, GetDGEMVFunction, GetSGEMMFunction, GetDGEMMFunction.
  - apply (GetBlasFunction_fallback_idempotent _ _ (EmitGEMVFunction_run Float)).
  - apply (GetBlasFunction_fallback_idempotent _ _ (EmitGEMMFunction_run Float)).
  - apply (GetBlasFunction_fallback_idempotent _ _ (EmitGEMVFunction_run Double)).
  - apply (GetBlasFunction_fallback_idempotent _ _ (EmitGEMMFunction_run Double)).
Qed.

(** X3: a request for a fallback kernel takes whatever function of the module
    has the kernel's name: when the module has a function [noblas_sgemv] (or
    [noblas_dgemv], [noblas_sgemm], [noblas_dgemm]), be it a mere declaration
    or a function of another type, the request returns that function and
    writes nothing. *)
Theorem fallback_kernel_name_taken (rt : IRRuntime) :
  (is_Some (functions (_module rt) !! "noblas_sgemv") ->
   GetSGEMVFunction false rt = (Some "noblas_sgemv", rt))
  /\ (is_Some (functions (_module rt) !! "noblas_dgemv") ->
      GetDGEMVFunction false rt = (Some "noblas_dgemv", rt))
  /\ (is_Some (functions (_module rt) !! "noblas_sgemm") ->
      GetSGEMMFunction false rt = (Some "noblas_sgemm", rt))
  /\ (is_Some (functions (_module rt) !! "noblas_dgemm") ->
      GetDGEMMFunction false rt = (Some "noblas_dgemm", rt)).
Proof.
  repeat split; intros Htaken; by apply GetBlasFunction_fallback_found.
Qed.

(** X3 on a module that declares [noblas_sgemv] as a function without
    parameters that returns nothing: the request returns the declaration, and
    the module still has no body. *)
Lemma fallback_kernel_name_taken_witness :
  let module := (getOrInsertFunction "noblas_sgemv" (FunctionType_get VoidTy [] false)
                   (emptyModule 64 false)).2 in
  let rt := IRRuntime_new module (timespec 64) in
  GetSGEMVFunction false rt = (Some "noblas_sgemv", rt)
  /\ authoredBodies (_module (GetSGEMVFunction false rt).2) = 0%nat.
Proof.
  intros module rt.
  assert (GetSGEMVFunction false rt = (Some "noblas_sgemv", rt)) as Hsame.
  { apply (fallback_kernel_name_taken rt). vm_compute. eexists. reflexivity. }
  split; [exact Hsame|]. rewrite Hsame. vm_compute. reflexivity.
Defined.

(** X4: a request for the external binding (with [useBlas]) returns the
    function [cblas_sgemv], [cblas_dgemv], [cblas_sgemm] or [cblas_dgemm],
    never writes a body, and is served once: a second request returns the
    same function and leaves the provider as it is.  When the module had no
    function of that name, the function is declared with the BLAS argument
    list and the return type [Int32]. *)
Theorem external_binding_declares (ValueType : BlasValueType) (rt : IRRuntime) :
  let gemvName :=
    match ValueType with blas_float => "cblas_sgemv" | blas_double => "cblas_dgemv" end in
  let gemmName :=
    match ValueType with blas_float => "cblas_sgemm" | blas_double => "cblas_dgemm" end in
  let scalar := match ValueType with blas_float => Float | blas_double => Double end in
  let pointer :=
    match ValueType with blas_float => FloatPointer | blas_double => DoublePointer end in
  (let '(first, rt1) := GetGEMVFunction ValueType true rt in
   first = Some gemvName
   /\ GetGEMVFunction ValueType true rt1 = (first, rt1)
   /\ authoredBodies (_module rt1) = authoredBodies (_module rt)
   /\ (getFunction (_module rt) gemvName = None ->
       functions (_module rt1) !! gemvName
       = Some (declaration (FunctionType_get (IntegerTy 32)
                 (GetLLVMTypes (gemvArgTypes scalar pointer)) false))))
  /\ (let '(first, rt1) := GetGEMMFunction ValueType true rt in
      first = Some gemmName
      /\ GetGEMMFunction ValueType true rt1 = (first, rt1)
      /\ authoredBodies (_module rt1) = authoredBodies (_module rt)
      /\ (getFunction (_module rt) gemmName = None ->
          functions (_module rt1) !! gemmName
          = Some (declaration (FunctionType_get (IntegerTy 32)
                    (GetLLVMTypes (gemmArgTypes scalar pointer)) false)))).
Proof.
  destruct ValueType; split; cbn [GetGEMVFunction GetGEMMFunction];
    unfold GetSGEMVFunction, GetDGEMVFunction, GetSGEMMFunction, GetDGEMMFunction.
  all: match goal with
       | |- context [GetBlasFunction true ?args ?blas ?noblas ?emit ?r] =>
           pose proof (GetBlasFunction_external_idempotent emit args blas noblas r)
             as Hidem;
           assert (getFunction (_module r) blas = None ->
                   functions (_module (GetBlasFunction true args blas noblas emit r).2)
                     !! blas
                   = Some (declaration (FunctionType_get (IntegerTy 32)
                             (GetLLVMTypes args) false))) as Hnew
       end.
  all: try (intros Hfree%getFunction_None; unfold GetBlasFunction, getOrInsertFunction;
            run_state; rewrite Hfree; simpl; by rewrite lookup_insert_eq).
  all: destruct (GetBlasFunction true _ _ _ _ rt) as [first rt1];
       destruct Hidem as (? & ? & ?); done.
Qed.

(** X4 on an empty module: the request for the external single-precision
    GEMV declares [cblas_sgemv] with the twelve BLAS arguments. *)
Lemma external_binding_declares_witness :
  functions (_module (GetGEMVFunction blas_float true (newProvider 64 false)).2)
    !! "cblas_sgemv"
  = Some (declaration (FunctionType_get (IntegerTy 32)
            [IntegerTy 32; IntegerTy 32; IntegerTy 32; IntegerTy 32; FloatTy;
             PointerTy FloatTy; IntegerTy 32; PointerTy FloatTy; IntegerTy 32;
             FloatTy; PointerTy FloatTy; IntegerTy 32] false)).
Proof.
  generalize (external_binding_declares blas_float (newProvider 64 false)). cbv zeta.
  destruct (GetGEMVFunction blas_float true (newProvider 64 false)) as [first rt1].
  intros [(_ & _ & _ & Hnew) _]. apply Hnew. reflexivity.
Defined.

(** ** The current-time function, per provider *)

Section PerProvider.
Implicit Types (rt : IRRuntime).

(** The first call of [GetCurrentTimeFunction] on a provider. *)
Lemma GetCurrentTimeFunction_first rt :
  _pGetCurrentTimeFunction rt = None ->
  let rt2 := (ResolveCurrentTimeFunction (_posixRuntime rt) (declared rt)).2 in
  let symbol :=
    uniqueName (_module rt2) (moduleName (_module rt2) +:+ "_" +:+ getTimeFunctionName) in
  exists clock module',
    (ResolveCurrentTimeFunction (_posixRuntime rt) (declared rt)).1 = Some clock
    /\ defines (_module rt2) symbol (GetTimeBody clock (_posixRuntime rt)) module'
    /\ GetCurrentTimeFunction rt
       = (inr (Some symbol),
          set_pGetCurrentTimeFunction (Some symbol) (set_module module' rt2)).
Proof.
  intros Hc.
  destruct (ResolveCurrentTimeFunction_resolves (_posixRuntime rt) (declared rt))
    as [clock Hclock].
  destruct (GetCurrentTimeFunctionWith_authors _ _ _ Hc Hclock) as (module' & Hdef & Heq).
  by exists clock, module'.
Qed.

Lemma resolved_extends rt :
  extends (_module rt)
    (_module (ResolveCurrentTimeFunction (_posixRuntime rt) (declared rt)).2).
Proof.
  pose proof (providerKeeps_ResolveCurrentTimeFunction (_posixRuntime rt) (declared rt))
    as [Hresolve _].
  rewrite lift_snd in Hresolve.
  pose proof (providerKeeps_onModule _
    (keeps_DeclareFunction "clock_gettime" (gettimeType (_posixRuntime rt))) rt)
    as [Hdeclared _].
  rewrite lift_snd in Hdeclared. fold (declared rt) in Hdeclared.
  by eapply extends_trans.
Qed.
End PerProvider.

(** X5: the current-time function is written once per provider: a second
    call of [GetCurrentTimeFunction] returns the function of the first and
    leaves the provider as it is.  The first call of a provider adds one body
    to the module, [GetTime], and on a Windows target one more, the
    replacement of [clock_gettime]. *)
Theorem current_time_function_once (rt : IRRuntime) :
  let '(first, rt1) := GetCurrentTimeFunction rt in
  GetCurrentTimeFunction rt1 = (first, rt1)
  /\ (_pGetCurrentTimeFunction rt = None ->
      authoredBodies (_module rt1)
      = (authoredBodies (_module rt)
         + if IsWindows (targetDevice (compilerOptions (_module rt))) then 2 else 1)%nat).
Proof.
  pose proof (GetCurrentTimeFunction_idempotent rt) as Hidem.
  pose proof (GetCurrentTimeFunction_first rt) as Hfirst.
  destruct (GetCurrentTimeFunction rt) as [first rt1]. split; [exact Hidem|].
  intros Hc. destruct (Hfirst Hc) as (clock & module' & _ & Hdef & [= _ ->]).
  simpl. rewrite (defines_authoredBodies _ _ _ _ (uniqueName_fresh _ _) Hdef).
  rewrite ResolveCurrentTimeFunction_authoredBodies, declared_authoredBodies,
    declared_windows.
  destruct (IsWindows _); lia.
Qed.

(** X5 on new providers for empty modules: one body on a POSIX target, two on
    a Windows target. *)
Lemma current_time_function_once_witness :
  authoredBodies (_module (GetCurrentTimeFunction (newProvider 64 false)).2) = 1%nat
  /\ authoredBodies (_module (GetCurrentTimeFunction (newProvider 64 true)).2) = 2%nat.
Proof.
  split.
  - generalize (current_time_function_once (newProvider 64 false)).
    destruct (GetCurrentTimeFunction (newProvider 64 false)) as [first rt1].
    intros [_ Hcount]. cbn [snd]. rewrite Hcount; reflexivity.
  - generalize (current_time_function_once (newProvider 64 true)).
    destruct (GetCurrentTimeFunction (newProvider 64 true)) as [first rt1].
    intros [_ Hcount]. cbn [snd]. rewrite Hcount; reflexivity.
Defined.

(** X6: the function is cached in the provider, not looked up in the module:
    a second provider constructed on the module of the first writes a second
    [GetTime], a function other than the one the first provider returned, and
    the module gains a body again. *)
Theorem current_time_function_per_provider (rt : IRRuntime) :
  _pGetCurrentTimeFunction rt = None ->
  let '(first, rt1) := GetCurrentTimeFunction rt in
  let '(second, rt2) :=
    GetCurrentTimeFunction (IRRuntime_new (_module rt1) (_posixRuntime rt1)) in
  exists f1 f2,
    first = inr (Some f1) /\ second = inr (Some f2) /\ f1 <> f2
    /\ (authoredBodies (_module rt1) < authoredBodies (_module rt2))%nat.
Proof.
  intros Hc.
  destruct (GetCurrentTimeFunction_first rt Hc) as (clock & module1 & _ & Hdef1 & ->).
  set (rtA := (ResolveCurrentTimeFunction (_posixRuntime rt) (declared rt)).2) in *.
  set (f1 := uniqueName (_module rtA) _) in *.
  set (rt1 := set_pGetCurrentTimeFunction (Some f1) (set_module module1 rtA)).
  set (rtB := IRRuntime_new (_module rt1) (_posixRuntime rt1)).
  destruct (GetCurrentTimeFunction_first rtB eq_refl) as (clock2 & module2 & _ & Hdef2 & ->).
  set (rtB2 := (ResolveCurrentTimeFunction (_posixRuntime rtB) (declared rtB)).2) in *.
  set (f2 := uniqueName (_module rtB2) _) in *.
  exists f1, f2. split; [done|]. split; [done|].
  pose proof (resolved_extends rtB) as Hext. fold rtB2 in Hext.
  assert (is_Some (functions (_module rtB) !! f1)) as [def Hf1].
  { destruct Hdef1 as (def & _ & ->). simpl. rewrite lookup_insert_eq. eauto. }
  split.
  - intros Heq. pose proof (uniqueName_fresh (_module rtB2)
      (moduleName (_module rtB2) +:+ "_" +:+ getTimeFunctionName)) as Hfresh.
    fold f2 in Hfresh. rewrite <- Heq in Hfresh.
    destruct Hext as (_ & _ & Hkeeps). rewrite (Hkeeps _ _ Hf1) in Hfresh. done.
  - simpl. rewrite (defines_authoredBodies _ _ _ _ (uniqueName_fresh _ _) Hdef2).
    apply extends_authoredBodies in Hext. simpl in Hext. lia.
Qed.

(** X6 on an empty module for a POSIX target: the two providers return
    [model_GetTime] and a second function, and the module ends with two
    bodies. *)
Lemma current_time_function_per_provider_witness :
  let '(first, rt1) := GetCurrentTimeFunction (newProvider 64 false) in
  let '(second, rt2) :=
    GetCurrentTimeFunction (IRRuntime_new (_module rt1) (_posixRuntime rt1)) in
  first <> second /\ authoredBodies (_module rt2) = 2%nat.
Proof.
  generalize (current_time_function_per_provider (newProvider 64 false) eq_refl).
  destruct (GetCurrentTimeFunction (newProvider 64 false)) as [first rt1] eqn:Hfirst.
  vm_compute in Hfirst. injection Hfirst as <- <-.
  destruct (GetCurrentTimeFunction _) as [second rt2] eqn:Hsecond.
  vm_compute in Hsecond. injection Hsecond as <- <-.
  intros (f1 & f2 & [= <-] & [= <-] & Hne & _).
  split; [congruence | vm_compute; reflexivity].
Defined.

(** ** Getters that only declare *)

Section Declaring.
Implicit Types (rt : IRRuntime) (name : string) (ty : FunctionType).

Lemma declaring_getter name ty : declaresOnly (onModule (getOrInsertFunction name ty)) ty.
Proof.
  intros rt. unfold getOrInsertFunction. run_state.
  destruct (functions (_module rt) !! name) eqn:E; simpl.
  - rewrite E. destruct rt; simpl in *. repeat split; try done.
    intros n [= <-] Hn. congruence.
  - rewrite lookup_insert_eq. repeat split; try done.
    + by apply authoredBodies_declare.
    + intros n [= <-] _. by rewrite lookup_insert_eq.
Qed.

Lemma declare_then_get name ty rt :
  onModule (DeclareFunction name ty;; GetFunction name) rt
  = onModule (getOrInsertFunction name ty) rt.
Proof.
  unfold DeclareFunction, GetFunction, getOrInsertFunction, getFunction. run_state.
  destruct (functions (_module rt) !! name) eqn:E; simpl.
  - by rewrite E.
  - by rewrite lookup_insert_eq.
Qed.

Lemma string_app_inj (prefix s1 s2 : string) : prefix +:+ s1 = prefix +:+ s2 -> s1 = s2.
Proof. induction prefix as [|a prefix IH]; simpl; [done|]. intros [= Heq]. auto. Qed.
End Declaring.

Lemma GetTanhFunction_Float (rt : IRRuntime) :
  GetTanhFunction Float rt
  = lift (onModule (getOrInsertFunction "tanhf" (FunctionType_get FloatTy [FloatTy] false))) rt.
Proof.
  change (GetTanhFunction Float rt)
    with (lift (onModule (DeclareFunction "tanhf" (FunctionType_get FloatTy [FloatTy] false);;
                          GetFunction "tanhf")) rt).
  unfold lift. by rewrite declare_then_get.
Qed.

Lemma GetTanhFunction_Double (rt : IRRuntime) :
  GetTanhFunction Double rt
  = lift (onModule (getOrInsertFunction "tanh" (FunctionType_get DoubleTy [DoubleTy] false))) rt.
Proof.
  change (GetTanhFunction Double rt)
    with (lift (onModule (DeclareFunction "tanh" (FunctionType_get DoubleTy [DoubleTy] false);;
                          GetFunction "tanh")) rt).
  unfold lift. by rewrite declare_then_get.
Qed.

Lemma lifted_declaring_getter name ty (rt : IRRuntime) :
  let '(first, rt1) := lift (onModule (getOrInsertFunction name ty)) rt in
  first = inr (Some name)
  /\ lift (onModule (getOrInsertFunction name ty)) rt1 = (first, rt1)
  /\ authoredBodies (_module rt1) = authoredBodies (_module rt)
  /\ (functions (_module rt) !! name = None ->
      functions (_module rt1) !! name = Some (declaration ty)).
Proof.
  pose proof (declaring_getter name ty rt) as Hd. unfold lift.
  destruct (onModule (getOrInsertFunction name ty) rt) as [first rt1] eqn:Hrun.
  destruct Hd as (_ & Hidem & Hsame & Hnew).
  assert (first = Some name) as ->.
  { revert Hrun. unfold getOrInsertFunction. run_state.
    by destruct (functions (_module rt) !! name); intros [= <- _]. }
  rewrite Hidem. repeat split; try done. intros Hfree. by apply Hnew.
Qed.

(** X8: [GetTanhFunction] outside [Float] and [Double] throws and leaves the
    provider as it was, with nothing declared.  For [Float] and [Double] it
    only declares: the function is [tanhf] or [tanh], a declaration from the
    type to the type when the name was free; a second call returns the same
    function and changes nothing.  No call writes a body. *)
Theorem GetTanhFunction_declares (argType : VariableType) (rt : IRRuntime) :
  (argType <> Float -> argType <> Double ->
   GetTanhFunction argType rt = (inl (MkEmitterException functionNotFound), rt))
  /\ (forall name, (argType = Float /\ name = "tanhf") \/ (argType = Double /\ name = "tanh") ->
      let '(first, rt1) := GetTanhFunction argType rt in
      first = inr (Some name)
      /\ GetTanhFunction argType rt1 = (first, rt1)
      /\ (functions (_module rt) !! name = None ->
          functions (_module rt1) !! name
          = Some (declaration (FunctionType_get (Type_ argType) [Type_ argType] false))))
  /\ authoredBodies (_module (GetTanhFunction argType rt).2) = authoredBodies (_module rt).
Proof.
  split; [|split].
  - intros HF HD. by destruct argType.
  - intros name [[-> ->]|[-> ->]].
    + rewrite GetTanhFunction_Float.
      pose proof (lifted_declaring_getter "tanhf" (FunctionType_get FloatTy [FloatTy] false) rt)
        as Hd.
      destruct (lift _ rt) as [first rt1]. destruct Hd as (-> & Hidem & _ & Hnew).
      by rewrite GetTanhFunction_Float.
    + rewrite GetTanhFunction_Double.
      pose proof (lifted_declaring_getter "tanh" (FunctionType_get DoubleTy [DoubleTy] false) rt)
        as Hd.
      destruct (lift _ rt) as [first rt1]. destruct Hd as (-> & Hidem & _ & Hnew).
      by rewrite GetTanhFunction_Double.
  - destruct argType; try done.
    + rewrite GetTanhFunction_Float.
      pose proof (lifted_declaring_getter "tanhf" (FunctionType_get FloatTy [FloatTy] false) rt)
        as Hd.
      destruct (lift _ rt) as [first rt1]. by destruct Hd as (_ & _ & Hsame & _).
    + rewrite GetTanhFunction_Double.
      pose proof (lifted_declaring_getter "tanh" (FunctionType_get DoubleTy [DoubleTy] false) rt)
        as Hd.
      destruct (lift _ rt) as [first rt1]. by destruct Hd as (_ & _ & Hsame & _).
Qed.

(** X8 on a new provider: [Int32] throws and leaves the provider as it was;
    [Float] declares [tanhf] from [float] to [float]. *)
Lemma GetTanhFunction_declares_witness :
  GetTanhFunction Int32 (newProvider 64 false)
  = (inl (MkEmitterException functionNotFound), newProvider 64 false)
  /\ functions (_module (GetTanhFunction Float (newProvider 64 false)).2) !! "tanhf"
     = Some (declaration (FunctionType_get FloatTy [FloatTy] false)).
Proof.
  split.
  - apply (GetTanhFunction_declares Int32 (newProvider 64 false)); discriminate.
  - generalize (proj1 (proj2 (GetTanhFunction_declares Float (newProvider 64 false)))
      "tanhf" (or_introl (conj eq_refl eq_refl))).
    destruct (GetTanhFunction Float (newProvider 64 false)) as [first rt1].
    intros (_ & _ & Hnew). apply Hnew. reflexivity.
Defined.

(** X9: the prototype of the external [clock_gettime] on a target that is not
    Windows, in a module that has no [clock_gettime].  Called on its own,
    [ResolveCurrentTimeFunction] declares it with the type of the first member
    of the timespec struct as its return type.  Through
    [GetCurrentTimeFunction] the function is declared before the clock is
    resolved, with a 32-bit integer as its return type, and that declaration
    is the one the module keeps. *)
Theorem posix_clock_prototype (rt : IRRuntime) :
  IsWindows (targetDevice (compilerOptions (_module rt))) = false ->
  getFunction (_module rt) "clock_gettime" = None ->
  functionType (_module (ResolveCurrentTimeFunction (_posixRuntime rt) rt).2)
    (Some "clock_gettime")
  = Some (FunctionType_get (getElementType (_posixRuntime rt) 0)
            [getInt32Ty; structPointerTo (_posixRuntime rt)] false)
  /\ (_pGetCurrentTimeFunction rt = None ->
      functionType (_module (GetCurrentTimeFunction rt).2) (Some "clock_gettime")
      = Some (FunctionType_get getInt32Ty
                [getInt32Ty; structPointerTo (_posixRuntime rt)] false)).
Proof.
  intros Hposix Hfree. split.
  - apply getFunction_None in Hfree.
    unfold ResolveCurrentTimeFunction, GetCompilerOptions, DeclareFunction, GetFunction,
      getOrInsertFunction, functionType.
    run_state. rewrite Hposix. simpl. rewrite Hfree. simpl.
    by rewrite lookup_insert_eq.
  - intros Hc. by destruct (GetCurrentTimeFunction_posix_prototype rt Hposix Hc Hfree).
Qed.

(** X9 for a timespec of two 64-bit members: on its own the resolver declares
    a [clock_gettime] that returns a 64-bit integer, through
    [GetCurrentTimeFunction] the module has one that returns a 32-bit
    integer. *)
Lemma posix_clock_prototype_witness :
  functionType (_module (ResolveCurrentTimeFunction (timespec 64) (newProvider 64 false)).2)
    (Some "clock_gettime")
  = Some (FunctionType_get (IntegerTy 64)
            [IntegerTy 32; PointerTy (NamedStructTy "timespec")] false)
  /\ functionType (_module (GetCurrentTimeFunction (newProvider 64 false)).2)
       (Some "clock_gettime")
     = Some (FunctionType_get (IntegerTy 32)
               [IntegerTy 32; PointerTy (NamedStructTy "timespec")] false).
Proof.
  destruct (posix_clock_prototype (newProvider 64 false) eq_refl eq_refl) as [Halone Hthrough].
  split; [exact Halone | exact (Hthrough eq_refl)].
Defined.

(** ** The dot-product functions *)

Lemma GetDotProductFloatFunction_free (rt : IRRuntime) :
  let name := moduleName (_module rt) +:+ "_DotProductFloat" in
  functions (_module rt) !! name = None ->
  GetDotProductFloatFunction rt
  = (Some name,
     set_module (set_functions (insert name
        {| fn_type := FunctionType_get VoidTy
             [IntegerTy 32; PointerTy DoubleTy; PointerTy DoubleTy; PointerTy DoubleTy] false;
           fn_argNames := ["count"; "pLVector"; "pRVector"; "pResult"];
           fn_body := Some (Some DotProductBody);
           fn_inHeader := true |}) (_module rt)) rt).
Proof.
  intros name Hfree. author_run.
  change (moduleName (_module rt) +:+ "_" +:+ dotProductFloatName) with name.
  rewrite (uniqueName_free _ _ Hfree). unfold fe_GetFunction, set_functions. simpl.
  rewrite !alter_insert_eq. reflexivity.
Qed.

Lemma GetDotProductIntFunction_free (rt : IRRuntime) :
  let name := moduleName (_module rt) +:+ "_DotProductInt" in
  functions (_module rt) !! name = None ->
  GetDotProductIntFunction rt
  = (Some name,
     set_module (set_functions (insert name
        {| fn_type := FunctionType_get VoidTy
             [IntegerTy 32; PointerTy (IntegerTy 32); PointerTy (IntegerTy 32);
              PointerTy (IntegerTy 32)] false;
           fn_argNames := ["count"; "pLVector"; "pRVector"; "pResult"];
           fn_body := Some (Some DotProductBody);
           fn_inHeader := true |}) (_module rt)) rt).
Proof.
  intros name Hfree. author_run.
  change (moduleName (_module rt) +:+ "_" +:+ dotProductIntName) with name.
  rewrite (uniqueName_free _ _ Hfree). unfold fe_GetFunction, set_functions. simpl.
  rewrite !alter_insert_eq. reflexivity.
Qed.

(** X10: on a module where the two names are free, the dot-product getters
    write [<module>_DotProductFloat] and [<module>_DotProductInt]: two
    functions of the module, each with a body, each marked for the header,
    each returning [void] and taking a 32-bit count and three pointers, to
    [double] for the one and to 32-bit integers for the other, under the
    argument names [count], [pLVector], [pRVector] and [pResult]. *)
Theorem dot_product_functions (rt : IRRuntime) :
  let floatName := moduleName (_module rt) +:+ "_DotProductFloat" in
  let intName := moduleName (_module rt) +:+ "_DotProductInt" in
  functions (_module rt) !! floatName = None ->
  functions (_module rt) !! intName = None ->
  let '(floatFunction, rt1) := GetDotProductFloatFunction rt in
  let '(intFunction, rt2) := GetDotProductIntFunction rt1 in
  floatFunction = Some floatName /\ intFunction = Some intName
  /\ functions (_module rt2) !! floatName
     = Some {| fn_type := FunctionType_get VoidTy
                 [IntegerTy 32; PointerTy DoubleTy; PointerTy DoubleTy; PointerTy DoubleTy]
                 false;
               fn_argNames := ["count"; "pLVector"; "pRVector"; "pResult"];
               fn_body := Some (Some DotProductBody);
               fn_inHeader := true |}
  /\ functions (_module rt2) !! intName
     = Some {| fn_type := FunctionType_get VoidTy
                 [IntegerTy 32; PointerTy (IntegerTy 32); PointerTy (IntegerTy 32);
                  PointerTy (IntegerTy 32)] false;
               fn_argNames := ["count"; "pLVector"; "pRVector"; "pResult"];
               fn_body := Some (Some DotProductBody);
               fn_inHeader := true |}
  /\ authoredBodies (_module rt2) = S (S (authoredBodies (_module rt))).
Proof.
  intros floatName intName Hfloat Hint.
  assert (floatName <> intName) as Hne.
  { intros Heq%string_app_inj. discriminate. }
  rewrite (GetDotProductFloatFunction_free rt Hfloat). fold floatName.
  set (rt1 := set_module _ rt).
  assert (functions (_module rt1) !! intName = None) as Hint1.
  { simpl. by rewrite lookup_insert_ne. }
  rewrite (GetDotProductIntFunction_free rt1 Hint1).
  change (moduleName (_module rt1)) with (moduleName (_module rt)). fold intName.
  split; [done|]. split; [done|]. simpl. split; [|split].
  - rewrite lookup_insert_ne by done. by rewrite lookup_insert_eq.
  - by rewrite lookup_insert_eq.
  - etrans; [exact (authoredBodies_define (_module rt1) intName
        {| fn_type := FunctionType_get VoidTy
             [IntegerTy 32; PointerTy (IntegerTy 32); PointerTy (IntegerTy 32);
              PointerTy (IntegerTy 32)] false;
           fn_argNames := ["count"; "pLVector"; "pRVector"; "pResult"];
           fn_body := Some (Some DotProductBody);
           fn_inHeader := true |} Hint1 eq_refl)|].
    f_equal. exact (authoredBodies_define (_module rt) floatName
        {| fn_type := FunctionType_get VoidTy
             [IntegerTy 32; PointerTy DoubleTy; PointerTy DoubleTy; PointerTy DoubleTy] false;
           fn_argNames := ["count"; "pLVector"; "pRVector"; "pResult"];
           fn_body := Some (Some DotProductBody);
           fn_inHeader := true |} Hfloat eq_refl).
Qed.

(** X10 on a new provider: the two functions are [model_DotProductFloat] and
    [model_DotProductInt]. *)
Lemma dot_product_functions_witness :
  let '(floatFunction, rt1) := GetDotProductFloatFunction (newProvider 64 false) in
  let '(intFunction, rt2) := GetDotProductIntFunction rt1 in
  floatFunction = Some "model_DotProductFloat" /\ intFunction = Some "model_DotProductInt"
  /\ authoredBodies (_module rt2) = 2%nat.
Proof.
  generalize (dot_product_functions (newProvider 64 false) eq_refl eq_refl).
  destruct (GetDotProductFloatFunction (newProvider 64 false)) as [floatFunction rt1].
  destruct (GetDotProductIntFunction rt1) as [intFunction rt2].
  intros (Hf & Hi & _ & _ & Hcount). repeat split; assumption.
Defined.

(** ** What the getters answer *)

Section Answers.
Implicit Types (rt : IRRuntime) (r : Request).

Lemma declaring_getter_handle name ty rt :
  (onModule (getOrInsertFunction name ty) rt).1 <> None.
Proof.
  pose proof (declaring_getter name ty rt) as Hd.
  destruct (onModule _ rt) as [first rt1]. by destruct Hd as (Hhandle & _).
Qed.

Lemma GetBlasFunction_handle useBlas argTypes blasName noblasName emit rt :
  (forall module,
     let symbol := uniqueName module noblasName in
     exists body module',
       defines module symbol body module'
       /\ emit noblasName argTypes module = (Some symbol, module')) ->
  (GetBlasFunction useBlas argTypes blasName noblasName emit rt).1 <> None.
Proof.
  intros Hemit. destruct useBlas.
  - apply declaring_getter_handle.
  - destruct (functions (_module rt) !! noblasName) eqn:E.
    + unfold GetBlasFunction, GetFunction, getFunction. run_state. by rewrite E.
    + unfold GetBlasFunction, GetFunction, getFunction. run_state. rewrite E. simpl.
      destruct (Hemit (_module rt)) as (body & module' & _ & ->). done.
Qed.

Lemma serve_answer r rt :
  inScope r = true ->
  match (serve r rt).1 with
  | inl e =>
      e = MkEmitterException functionNotFound
      /\ exists argType, r = ReqTanh argType /\ argType <> Float /\ argType <> Double
  | inr f => f <> None
  end.
Proof.
  intros _.
  destruct r; cbn [serve]; try (rewrite lift_fst; apply declaring_getter_handle).
  - rewrite lift_fst. destruct (GetDotProductFloatFunction_run rt) as (module' & _ & ->). done.
  - rewrite lift_fst. destruct (GetDotProductIntFunction_run rt) as (module' & _ & ->). done.
  - destruct (_pGetCurrentTimeFunction rt) as [f|] eqn:Hc.
    + unfold GetCurrentTimeFunction. by rewrite (GetCurrentTimeFunctionWith_cached _ _ _ Hc).
    + destruct (GetCurrentTimeFunction_first rt Hc) as (clock & module' & _ & _ & ->). done.
  - destruct argType;
      try (simpl; split; [done|]; eexists; split; [done|]; split; discriminate).
    + rewrite GetTanhFunction_Float, lift_fst. apply declaring_getter_handle.
    + rewrite GetTanhFunction_Double, lift_fst. apply declaring_getter_handle.
  - rewrite lift_fst. apply GetBlasFunction_handle. intros module.
    destruct (EmitGEMVFunction_run Float "noblas_sgemv" (gemvArgTypes Float FloatPointer) module)
      as (module' & Hdef & Heq). eauto.
  - rewrite lift_fst. apply GetBlasFunction_handle. intros module.
    destruct (EmitGEMVFunction_run Double "noblas_dgemv" (gemvArgTypes Double DoublePointer) module)
      as (module' & Hdef & Heq). eauto.
  - rewrite lift_fst. apply GetBlasFunction_handle. intros module.
    destruct (EmitGEMMFunction_run Float "noblas_sgemm" (gemmArgTypes Float FloatPointer) module)
      as (module' & Hdef & Heq). eauto.
  - rewrite lift_fst. apply GetBlasFunction_handle. intros module.
    destruct (EmitGEMMFunction_run Double "noblas_dgemm" (gemmArgTypes Double DoublePointer) module)
      as (module' & Hdef & Heq). eauto.
  - rewrite lift_fst. unfold GetOpenBLASGetNumThreadsFunction, GetIntType.
    unfold mbind, state_bind, gets. cbn [fst snd].
    destruct (decide _); apply declaring_getter_handle.
  - rewrite lift_fst. unfold GetOpenBLASSetNumThreadsFunction, GetIntType.
    unfold mbind, state_bind, gets. cbn [fst snd].
    destruct (decide _); apply declaring_getter_handle.
Qed.
End Answers.

(** X11: in a sequence of requests served one after the other, in which the
    intrinsics are asked for at the floating-point types, the only request
    that is answered with an exception is [GetTanhFunction] for a type other
    than [Float] and [Double], and the exception is [functionNotFound];
    every other request is answered with a function, never with
    [nullptr]. *)
Theorem only_tanh_throws (rs : list Request) (rt : IRRuntime) (i : nat)
    (r : Request) (a : EmitterException + LLVMFunction) :
  Forall (fun r => inScope r = true) rs ->
  rs !! i = Some r ->
  (serveAll rs rt).1 !! i = Some a ->
  match a with
  | inl e =>
      e = MkEmitterException functionNotFound
      /\ exists argType, r = ReqTanh argType /\ argType <> Float /\ argType <> Double
  | inr f => f <> None
  end.
Proof.
  intros Hscope. revert rt i.
  induction Hscope as [|r0 rs Hr0 Hscope IH]; intros rt i Hr Ha; [done|].
  rewrite serveAll_cons in Ha. destruct i as [|i]; simpl in *.
  - injection Hr as ->. injection Ha as <-. by apply serve_answer.
  - by eapply IH.
Qed.

(** X11 on a new provider: of a square root for [Double], a hyperbolic
    tangent for [Int32] and the current-time function, the second is
    answered with the exception. *)
Lemma only_tanh_throws_witness :
  (serveAll [ReqSqrt Double; ReqTanh Int32; ReqCurrentTime] (newProvider 64 false)).1 !! 1%nat
  = Some (inl (MkEmitterException functionNotFound))
  /\ exists argType, ReqTanh Int32 = ReqTanh argType /\ argType <> Float /\ argType <> Double.
Proof.
  split; [reflexivity|].
  assert (Forall (fun r => inScope r = true) [ReqSqrt Double; ReqTanh Int32; ReqCurrentTime])
    as Hscope by (repeat constructor).
  exact (proj2 (only_tanh_throws [ReqSqrt Double; ReqTanh Int32; ReqCurrentTime]
    (newProvider 64 false) 1 (ReqTanh Int32) (inl (MkEmitterException functionNotFound))
    Hscope eq_refl eq_refl)).
Defined.

(** ** The fallback kernels, from the request to the result *)

Section KernelResults.
Context {V : Type} `{ValueOps V}.
Implicit Types (rt : IRRuntime) (mem : Memory V) (h g : Z -> V).

Lemma fold_left_invariant {A B} (P : A -> Prop) (f : A -> B -> A) (l : list B) (a : A) :
  (forall a b, b ∈ l -> P a -> P (f a b)) -> P a -> P (fold_left f l a).
Proof.
  revert a. induction l as [|b l IH]; intros a Hstep Ha; simpl; [done|].
  apply IH.
  - intros a' b' Hb'. apply Hstep. by right.
  - apply Hstep; [left | done].
Qed.

(** GEMM changes no place other than the elements it clears and the elements
    [C[i*ldc + j]] it accumulates into. *)
Lemma gemm_spec_frame (transposeA transposeB : bool)
    (m n k_dim A lda B ldb C ldc : Z) h (a : Z) :
  (forall e, 0 <= e < (m * ldc)%i32 -> a <> C + e) ->
  (forall i j, 0 <= i < m -> 0 <= j < n -> a <> C + (i * ldc + j)%i32) ->
  gemm_spec transposeA transposeB m n k_dim A lda B ldb C ldc h a = h a.
Proof.
  intros Hclear Hcells. unfold gemm_spec.
  apply (fold_left_invariant (fun g => g a = h a)).
  - intros g i Hi%elem_of_seqZ Hg.
    apply (fold_left_invariant (fun g => g a = h a)); [|done].
    intros g1 k _ Hg1.
    apply (fold_left_invariant (fun g => g a = h a)); [|done].
    intros g2 j Hj%elem_of_seqZ Hg2. unfold gemm_accumulate.
    rewrite fn_lookup_insert_ne; [done|]. apply not_eq_sym, Hcells; lia.
  - by apply gemm_clear_lookup.
Qed.

Lemma GEMVFunction_status (order transpose m n : Z) (alpha : V) (A lda x incx : Z)
    (beta : V) (y incy : Z) mem :
  (GEMVFunction order transpose m n alpha A lda x incx beta y incy mem).1 = 0.
Proof. unfold GEMVFunction, Variable_. run_state. by destruct (For m _ mem). Qed.

Lemma GEMMFunction_status (order transA transB m n k : Z) (alpha : V)
    (A lda B ldb : Z) (beta : V) (C ldc : Z) mem :
  (GEMMFunction order transA transB m n k alpha A lda B ldb beta C ldc mem).1 = 0.
Proof.
  unfold GEMMFunction. run_state.
  destruct (MemorySet _ _ _ _ mem) as [[] mem1]. by destruct (For m _ mem1).
Qed.

(** X12: from the request to the result of GEMV.  On a module that has no
    function of the fallback name, the function that
    [GetGEMVFunction<ValueType>(false)] returns can be called, returns the
    status zero, and, when the elements [y[i*incy]] are different places for
    different rows and none of them is an element of [A] or of [x] that is
    read, leaves [y[i*incy]] equal to the product of row [i] of [A] with [x]
    on the memory the call started from, added up from zero and from left to
    right; every other place of the caller's memory is as it was.  The result
    is [A x]: [alpha], [beta] and the old [y] do not enter it. *)
Theorem fallback_gemv_product (ValueType : BlasValueType) rt
    (order transpose m n : Z) (alpha : V) (A lda x incx : Z) (beta : V) (y incy : Z) mem :
  getFunction (_module rt)
    match ValueType with blas_float => "noblas_sgemv" | blas_double => "noblas_dgemv" end
  = None ->
  (forall i i', 0 <= i < i' -> i' < m -> (i * incy)%i32 <> (i' * incy)%i32) ->
  (forall i i' j, 0 <= i < m -> 0 <= i' < m -> 0 <= j < n ->
     y + (i * incy)%i32 <> A + (i' * lda + j)%i32) ->
  (forall i j, 0 <= i < m -> 0 <= j < n ->
     y + (i * incy)%i32 <> x + (j * incx)%i32) ->
  let '(f, rt') := GetGEMVFunction ValueType false rt in
  exists kernel,
    runKernel (_module rt') f (GEMVCall order transpose m n alpha A lda x incx beta y incy)
    = Some kernel
    /\ (kernel mem).1 = 0
    /\ (forall i, 0 <= i < m ->
          heap (kernel mem).2 (y + (i * incy)%i32)
          = fold_left
              (fun accum j =>
                 vadd accum (vmul (heap mem (A + (i * lda + j)%i32))
                                  (heap mem (x + (j * incx)%i32))))
              (seqZ 0 n) vzero)
    /\ (forall a, (forall i, 0 <= i < m -> a <> y + (i * incy)%i32) ->
          heap (kernel mem).2 a = heap mem a).
Proof.
  intros Hfree Hrows HA Hx.
  pose proof (GetGEMVFunction_kernel ValueType rt
    (GEMVCall order transpose m n alpha A lda x incx beta y incy)) as Hkernel.
  cbv zeta in Hkernel. specialize (Hkernel Hfree).
  destruct (GetGEMVFunction ValueType false rt) as [f rt']. destruct Hkernel as [_ Hkernel].
  eexists. split; [exact Hkernel|]. split; [apply GEMVFunction_status|]. split.
  - intros i Hi. by apply GEMVFunction_product.
  - intros a Ha. rewrite GEMVFunction_heap. by apply gemv_spec_product.
Qed.

(** X13: from the request to the result of GEMM.  On a module that has no
    function of the fallback name, the function that
    [GetGEMMFunction<ValueType>(false)] returns can be called, returns the
    status zero, and, when the elements [C[i*ldc + j]] are different places
    for different [(i, j)], all among the [m*ldc] elements that are cleared,
    and no cleared place is an element of [A] or of [B] that is read, leaves
    [C[i*ldc + j]] equal to the product of row [i] of the (possibly
    transposed) [A] with column [j] of the (possibly transposed) [B] on the
    memory the call started from; every place outside the [m*ldc] cleared
    elements is as it was.  The result is [A B]: [alpha], [beta] and the old
    [C] do not enter it. *)
Theorem fallback_gemm_product (ValueType : BlasValueType) rt
    (order transA transB m n k_dim : Z) (alpha : V) (A lda B ldb : Z) (beta : V)
    (C ldc : Z) mem :
  let transposeA := bool_decide (transA = 112) in
  let transposeB := bool_decide (transB = 112) in
  getFunction (_module rt)
    match ValueType with blas_float => "noblas_sgemm" | blas_double => "noblas_dgemm" end
  = None ->
  (forall i j, 0 <= i < m -> 0 <= j < n ->
     0 <= (i * ldc + j)%i32 < (m * ldc)%i32) ->
  (forall i j i' j', 0 <= i < m -> 0 <= j < n -> 0 <= i' < m -> 0 <= j' < n ->
     (i * ldc + j)%i32 = (i' * ldc + j')%i32 -> i = i' /\ j = j') ->
  (forall e i k, 0 <= e < (m * ldc)%i32 -> 0 <= i < m -> 0 <= k < k_dim ->
     C + e <> A + gemm_aOffset transposeA lda i k) ->
  (forall e k j, 0 <= e < (m * ldc)%i32 -> 0 <= k < k_dim -> 0 <= j < n ->
     C + e <> B + gemm_bOffset transposeB ldb k j) ->
  let '(f, rt') := GetGEMMFunction ValueType false rt in
  exists kernel,
    runKernel (_module rt') f
      (GEMMCall order transA transB m n k_dim alpha A lda B ldb beta C ldc)
    = Some kernel
    /\ (kernel mem).1 = 0
    /\ (forall i j, 0 <= i < m -> 0 <= j < n ->
          heap (kernel mem).2 (C + (i * ldc + j)%i32)
          = fold_left
              (fun accum k =>
                 vadd accum (vmul (heap mem (A + gemm_aOffset transposeA lda i k))
                                  (heap mem (B + gemm_bOffset transposeB ldb k j))))
              (seqZ 0 k_dim) vzero)
    /\ (forall a, (forall e, 0 <= e < (m * ldc)%i32 -> a <> C + e) ->
          heap (kernel mem).2 a = heap mem a).
Proof.
  intros transposeA transposeB Hfree Hin Hinj HA HB.
  pose proof (GetGEMMFunction_kernel ValueType rt
    (GEMMCall order transA transB m n k_dim alpha A lda B ldb beta C ldc)) as Hkernel.
  cbv zeta in Hkernel. specialize (Hkernel Hfree).
  destruct (GetGEMMFunction ValueType false rt) as [f rt']. destruct Hkernel as [_ Hkernel].
  eexists. split; [exact Hkernel|]. split; [apply GEMMFunction_status|]. split.
  - intros i j Hi Hj. by apply GEMMFunction_product.
  - intros a Ha. rewrite GEMMFunction_heap. apply gemm_spec_frame; [done|].
    intros i j Hi Hj. apply Ha. by apply Hin.
Qed.

(** X14: the kernels on an empty dimension, for dimensions that are not
    negative.  GEMV with no row changes nothing; with rows but no column it
    stores zero to every [y[i*incy]], whatever [beta] and the old [y] are.
    GEMM with no row changes nothing; with no column, or with an inner
    dimension of zero, and a count [m*ldc] of elements to clear that is not
    negative, no product is added and what is left is the clearing of those
    elements of [C]: the result is zero, whatever [beta] and the old [C]
    are. *)
Theorem kernels_on_empty_dimensions (order transpose transA transB m n k : Z) (alpha : V)
    (A lda x incx B ldb : Z) (beta : V) (y incy C ldc : Z) mem :
  (m = 0 ->
   GEMVFunction order transpose m n alpha A lda x incx beta y incy mem = (0, mem))
  /\ (0 <= m -> n = 0 ->
      heap (GEMVFunction order transpose m n alpha A lda x incx beta y incy mem).2
      = fold_left (fun h i => <[y + (i * incy)%i32 := vzero]> h) (seqZ 0 m) (heap mem))
  /\ (m = 0 ->
      GEMMFunction order transA transB m n k alpha A lda B ldb beta C ldc mem = (0, mem))
  /\ (0 <= m -> 0 <= n -> 0 <= k -> 0 <= (m * ldc)%i32 -> n = 0 \/ k = 0 ->
      heap (GEMMFunction order transA transB m n k alpha A lda B ldb beta C ldc mem).2
      = gemm_clear m C ldc (heap mem)).
Proof.
  split; [|split; [|split]].
  - intros ->. unfold GEMVFunction, Variable_, For. by destruct mem.
  - intros _ ->. rewrite GEMVFunction_heap. unfold gemv_spec, gemv_row.
    by rewrite (seqZ_nil 0 0) by lia.
  - intros ->. unfold GEMMFunction, MemorySet, For.
    replace (ldc * 0)%i32 with 0 by (unfold mul32; by rewrite Z.mul_0_r).
    by destruct mem.
  - intros _ _ _ _ Hempty. rewrite GEMMFunction_heap. unfold gemm_spec.
    destruct Hempty as [->| ->].
    + apply fold_left_unchanged. intros g i _.
      apply fold_left_unchanged. intros g1 k1 _.
      by rewrite (seqZ_nil 0 0) by lia.
    + apply fold_left_unchanged. intros g i _. by rewrite (seqZ_nil 0 0) by lia.
Qed.
End KernelResults.

Ltac zero_or_one i := assert (i = 0 \/ i = 1) as [->| ->] by lia.

(** X12 on integers, on a new provider: with [A = [[1, 2], [3, 4]]] at address
    0, [x = [11, 12]] at address 10 and [y] at address 20, the function that
    the request returns stores [A x = [35, 81]] and leaves [x] as it was. *)
Lemma fallback_gemv_product_witness :
  let mem := {| heap := fun a => a + 1; stack := fun _ => 7 |} in
  let '(f, rt') := GetGEMVFunction blas_float false (newProvider 64 false) in
  exists kernel,
    runKernel (_module rt') f (GEMVCall 101 111 2 2 5 0 2 10 1 5 20 1) = Some kernel
    /\ (kernel mem).1 = 0
    /\ heap (kernel mem).2 20 = 35 /\ heap (kernel mem).2 21 = 81
    /\ heap (kernel mem).2 10 = 11.
Proof.
  intros mem.
  assert (forall i i', 0 <= i < i' -> i' < 2 -> (i * 1)%i32 <> (i' * 1)%i32) as Hrows.
  { intros i i' Hi Hi'. assert (i = 0) as -> by lia. assert (i' = 1) as -> by lia.
    vm_compute. discriminate. }
  assert (forall i i' j, 0 <= i < 2 -> 0 <= i' < 2 -> 0 <= j < 2 ->
            20 + (i * 1)%i32 <> 0 + (i' * 2 + j)%i32) as HA.
  { intros i i' j Hi Hi' Hj. zero_or_one i; zero_or_one i'; zero_or_one j;
      vm_compute; discriminate. }
  assert (forall i j, 0 <= i < 2 -> 0 <= j < 2 ->
            20 + (i * 1)%i32 <> 10 + (j * 1)%i32) as Hx.
  { intros i j Hi Hj. zero_or_one i; zero_or_one j; vm_compute; discriminate. }
  generalize (fallback_gemv_product (V := Z) blas_float (newProvider 64 false)
    101 111 2 2 5 0 2 10 1 5 20 1 mem eq_refl Hrows HA Hx).
  destruct (GetGEMVFunction blas_float false (newProvider 64 false)) as [f rt'].
  intros (kernel & Hkernel & Hstatus & Hproduct & Hframe).
  exists kernel. split; [exact Hkernel|]. split; [exact Hstatus|].
  split; [exact (Hproduct 0 ltac:(lia))|]. split; [exact (Hproduct 1 ltac:(lia))|].
  apply (Hframe 10). intros i Hi. zero_or_one i; vm_compute; discriminate.
Defined.

(** X13 on integers, on a new provider: with [A = [[1, 2], [3, 4]]] at address
    0, [B] at address 10 holding [[[11, 12], [13, 14]]] and passed as
    transposed, and [C] at address 20, the function that the request returns
    leaves [C[0] = 1*11 + 2*12 = 35] and [C[3] = 3*13 + 4*14 = 95], and the
    place 30 outside [C] as it was. *)
Lemma fallback_gemm_product_witness :
  let mem := {| heap := fun a => a + 1; stack := fun _ => 7 |} in
  let '(f, rt') := GetGEMMFunction blas_double false (newProvider 64 false) in
  exists kernel,
    runKernel (_module rt') f (GEMMCall 101 111 112 2 2 2 5 0 2 10 2 5 20 2) = Some kernel
    /\ (kernel mem).1 = 0
    /\ heap (kernel mem).2 20 = 35 /\ heap (kernel mem).2 23 = 95
    /\ heap (kernel mem).2 30 = 31.
Proof.
  intros mem.
  assert (forall i j, 0 <= i < 2 -> 0 <= j < 2 -> 0 <= (i * 2 + j)%i32 < (2 * 2)%i32)
    as Hin.
  { intros i j Hi Hj. zero_or_one i; zero_or_one j; vm_compute; split; congruence. }
  assert (forall i j i' j', 0 <= i < 2 -> 0 <= j < 2 -> 0 <= i' < 2 -> 0 <= j' < 2 ->
            (i * 2 + j)%i32 = (i' * 2 + j')%i32 -> i = i' /\ j = j') as Hinj.
  { intros i j i' j' Hi Hj Hi' Hj'.
    zero_or_one i; zero_or_one j; zero_or_one i'; zero_or_one j';
      vm_compute; intros Heq; first [discriminate Heq | split; reflexivity]. }
  assert (forall e i k, 0 <= e < (2 * 2)%i32 -> 0 <= i < 2 -> 0 <= k < 2 ->
            20 + e <> 0 + gemm_aOffset (bool_decide (111 = 112)) 2 i k) as HA.
  { intros e i k He Hi Hk. change (2 * 2)%i32 with 4 in He.
    zero_or_one i; zero_or_one k;
      match goal with |- _ <> 0 + ?o => let v := eval vm_compute in o in change o with v end;
      lia. }
  assert (forall e k j, 0 <= e < (2 * 2)%i32 -> 0 <= k < 2 -> 0 <= j < 2 ->
            20 + e <> 10 + gemm_bOffset (bool_decide (112 = 112)) 2 k j) as HB.
  { intros e k j He Hk Hj. change (2 * 2)%i32 with 4 in He.
    zero_or_one k; zero_or_one j;
      match goal with |- _ <> 10 + ?o => let v := eval vm_compute in o in change o with v end;
      lia. }
  generalize (fallback_gemm_product (V := Z) blas_double (newProvider 64 false)
    101 111 112 2 2 2 5 0 2 10 2 5 20 2 mem eq_refl Hin Hinj HA HB).
  destruct (GetGEMMFunction blas_double false (newProvider 64 false)) as [f rt'].
  intros (kernel & Hkernel & Hstatus & Hproduct & Hframe).
  exists kernel. split; [exact Hkernel|]. split; [exact Hstatus|].
  split; [exact (Hproduct 0 0 ltac:(lia) ltac:(lia))|].
  split; [exact (Hproduct 1 1 ltac:(lia) ltac:(lia))|].
  apply (Hframe 30). intros e He. change (2 * 2)%i32 with 4 in He. lia.
Defined.

(** X14 on integers: GEMV with no row leaves the memory as it is, and GEMM
    on two rows and two columns with an inner dimension of zero leaves zero
    in the four elements of [C] (at the addresses 20 to 23) and the place
    after them as it was. *)
Lemma kernels_on_empty_dimensions_witness :
  let mem := {| heap := fun a => a + 1; stack := fun _ => 7 |} in
  GEMVFunction (V := Z) 101 111 0 2 5 0 2 10 1 5 20 1 mem = (0, mem)
  /\ heap (GEMMFunction (V := Z) 101 111 111 2 2 0 5 0 2 10 2 5 20 2 mem).2 20 = 0
  /\ heap (GEMMFunction (V := Z) 101 111 111 2 2 0 5 0 2 10 2 5 20 2 mem).2 23 = 0
  /\ heap (GEMMFunction (V := Z) 101 111 111 2 2 0 5 0 2 10 2 5 20 2 mem).2 24 = 25.
Proof.
  intros mem.
  destruct (kernels_on_empty_dimensions (V := Z) 101 111 111 111 0 2 2 5 0 2 10 1 10 2 5
    20 1 20 2 mem) as (Hgemv & _).
  destruct (kernels_on_empty_dimensions (V := Z) 101 111 111 111 2 2 0 5 0 2 10 1 10 2 5
    20 1 20 2 mem) as (_ & _ & _ & Hgemm).
  split; [apply Hgemv; reflexivity|].
  rewrite Hgemm; [repeat split; reflexivity | lia | lia | lia | vm_compute; discriminate
                 | right; reflexivity].
Defined.

(** ** The current time on a Windows target, from the request to the result *)

Section TimingResults.
Context {double : Type} `{DoubleOps double}.
Variable CLOCK_REALTIME : Z.
Variable externals : string -> Callee.

(** A definition under a new symbol leaves the bodies of the other functions
    as they are. *)
Lemma defines_other module symbol body module' other :
  defines module symbol body module' ->
  other <> symbol ->
  functionBody module' (Some other) = functionBody module (Some other).
Proof.
  intros (def & _ & ->) Hne. unfold functionBody. simpl.
  by rewrite lookup_insert_ne.
Qed.

(** X15: the milliseconds that [GetTime] returns on a Windows target.  The
    function that the first call of [GetCurrentTimeFunction] returns can be
    called; when the Win32 functions write the counter and the frequency, a
    call makes one call of the resolved clock-read function, which makes the
    two Win32 calls, and returns [(s + r / 1e9) * 1000], where [s] is
    [counter / frequency] truncated to whole seconds and [r] is the
    fractional remainder scaled by 10,000,000, as the replacement
    [clock_gettime] has stored it in the second member of the struct: the
    remainder is written in units of 100 nanoseconds and read as
    nanoseconds. *)
Theorem windows_GetTime_result (rt : IRRuntime) (counter frequency : Z) (st : Machine) :
  IsWindows (targetDevice (compilerOptions (_module rt))) = true ->
  _pGetCurrentTimeFunction rt = None ->
  writesValue counter (externals "QueryPerformanceCounter") ->
  writesValue frequency (externals "QueryPerformanceFrequency") ->
  let '(answer, rt') := GetCurrentTimeFunction rt in
  let timespecType := _posixRuntime rt in
  let bits :=
    if decide (getElementType timespecType 0 = IntegerTy 64) then 64%N else 32%N in
  let seconds := fdiv (sitofp counter) (sitofp frequency) in
  let wholeSeconds := sitofp (fptosi 64 seconds) in
  let tv_sec := fptosi bits wholeSeconds in
  let tv_nsec := fptosi bits (fmul (fsub seconds wholeSeconds) (fconst 10000000)) in
  exists f clock run,
    answer = inr (Some f)
    /\ runGetTime CLOCK_REALTIME externals (_module rt') (Some f) = Some run
    /\ (run st).1
       = fmul
           (fadd (sitofp tv_sec)
              (fdiv
                 (sitofp (tv_nsec
                          `mod` 2 ^ Z.of_N (integerBits (getElementType timespecType 1))))
                 (fconst 1000000000)))
           (fconst 1000)
    /\ trace (run st).2
       = (trace st
          ++ [AllocaEvent "tp" (NamedStructTy (structName timespecType));
              CallEvent clock [IntArg CLOCK_REALTIME; PtrArg (Local "tp")];
              AllocaEvent "time" (IntegerTy 64);
              AllocaEvent "freq" (IntegerTy 64);
              CallEvent "QueryPerformanceCounter" [PtrArg (Local "time")];
              CallEvent "QueryPerformanceFrequency" [PtrArg (Local "freq")]])%list.
Proof.
  intros Hwindows Hc Hqpc Hqpf.
  destruct (GetCurrentTimeFunction_first rt Hc) as (clock & module' & Hclock & Hdef & ->).
  rewrite <- declared_windows in Hwindows.
  destruct (windows_module_after_resolve (_posixRuntime rt) (declared rt) Hwindows)
    as (symbol & Hsymbol & _ & Hbody & _).
  rewrite Hclock in Hsymbol. injection Hsymbol as <-.
  set (rt2 := (ResolveCurrentTimeFunction (_posixRuntime rt) (declared rt)).2) in *.
  set (f := uniqueName (_module rt2) _) in *.
  assert (clock <> f) as Hne.
  { intros ->. pose proof (uniqueName_fresh (_module rt2)
      (moduleName (_module rt2) +:+ "_" +:+ getTimeFunctionName)) as Hfresh.
    fold f in Hfresh. unfold functionBody in Hbody. simpl in Hbody.
    by rewrite Hfresh in Hbody. }
  exists f, clock. eexists. split; [done|].
  cbn [_module set_pGetCurrentTimeFunction set_module].
  unfold runGetTime. rewrite (defines_lookup _ _ _ _ Hdef). split; [reflexivity|].
  rewrite GetTimeFunction_run. cbn [fst snd].
  unfold clockBehaviour. rewrite (defines_other _ _ _ _ _ Hdef Hne), Hbody.
  rewrite (clock_gettime_windows_run _ _ _ _ _ counter frequency) by done.
  cbn [fst snd cells trace].
  rewrite fn_lookup_insert, fn_lookup_insert_ne, fn_lookup_insert by done.
  split.
  - unfold getInt64Ty.
    by destruct (decide (getElementType (_posixRuntime rt) 0 = IntegerTy 64)).
  - by rewrite <- app_assoc.
Qed.
End TimingResults.

(** X15 on a 64-bit Windows target whose counter reads 123456789 at a
    frequency of 10000000 per second, with exact arithmetic: the time is
    12.3456789 seconds, the replacement stores 12 and 3456789, and [GetTime]
    returns 12003.456789 milliseconds. *)
Lemma windows_GetTime_result_witness :
  let '(answer, rt') := GetCurrentTimeFunction (newProvider 64 true) in
  exists f run,
    answer = inr (Some f)
    /\ runGetTime (double := Q) 0 (win32 123456789 10000000) (_module rt') (Some f) = Some run
    /\ ((run idle).1 == 12003456789 # 1000000)%Q.
Proof.
  pose proof (windows_GetTime_result (double := Q) 0 (win32 123456789 10000000)
    (newProvider 64 true) 123456789 10000000 idle eq_refl eq_refl) as Hrun.
  destruct (GetCurrentTimeFunction (newProvider 64 true)) as [answer rt'].
  destruct Hrun as (f & clock & run & Hanswer & Hbody & Hvalue & _).
  - intros pointer st. eexists. reflexivity.
  - intros pointer st. eexists. reflexivity.
  - exists f, run. split; [exact Hanswer|]. split; [exact Hbody|].
    rewrite Hvalue. vm_compute. reflexivity.
Defined.

(** ** Uses of the current time *)

Section CurrentTimeUses.
Implicit Types (rt : IRRuntime) (function : IRFunctionEmitter).

Lemma GetCurrentTimeFunction_answer rt :
  exists f, (GetCurrentTimeFunction rt).1 = inr (Some f).
Proof.
  destruct (_pGetCurrentTimeFunction rt) as [f|] eqn:Hc.
  - exists f. unfold GetCurrentTimeFunction.
    by rewrite (GetCurrentTimeFunctionWith_cached _ _ _ Hc).
  - destruct (GetCurrentTimeFunction_first rt Hc) as (clock & module' & _ & _ & ->).
    by eexists.
Qed.

Lemma GetCurrentTimes_cached function count rt f :
  GetCurrentTimeFunction rt = (inr (Some f), rt) ->
  GetCurrentTimes function count rt
  = (inr (replicate count {| call_callee := Some f; call_arguments := [] |}), rt).
Proof.
  intros Hcached. induction count as [|count IH]; [done|].
  cbn [GetCurrentTimes replicate]. unfold GetCurrentTime.
  unfold mbind, mret, throwing_bind, throwing_ret in *.
  rewrite Hcached. cbn. rewrite IH. done.
Qed.
End CurrentTimeUses.

(** X16: however many times the current time is used, the function is
    resolved and written once.  [count + 1] uses of [GetCurrentTime] in a row
    never throw, give as many calls of one and the same function, each
    without arguments, and leave the provider as one call of
    [GetCurrentTimeFunction] leaves it. *)
Theorem GetCurrentTime_calls_one_function (function : IRFunctionEmitter) (count : nat)
    (rt : IRRuntime) :
  exists f,
    GetCurrentTimeFunction rt = (inr (Some f), (GetCurrentTimeFunction rt).2)
    /\ GetCurrentTimes function (S count) rt
       = (inr (replicate (S count) {| call_callee := Some f; call_arguments := [] |}),
          (GetCurrentTimeFunction rt).2).
Proof.
  destruct (GetCurrentTimeFunction_answer rt) as [f Hf].
  pose proof (GetCurrentTimeFunction_idempotent rt) as Hidem.
  destruct (GetCurrentTimeFunction rt) as [first rt1] eqn:Hfirst.
  cbn [fst snd] in *. subst first. exists f. split; [done|].
  cbn [GetCurrentTimes replicate]. unfold GetCurrentTime.
  unfold mbind, mret, throwing_bind, throwing_ret.
  rewrite Hfirst. cbn.
  pose proof (GetCurrentTimes_cached function count rt1 f Hidem) as Hrest.
  unfold mbind, mret, throwing_bind, throwing_ret in Hrest. by rewrite Hrest.
Qed.

(** ** The timer of the wrapper class *)

Section TimerFacts.
Context {double : Type} `{DoubleOps double}.
Variables periodNum periodDen : Z.
Variable clock : nat -> Z.

(** A call on a started timer reads the clock once. *)
Lemma GetMilliseconds_started (w : Wrapper) :
  _started w = true ->
  GetMilliseconds periodNum periodDen clock w
  = (fdiv (sitofp (duration_cast_microseconds periodNum periodDen
       (clock (clockReadings w) - _start w))) (fconst 1000),
     {| _start := _start w; _started := true; clockReadings := S (clockReadings w) |}).
Proof.
  intros Hstarted. unfold GetMilliseconds, now. run_state. rewrite Hstarted. simpl.
  by rewrite Hstarted.
Qed.

(** A call on a timer that is not started reads the clock twice. *)
Lemma GetMilliseconds_first (w : Wrapper) :
  _started w = false ->
  GetMilliseconds periodNum periodDen clock w
  = (fdiv (sitofp (duration_cast_microseconds periodNum periodDen
       (clock (S (clockReadings w)) - clock (clockReadings w)))) (fconst 1000),
     {| _start := clock (clockReadings w); _started := true;
        clockReadings := S (S (clockReadings w)) |}).
Proof.
  intros Hstarted. unfold GetMilliseconds, now. run_state. rewrite Hstarted. done.
Qed.

Lemma runTimer_started (count : nat) (w : Wrapper) :
  _started w = true ->
  runTimer periodNum periodDen clock (replicate count CallGetMilliseconds) w
  = ((fun i => fdiv (sitofp (duration_cast_microseconds periodNum periodDen
       (clock i - _start w))) (fconst 1000)) <$> seq (clockReadings w) count,
     {| _start := _start w; _started := true;
        clockReadings := (clockReadings w + count)%nat |}).
Proof.
  revert w. induction count as [|count IH]; intros w Hstarted.
  - cbn. destruct w; simpl in *. subst. by rewrite Nat.add_0_r.
  - cbn [replicate runTimer]. unfold mbind, state_bind.
    rewrite (GetMilliseconds_started w Hstarted).
    rewrite IH by done. cbn. do 3 f_equal. lia.
Qed.
End TimerFacts.

(** X17: what the timer of the wrapper measures.  After [Reset()], on any
    wrapper, the first call of [GetMilliseconds()] reads the clock twice and
    returns the time between its two readings; each later call reads the
    clock once and returns the time since the first reading of that first
    call, in whole microseconds rounded toward zero and divided by 1000.
    [Reset()] reads no clock, and a new wrapper is as one after [Reset()]. *)
Theorem timer_measures_from_first_reading {double : Type} `{DoubleOps double}
    (periodNum periodDen : Z) (clock : nat -> Z) (count : nat) (w : Wrapper) :
  let r := clockReadings w in
  let expected :=
    ((fun i =>
        fdiv (sitofp (duration_cast_microseconds periodNum periodDen (clock i - clock r)))
          (fconst 1000)) <$> seq (S r) (S count),
     {| _start := clock r; _started := true; clockReadings := (r + S (S count))%nat |}) in
  runTimer periodNum periodDen clock (CallReset :: replicate (S count) CallGetMilliseconds) w
  = expected
  /\ (_started w = false ->
      runTimer periodNum periodDen clock (replicate (S count) CallGetMilliseconds) w
      = expected)
  /\ _started Wrapper_new = false.
Proof.
  intros r expected. subst expected.
  assert (forall w0, _started w0 = false -> clockReadings w0 = r ->
    runTimer periodNum periodDen clock (replicate (S count) CallGetMilliseconds) w0
    = ((fun i =>
          fdiv (sitofp (duration_cast_microseconds periodNum periodDen (clock i - clock r)))
            (fconst 1000)) <$> seq (S r) (S count),
       {| _start := clock r; _started := true;
          clockReadings := (r + S (S count))%nat |})) as Hrun.
  { intros w0 Hstarted Hr. cbn [replicate runTimer]. unfold mbind, state_bind.
    rewrite (GetMilliseconds_first _ _ _ w0 Hstarted).
    rewrite runTimer_started by done. rewrite Hr. cbn. do 3 f_equal. lia. }
  split; [|split; [|done]].
  - cbn [runTimer]. unfold mbind, state_bind, Reset, modify. cbn [fst snd].
    by apply Hrun.
  - intros Hstarted. by apply Hrun.
Qed.

(** X17 on a clock that advances by 1500 ticks of a nanosecond at each
    reading: three calls on a new wrapper return 0.001, 0.003 and 0.004
    milliseconds. *)
Lemma timer_measures_from_first_reading_witness :
  (runTimer (double := Q) 1 1000000000 (fun i => 1500 * Z.of_nat i)
     (replicate 3 CallGetMilliseconds) Wrapper_new).1
  = [1 # 1000; 3 # 1000; 4 # 1000]%Q.
Proof.
  rewrite (proj1 (proj2 (timer_measures_from_first_reading (double := Q) 1 1000000000
    (fun i => 1500 * Z.of_nat i) 2 Wrapper_new)) eq_refl).
  reflexivity.
Defined.

(** X18: the timer never returns a negative time.  When the clock never goes
    back and the period of its tick is positive, every call of
    [GetMilliseconds()] in any sequence of calls of [Reset()] and
    [GetMilliseconds()] on a new wrapper returns a time that is not negative
    (with exact arithmetic in place of the doubles): the start time that a
    started timer holds is always an earlier reading of the clock. *)
Theorem timer_never_negative (periodNum periodDen : Z) (clock : nat -> Z)
    (calls : list TimerCall) :
  0 <= periodNum -> 0 < periodDen ->
  (forall i j, (i <= j)%nat -> clock i <= clock j) ->
  Forall (fun ms => (0 <= ms)%Q)
    (runTimer (double := Q) periodNum periodDen clock calls Wrapper_new).1.
Proof.
  intros Hnum Hden Hmonotone.
  assert (forall ticks, 0 <= ticks ->
    (0 <= fdiv (sitofp (duration_cast_microseconds periodNum periodDen ticks))
           (fconst 1000))%Q) as Hms.
  { intros ticks Hticks. unfold duration_cast_microseconds. cbn [fdiv sitofp fconst Q_DoubleOps].
    apply Qle_shift_div_l; [reflexivity|]. rewrite Qmult_0_l.
    change 0%Q with (inject_Z 0). rewrite <- Zle_Qle.
    apply Z.quot_pos; [nia | lia]. }
  assert (forall w,
    (_started w = true -> exists j, (j < clockReadings w)%nat /\ _start w = clock j) ->
    Forall (fun ms => (0 <= ms)%Q)
      (runTimer (double := Q) periodNum periodDen clock calls w).1) as Hinvariant.
  { induction calls as [|[|] calls IH]; intros w Hw.
    - constructor.
    - cbn [runTimer]. unfold mbind, state_bind, Reset, modify. cbn [fst snd].
      apply IH. intros Hstarted. discriminate Hstarted.
    - cbn [runTimer]. unfold mbind, state_bind.
      destruct (_started w) eqn:Hstarted.
      + rewrite (GetMilliseconds_started _ _ _ w Hstarted).
        destruct (Hw eq_refl) as (j & Hj & Hstart).
        match goal with
        | |- context [runTimer _ _ _ calls ?w'] =>
            specialize (IH w'); destruct (runTimer periodNum periodDen clock calls w')
        end.
        cbn [fst snd] in *. constructor.
        * apply Hms. rewrite Hstart. specialize (Hmonotone j (clockReadings w)). lia.
        * apply IH. intros _. exists j. cbn. split; [lia | done].
      + rewrite (GetMilliseconds_first _ _ _ w Hstarted).
        match goal with
        | |- context [runTimer _ _ _ calls ?w'] =>
            specialize (IH w'); destruct (runTimer periodNum periodDen clock calls w')
        end.
        cbn [fst snd] in *. constructor.
        * apply Hms.
          specialize (Hmonotone (clockReadings w) (S (clockReadings w))). lia.
        * apply IH. intros _. exists (clockReadings w). cbn. split; [lia | done]. }
  apply Hinvariant. intros Hstarted. discriminate Hstarted.
Qed.

(** X18 on a clock that advances by 1500 ticks of a nanosecond at each
    reading, for two calls with a reset in between. *)
Lemma timer_never_negative_witness :
  Forall (fun ms => (0 <= ms)%Q)
    (runTimer (double := Q) 1 1000000000 (fun i => 1500 * Z.of_nat i)
       [CallGetMilliseconds; CallReset; CallGetMilliseconds] Wrapper_new).1.
Proof.
  apply (timer_never_negative 1 1000000000 (fun i => 1500 * Z.of_nat i)); [lia | lia |].
  intros i j Hij. lia.
Defined.

(** ** The fallback kernels on row-major buffers *)

Section RowMajor.
Context {V : Type} `{ValueOps V}.
Implicit Types (mem : Memory V).

(** An index [a*b + c] that stays below [2^31] is computed exactly. *)
Lemma index_exact (a b c : Z) :
  0 <= a * b -> 0 <= c -> a * b + c < 2 ^ 31 -> (a * b + c)%i32 = a * b + c.
Proof.
  intros Hab Hc Hbound. unfold add32. apply wrap32_exact. lia.
Qed.

Lemma product_exact (a b : Z) : 0 <= a * b < 2 ^ 31 -> (a * b)%i32 = a * b.
Proof. intros Hab. unfold mul32. apply wrap32_exact. lia. Qed.

Lemma row_bound (i m s : Z) : 0 <= i < m -> 0 <= s -> 0 <= i * s /\ i * s + s <= m * s.
Proof. intros Hi Hs. nia. Qed.

(** The offset of the element at row [r] and column [c] of a row-major buffer
    of [rows] rows of [ld] elements is computed exactly and lies in the
    buffer. *)
Lemma offset_exact (r c rows cols ld : Z) :
  0 <= r < rows -> 0 <= c < cols -> cols <= ld -> rows * ld < 2 ^ 31 ->
  (r * ld + c)%i32 = r * ld + c /\ 0 <= r * ld + c < rows * ld.
Proof.
  intros Hr Hc Hcols Hbound. destruct (row_bound r rows ld); [done | lia |].
  split; [apply index_exact|]; lia.
Qed.

Lemma aOffset_exact (transposeA : bool) (m k_dim lda i k : Z) :
  0 <= i < m -> 0 <= k < k_dim ->
  (if transposeA then m else k_dim) <= lda ->
  (if transposeA then k_dim else m) * lda < 2 ^ 31 ->
  gemm_aOffset transposeA lda i k = (if transposeA then k * lda + i else i * lda + k)
  /\ 0 <= gemm_aOffset transposeA lda i k < (if transposeA then k_dim else m) * lda.
Proof.
  intros Hi Hk Hcols Hrows. unfold gemm_aOffset. destruct transposeA.
  - destruct (offset_exact k i k_dim m lda) as [-> ?]; done.
  - destruct (offset_exact i k m k_dim lda) as [-> ?]; done.
Qed.

Lemma bOffset_exact (transposeB : bool) (n k_dim ldb k j : Z) :
  0 <= k < k_dim -> 0 <= j < n ->
  (if transposeB then k_dim else n) <= ldb ->
  (if transposeB then n else k_dim) * ldb < 2 ^ 31 ->
  gemm_bOffset transposeB ldb k j = (if transposeB then j * ldb + k else k * ldb + j)
  /\ 0 <= gemm_bOffset transposeB ldb k j < (if transposeB then n else k_dim) * ldb.
Proof.
  intros Hk Hj Hcols Hrows. unfold gemm_bOffset. destruct transposeB.
  - destruct (offset_exact j k n k_dim ldb) as [-> ?]; done.
  - destruct (offset_exact k j k_dim n ldb) as [-> ?]; done.
Qed.

(** X19: GEMV on row-major buffers of sizes that fit in 32 bits.  When [A]
    has [m] rows of [lda >= n] elements, [x] has [n] elements at the stride
    [incx > 0] and [y] has [m] elements at the stride [incy > 0], all index
    products stay below [2^31], and the elements of [y] lie apart from those
    of [A] and of [x], the kernel leaves in [y[i*incy]] the sum over [j] of
    [A[i*lda + j] * x[j*incx]], with the indices as plain integers: no index
    wraps around. *)
Theorem GEMV_row_major (order transpose m n : Z) (alpha : V) (A lda x incx : Z)
    (beta : V) (y incy : Z) mem :
  0 <= n <= lda -> m * lda < 2 ^ 31 ->
  0 < incx -> n * incx < 2 ^ 31 ->
  0 < incy -> m * incy < 2 ^ 31 ->
  (y + m * incy <= A \/ A + m * lda <= y) ->
  (y + m * incy <= x \/ x + n * incx <= y) ->
  forall i, 0 <= i < m ->
    heap (GEMVFunction order transpose m n alpha A lda x incx beta y incy mem).2
      (y + i * incy)
    = fold_left
        (fun accum j =>
           vadd accum (vmul (heap mem (A + (i * lda + j))) (heap mem (x + j * incx))))
        (seqZ 0 n) vzero.
Proof.
  intros Hn Hlda Hincx Hx Hincy Hy HyA Hyx i Hi.
  assert (forall i, 0 <= i < m -> (i * incy)%i32 = i * incy) as Hyi.
  { intros i0 Hi0. apply product_exact. destruct (row_bound i0 m incy); lia. }
  assert (forall i j, 0 <= i < m -> 0 <= j < n -> (i * lda + j)%i32 = i * lda + j) as HAi.
  { intros i0 j Hi0 Hj. destruct (offset_exact i0 j m n lda); [done | done | lia | done | done]. }
  assert (forall j, 0 <= j < n -> (j * incx)%i32 = j * incx) as Hxi.
  { intros j Hj. apply product_exact. destruct (row_bound j n incx); lia. }
  rewrite <- (Hyi i Hi). rewrite GEMVFunction_product; [..|done].
  - apply fold_left_ext_in. intros accum j Hj%elem_of_seqZ.
    by rewrite HAi, Hxi by lia.
  - intros i1 i2 Hi1 Hi2. rewrite !Hyi by lia. nia.
  - intros i1 i2 j Hi1 Hi2 Hj. rewrite Hyi, HAi by done.
    destruct (row_bound i1 m incy); [done | lia |].
    destruct (offset_exact i2 j m n lda) as [_ ?]; [done | done | lia | done |]. lia.
  - intros i1 j Hi1 Hj. rewrite Hyi, Hxi by done.
    destruct (row_bound i1 m incy), (row_bound j n incx); lia.
Qed.

(** X20: GEMM on row-major buffers of sizes that fit in 32 bits.  Let [A] be
    stored as [m] rows of [lda >= k] elements, or as [k] rows of [lda >= m]
    elements when it is passed as transposed, [B] as [k] rows of [ldb >= n]
    elements, or as [n] rows of [ldb >= k] elements when transposed, and [C]
    as [m] rows of [ldc >= n] elements.  When every buffer has fewer than
    [2^31] elements and the elements of [C] lie apart from those of [A] and
    of [B], the kernel leaves in [C[i*ldc + j]] the sum over [k] of the
    products of the element of [A] at row [i] and column [k] with the element
    of [B] at row [k] and column [j], with the indices as plain integers. *)
Theorem GEMM_row_major (order transA transB m n k_dim : Z) (alpha : V)
    (A lda B ldb : Z) (beta : V) (C ldc : Z) mem :
  let transposeA := bool_decide (transA = 112) in
  let transposeB := bool_decide (transB = 112) in
  let rowsA := if transposeA then k_dim else m in
  let colsA := if transposeA then m else k_dim in
  let rowsB := if transposeB then n else k_dim in
  let colsB := if transposeB then k_dim else n in
  n <= ldc -> m * ldc < 2 ^ 31 ->
  colsA <= lda -> rowsA * lda < 2 ^ 31 ->
  colsB <= ldb -> rowsB * ldb < 2 ^ 31 ->
  (C + m * ldc <= A \/ A + rowsA * lda <= C) ->
  (C + m * ldc <= B \/ B + rowsB * ldb <= C) ->
  forall i j, 0 <= i < m -> 0 <= j < n ->
    heap (GEMMFunction order transA transB m n k_dim alpha A lda B ldb beta C ldc mem).2
      (C + (i * ldc + j))
    = fold_left
        (fun accum k =>
           vadd accum
             (vmul (heap mem (A + if transposeA then k * lda + i else i * lda + k))
                   (heap mem (B + if transposeB then j * ldb + k else k * ldb + j))))
        (seqZ 0 k_dim) vzero.
Proof.
  intros transposeA transposeB rowsA colsA rowsB colsB
    Hldc HC Hlda HA Hldb HB HCA HCB i j Hi Hj.
  assert (forall i j, 0 <= i < m -> 0 <= j < n ->
            (i * ldc + j)%i32 = i * ldc + j /\ 0 <= i * ldc + j < m * ldc) as HCi.
  { intros i0 j0 Hi0 Hj0. by apply (offset_exact i0 j0 m n ldc). }
  assert ((m * ldc)%i32 = m * ldc) as Hcount.
  { apply product_exact. destruct (HCi i j Hi Hj). lia. }
  assert (forall i k, 0 <= i < m -> 0 <= k < k_dim ->
            gemm_aOffset transposeA lda i k
            = (if transposeA then k * lda + i else i * lda + k)
            /\ 0 <= gemm_aOffset transposeA lda i k < rowsA * lda) as HAi.
  { intros i0 k Hi0 Hk. by apply aOffset_exact. }
  assert (forall k j, 0 <= k < k_dim -> 0 <= j < n ->
            gemm_bOffset transposeB ldb k j
            = (if transposeB then j * ldb + k else k * ldb + j)
            /\ 0 <= gemm_bOffset transposeB ldb k j < rowsB * ldb) as HBi.
  { intros k j0 Hk Hj0. by apply bOffset_exact. }
  destruct (HCi i j Hi Hj) as [<- _].
  rewrite GEMMFunction_product; [|done|done|..].
  - apply fold_left_ext_in. intros accum k Hk%elem_of_seqZ.
    fold transposeA transposeB.
    destruct (HAi i k) as [-> _]; [done | lia |].
    destruct (HBi k j) as [-> _]; [lia | done |]. done.
  - intros i0 j0 Hi0 Hj0. rewrite Hcount. destruct (HCi i0 j0 Hi0 Hj0) as [-> ?]. done.
  - intros i1 j1 i2 j2 Hi1 Hj1 Hi2 Hj2.
    destruct (HCi i1 j1 Hi1 Hj1) as [-> _]. destruct (HCi i2 j2 Hi2 Hj2) as [-> _].
    intros Heq. assert (i1 = i2) as -> by nia. split; [done | lia].
  - intros e i0 k. rewrite Hcount. intros He Hi0 Hk. fold transposeA.
    destruct (HAi i0 k Hi0 Hk) as [_ ?]. lia.
  - intros e k j0. rewrite Hcount. intros He Hk Hj0. fold transposeB.
    destruct (HBi k j0 Hk Hj0) as [_ ?]. lia.
Qed.
End RowMajor.

(** X19 on integers: with [A = [[1, 2], [3, 4]]] at address 0, [x = [11, 12]]
    at address 10 and [y] at address 20, the second element of [y] is
    [3*11 + 4*12 = 81]. *)
Lemma GEMV_row_major_witness :
  let mem := {| heap := fun a => a + 1; stack := fun _ => 7 |} in
  heap (GEMVFunction (V := Z) 101 111 2 2 5 0 2 10 1 5 20 1 mem).2 21 = 81.
Proof.
  intros mem.
  exact (GEMV_row_major (V := Z) 101 111 2 2 5 0 2 10 1 5 20 1 mem
    ltac:(lia) ltac:(lia) ltac:(lia) ltac:(lia) ltac:(lia) ltac:(lia)
    ltac:(lia) ltac:(lia) 1 ltac:(lia)).
Defined.

(** X20 on integers: with [A = [[1, 2], [3, 4]]] at address 0, [B] at address
    10 holding [[[11, 12], [13, 14]]] and passed as transposed, and [C] at
    address 20, the last element of [C] is [3*13 + 4*14 = 95]. *)
Lemma GEMM_row_major_witness :
  let mem := {| heap := fun a => a + 1; stack := fun _ => 7 |} in
  heap (GEMMFunction (V := Z) 101 111 112 2 2 2 5 0 2 10 2 5 20 2 mem).2 23 = 95.
Proof.
  intros mem.
  exact (GEMM_row_major (V := Z) 101 111 112 2 2 2 5 0 2 10 2 5 20 2 mem
    ltac:(lia) ltac:(lia) ltac:(simpl; lia) ltac:(simpl; lia) ltac:(simpl; lia)
    ltac:(simpl; lia) ltac:(simpl; lia) ltac:(simpl; lia)
    1 1 ltac:(lia) ltac:(lia)).
Defined.

(** ** The cached current-time function under later requests *)

Section CacheKept.
Implicit Types (rt : IRRuntime) (r : Request).

Lemma onModule_cache {A} (c : State IRModuleEmitter A) rt :
  _pGetCurrentTimeFunction (onModule c rt).2 = _pGetCurrentTimeFunction rt.
Proof. unfold onModule. by destruct (c (_module rt)). Qed.

Lemma GetBlasFunction_cache useBlas argTypes blasName noblasName emit rt :
  _pGetCurrentTimeFunction (GetBlasFunction useBlas argTypes blasName noblasName emit rt).2
  = _pGetCurrentTimeFunction rt.
Proof.
  unfold GetBlasFunction. destruct useBlas; [apply onModule_cache|].
  unfold mbind, state_bind.
  pose proof (onModule_cache (GetFunction noblasName) rt) as Hget.
  destruct (onModule (GetFunction noblasName) rt) as [[g|] rt1]; cbn [fst snd] in *.
  - done.
  - by rewrite onModule_cache.
Qed.

(** A request other than the one for the current-time function leaves the
    cache as it is, and that one leaves a cache that is filled as it is. *)
Lemma serve_cache r rt f :
  _pGetCurrentTimeFunction rt = Some f ->
  (r = ReqCurrentTime -> (serve r rt).1 = inr (Some f))
  /\ _pGetCurrentTimeFunction (serve r rt).2 = Some f.
Proof.
  intros Hc.
  destruct r; cbn [serve];
    try (split; [discriminate|]; rewrite lift_snd, <- Hc);
    try apply onModule_cache; try apply GetBlasFunction_cache.
  - unfold GetCurrentTimeFunction.
    by rewrite (GetCurrentTimeFunctionWith_cached _ _ _ Hc).
  - split; [discriminate|].
    destruct argType; try done; cbn [GetTanhFunction]; rewrite lift_snd, <- Hc;
      apply onModule_cache.
  - unfold GetOpenBLASGetNumThreadsFunction, GetIntType.
    unfold mbind, state_bind, gets. cbn [fst snd].
    destruct (decide _); apply onModule_cache.
  - unfold GetOpenBLASSetNumThreadsFunction, GetIntType.
    unfold mbind, state_bind, gets. cbn [fst snd].
    destruct (decide _); apply onModule_cache.
Qed.

Lemma serveAll_extends (rs : list Request) rt :
  extends (_module rt) (_module (serveAll rs rt).2).
Proof.
  revert rt. induction rs as [|r rs IH]; intros rt; [apply extends_refl|].
  rewrite serveAll_cons. cbn [snd].
  eapply extends_trans; [apply providerKeeps_serve | apply IH].
Qed.

Lemma GetCurrentTimeFunction_fills rt f :
  (GetCurrentTimeFunction rt).1 = inr (Some f) ->
  _pGetCurrentTimeFunction (GetCurrentTimeFunction rt).2 = Some f.
Proof.
  destruct (_pGetCurrentTimeFunction rt) as [g|] eqn:Hc.
  - unfold GetCurrentTimeFunction. rewrite (GetCurrentTimeFunctionWith_cached _ _ _ Hc).
    cbn. by intros [= ->].
  - destruct (GetCurrentTimeFunction_first rt Hc) as (clock & module' & _ & _ & ->).
    cbn. by intros [= ->].
Qed.
End CacheKept.

(** X21: the current-time function stays.  After a call of
    [GetCurrentTimeFunction], whatever is requested from the provider
    afterwards, in any number and order, the provider still holds the same
    function, every later request for the current-time function is answered
    with it, and the module still has the function as it was: no request
    drops, replaces or rewrites it. *)
Theorem current_time_function_stays (rs : list Request) (rt : IRRuntime) :
  let '(first, rt1) := GetCurrentTimeFunction rt in
  let '(answers, rt') := serveAll rs rt1 in
  exists f,
    first = inr (Some f)
    /\ _pGetCurrentTimeFunction rt' = Some f
    /\ (forall i, rs !! i = Some ReqCurrentTime -> answers !! i = Some (inr (Some f)))
    /\ (forall def, functions (_module rt1) !! f = Some def ->
          functions (_module rt') !! f = Some def).
Proof.
  destruct (GetCurrentTimeFunction_answer rt) as [f Hf].
  pose proof (GetCurrentTimeFunction_fills rt f Hf) as Hcache.
  destruct (GetCurrentTimeFunction rt) as [first rt1]. cbn [fst snd] in *. subst first.
  pose proof (serveAll_extends rs rt1) as (_ & _ & Hkeeps).
  assert (_pGetCurrentTimeFunction (serveAll rs rt1).2 = Some f
          /\ forall i, rs !! i = Some ReqCurrentTime ->
               (serveAll rs rt1).1 !! i = Some (inr (Some f))) as [Hend Hanswers].
  { clear Hkeeps. revert rt1 Hcache. induction rs as [|r rs IH]; intros rt1 Hcache.
    - split; [done|]. intros i Hi. by rewrite lookup_nil in Hi.
    - rewrite serveAll_cons. cbn [fst snd].
      destruct (serve_cache r rt1 f Hcache) as [Hanswer Hcache'].
      destruct (IH _ Hcache') as [Hend Hrest]. split; [done|].
      intros [|i] Hi; simpl in *.
      + injection Hi as ->. by rewrite Hanswer.
      + by apply Hrest. }
  destruct (serveAll rs rt1) as [answers rt']. cbn [fst snd] in *.
  exists f. repeat split; try done. intros def Hdef. by apply Hkeeps.
Qed.

(** ** The fallback kernels in a sequence of requests *)

Section FallbackInSequence.
Implicit Types (rt : IRRuntime) (r : Request) (rs : list Request).

Lemma serveAll_app (l1 l2 : list Request) rt :
  serveAll (l1 ++ l2) rt
  = (((serveAll l1 rt).1 ++ (serveAll l2 (serveAll l1 rt).2).1)%list,
     (serveAll l2 (serveAll l1 rt).2).2).
Proof.
  revert rt. induction l1 as [|r l1 IH]; intros rt.
  - simpl. by destruct (serveAll l2 rt).
  - rewrite <- app_comm_cons, !serveAll_cons. cbn [fst snd]. by rewrite IH.
Qed.

Lemma serveAll_answers_length rs rt : length (serveAll rs rt).1 = length rs.
Proof.
  revert rt. induction rs as [|r rs IH]; intros rt; [done|].
  rewrite serveAll_cons. cbn [fst length]. by rewrite IH.
Qed.

(** The body that a request for a fallback kernel writes. *)
Lemma serve_fallback_module r name rt :
  fallbackName r = Some name ->
  is_Some (functions (_module (serve r rt).2) !! name)
  /\ (functions (_module rt) !! name = None ->
      exists def,
        functions (_module (serve r rt).2) !! name = Some def
        /\ fn_body def
           = match r with
             | ReqSGEMV _ => Some (Some (GEMVBody Float))
             | ReqDGEMV _ => Some (Some (GEMVBody Double))
             | ReqSGEMM _ => Some (Some (GEMMBody Float))
             | ReqDGEMM _ => Some (Some (GEMMBody Double))
             | _ => None
             end).
Proof.
  assert (forall emit body argTypes blasName,
    (forall functionName argTypes module,
       exists module',
         defines module (uniqueName module functionName) body module'
         /\ emit functionName argTypes module
            = (Some (uniqueName module functionName), module')) ->
    is_Some (functions (_module
      (GetBlasFunction false argTypes blasName name emit rt).2) !! name)
    /\ (functions (_module rt) !! name = None ->
        exists def,
          functions (_module
            (GetBlasFunction false argTypes blasName name emit rt).2) !! name = Some def
          /\ fn_body def = Some (Some body))) as Hshape.
  { intros emit body argTypes blasName Hemit.
    destruct (functions (_module rt) !! name) as [d|] eqn:E.
    - rewrite (GetBlasFunction_fallback_found emit argTypes blasName name rt) by eauto.
      cbn [snd]. rewrite E. split; [eauto | done].
    - destruct (GetBlasFunction_fallback_authored emit body Hemit argTypes blasName name rt E)
        as (module' & (def & Hbody & ->) & ->).
      cbn. rewrite lookup_insert_eq. split; [eauto|]. intros _. eauto. }
  destruct r as [| | | | | | | | | | | | | | | |[]|[]|[]|[]| |];
    intros [= <-]; cbn [serve]; rewrite lift_snd.
  - apply (Hshape _ _ _ _ (EmitGEMVFunction_run Float)).
  - apply (Hshape _ _ _ _ (EmitGEMVFunction_run Double)).
  - apply (Hshape _ _ _ _ (EmitGEMMFunction_run Float)).
  - apply (Hshape _ _ _ _ (EmitGEMMFunction_run Double)).
Qed.

(** A request for a fallback kernel between the requests [served] and
    [later]. *)
Lemma fallback_kernel_in_sequence (served later : list Request) r name rt :
  fallbackName r = Some name ->
  let before := (serveAll served rt).2 in
  let final := serveAll (served ++ r :: later) rt in
  final.1 !! length served = Some (inr (Some name))
  /\ is_Some (functions (_module final.2) !! name)
  /\ (functions (_module before) !! name = None ->
      functionBody (_module final.2) (Some name)
      = match r with
        | ReqSGEMV _ => Some (GEMVBody Float)
        | ReqDGEMV _ => Some (GEMVBody Double)
        | ReqSGEMM _ => Some (GEMMBody Float)
        | ReqDGEMM _ => Some (GEMMBody Double)
        | _ => None
        end).
Proof.
  intros Hname before final. subst final. rewrite serveAll_app, serveAll_cons.
  fold before. cbn [fst snd].
  destruct (serve_fallback_module r name before Hname) as [[d Hd] Hauthored].
  pose proof (serveAll_extends later (serve r before).2) as (_ & _ & Hkeeps).
  split; [|split].
  - rewrite lookup_app_r by (rewrite serveAll_answers_length; lia).
    rewrite serveAll_answers_length, Nat.sub_diag. cbn.
    by rewrite (serve_fallback r name before Hname).
  - rewrite (Hkeeps _ _ Hd). eauto.
  - intros Hfree. destruct (Hauthored Hfree) as (def & Hdef & Hbody).
    unfold functionBody. cbn. rewrite (Hkeeps _ _ Hdef). cbn. rewrite Hbody.
    by destruct r.
Qed.
End FallbackInSequence.

(** C8: whatever the provider has served before, and in whatever order the
    requests come, a request for a fallback kernel is answered with the
    function whose symbol is exactly [noblas_sgemv], [noblas_dgemv],
    [noblas_sgemm] or [noblas_dgemm]: in a sequence [rs] of requests served on
    a provider [rt], the answer to the [i]-th request, when that request is
    [GetSGEMVFunction(false)], [GetDGEMVFunction(false)],
    [GetSGEMMFunction(false)] or [GetDGEMMFunction(false)], is the function
    of that literal name, and the module that the sequence leaves has a
    function under that name.  When the module had none under that name
    before the [i]-th request, the function is the kernel that this request
    wrote: its body is the GEMV or GEMM body for the element type of the
    getter, and the later requests have kept it. *)
Theorem fallback_kernel_names (rs : list Request) (rt : IRRuntime) (i : nat)
    (r : Request) (name : string) :
  rs !! i = Some r ->
  fallbackName r = Some name ->
  let before := (serveAll (take i rs) rt).2 in
  (serveAll rs rt).1 !! i = Some (inr (Some name))
  /\ is_Some (functions (_module (serveAll rs rt).2) !! name)
  /\ (functions (_module before) !! name = None ->
      functionBody (_module (serveAll rs rt).2) (Some name)
      = match r with
        | ReqSGEMV _ => Some (GEMVBody Float)
        | ReqDGEMV _ => Some (GEMVBody Double)
        | ReqSGEMM _ => Some (GEMMBody Float)
        | ReqDGEMM _ => Some (GEMMBody Double)
        | _ => None
        end).
Proof.
  intros Hi Hname.
  pose proof (fallback_kernel_in_sequence (take i rs) (drop (S i) rs) r name rt Hname)
    as Hsequence.
  rewrite (take_drop_middle rs i r Hi) in Hsequence.
  rewrite length_take_le in Hsequence by (apply lookup_lt_Some in Hi; lia).
  exact Hsequence.
Qed.

(** The names of C8 on a sequence of requests that asks for each kernel more
    than once, among requests for other functions: the third request writes
    [noblas_sgemv] with the GEMV body for [float], the fourth is answered
    with the [noblas_dgemm] that the first has written. *)
Lemma fallback_kernel_names_witness :
  let rt := newProvider 64 false in
  let rs := [ReqDGEMM false; ReqDotProductFloat; ReqSGEMV false; ReqDGEMM false;
             ReqSGEMV true; ReqDotProductFloat; ReqSqrt Float; ReqSGEMV false] in
  (serveAll rs rt).1 !! 3%nat = Some (inr (Some "noblas_dgemm"))
  /\ (serveAll rs rt).1 !! 2%nat = Some (inr (Some "noblas_sgemv"))
  /\ functionBody (_module (serveAll rs rt).2) (Some "noblas_sgemv")
     = Some (GEMVBody Float)
  /\ (serveAll rs rt).1
     = [inr (Some "noblas_dgemm"); inr (Some "model_DotProductFloat");
        inr (Some "noblas_sgemv"); inr (Some "noblas_dgemm");
        inr (Some "cblas_sgemv"); inr (Some "model_DotProductFloat0");
        inr (Some "llvm.sqrt.f32"); inr (Some "noblas_sgemv")].
Proof.
  intros rt rs.
  destruct (fallback_kernel_names rs rt 3%nat (ReqDGEMM false) "noblas_dgemm"
    eq_refl eq_refl) as (Hfourth & _).
  destruct (fallback_kernel_names rs rt 2%nat (ReqSGEMV false) "noblas_sgemv"
    eq_refl eq_refl) as (Hthird & _ & Hbody).
  split; [exact Hfourth|]. split; [exact Hthird|].
  split; [apply Hbody; vm_compute; reflexivity|].
  vm_compute. reflexivity.
Defined.

(** ** The milliseconds of [GetTime] and the current time *)

Section Milliseconds.
Variable CLOCK_REALTIME : Z.
Variable externals : string -> Callee.

(** The conversion to an integer of the exact arithmetic is the floor on
    values that are not negative. *)
Lemma fptosi_floor (bits : N) (q : Q) : (0 <= q)%Q -> fptosi bits q = Qfloor q.
Proof.
  destruct q as [n d]. unfold Qle. cbn. intros Hn.
  apply Z.quot_div_nonneg; lia.
Qed.

(** The value that [GetTime] returns on a Windows target, in exact
    arithmetic, for a counter and a frequency that are not negative. *)
Lemma windows_GetTime_value (rt : IRRuntime) (counter frequency : Z) (st : Machine) :
  IsWindows (targetDevice (compilerOptions (_module rt))) = true ->
  _pGetCurrentTimeFunction rt = None ->
  writesValue counter (externals "QueryPerformanceCounter") ->
  writesValue frequency (externals "QueryPerformanceFrequency") ->
  0 <= counter -> 0 < frequency ->
  let time := (inject_Z counter / inject_Z frequency)%Q in
  let tv_nsec := Qfloor ((time - inject_Z (Qfloor time)) * inject_Z 10000000) in
  exists f run,
    (GetCurrentTimeFunction rt).1 = inr (Some f)
    /\ runGetTime (double := Q) CLOCK_REALTIME externals
         (_module (GetCurrentTimeFunction rt).2) (Some f) = Some run
    /\ (run st).1
       = ((inject_Z (Qfloor time)
           + inject_Z (tv_nsec
                       `mod` 2 ^ Z.of_N (integerBits (getElementType (_posixRuntime rt) 1)))
             / inject_Z 1000000000)
          * inject_Z 1000)%Q.
Proof.
  intros Hwindows Hc Hqpc Hqpf Hcounter Hfrequency time tv_nsec.
  assert (0 <= time)%Q as Htime.
  { subst time. apply Qle_shift_div_l.
    - change 0%Q with (inject_Z 0). rewrite <- Zlt_Qlt. lia.
    - rewrite Qmult_0_l. change 0%Q with (inject_Z 0). rewrite <- Zle_Qle. lia. }
  destruct (GetCurrentTimeFunction_first rt Hc) as (clock & module' & Hclock & Hdef & ->).
  rewrite <- declared_windows in Hwindows.
  destruct (windows_module_after_resolve (_posixRuntime rt) (declared rt) Hwindows)
    as (symbol & Hsymbol & _ & Hbody & _).
  rewrite Hclock in Hsymbol. injection Hsymbol as <-.
  set (rt2 := (ResolveCurrentTimeFunction (_posixRuntime rt) (declared rt)).2) in *.
  set (f := uniqueName (_module rt2) _) in *.
  assert (clock <> f) as Hne.
  { intros ->. pose proof (uniqueName_fresh (_module rt2)
      (moduleName (_module rt2) +:+ "_" +:+ getTimeFunctionName)) as Hfresh.
    fold f in Hfresh. unfold functionBody in Hbody. simpl in Hbody.
    by rewrite Hfresh in Hbody. }
  exists f. eexists. split; [done|].
  cbn [fst snd _module set_pGetCurrentTimeFunction set_module].
  unfold runGetTime. rewrite (defines_lookup _ _ _ _ Hdef). split; [reflexivity|].
  rewrite GetTimeFunction_run. cbn [fst snd].
  unfold clockBehaviour. rewrite (defines_other _ _ _ _ _ Hdef Hne), Hbody.
  rewrite (clock_gettime_windows_run _ _ _ _ _ counter frequency) by done.
  cbn [fst snd cells].
  rewrite fn_lookup_insert, fn_lookup_insert_ne, fn_lookup_insert by done.
  cbn [fmul fadd fsub fdiv fconst sitofp Q_DoubleOps]. fold time.
  rewrite (fptosi_floor 64 time Htime).
  rewrite (fptosi_floor _ (inject_Z (Qfloor time))), Qfloor_Z; cycle 1.
  { change 0%Q with (inject_Z 0). rewrite <- Zle_Qle.
    rewrite <- (Qfloor_Z 0). by apply Qfloor_resp_le. }
  rewrite (fptosi_floor _ ((time - inject_Z (Qfloor time)) * inject_Z 10000000)%Q); [done|].
  pose proof (Qfloor_le time) as Hfloor.
  change (inject_Z 10000000) with (10000000 # 1)%Q. nra.
Qed.

(** C5: on a Windows target [GetTime] does not return the current time in
    milliseconds.  With a performance counter that reads [counter] at
    [frequency] ticks per second, the current time is [counter / frequency]
    seconds; in exact arithmetic, the function that [GetCurrentTimeFunction]
    writes returns less than ten milliseconds above the whole seconds of
    that time, and so less than the current time in milliseconds as soon as
    the time is a hundredth of a second or more past a whole second.  (The
    replacement [clock_gettime] stores the fraction of the second scaled by
    10,000,000, and [GetTime] divides what it loads by 1e9.) *)
Theorem GetTime_windows_not_milliseconds (rt : IRRuntime) (counter frequency : Z)
    (st : Machine) :
  IsWindows (targetDevice (compilerOptions (_module rt))) = true ->
  _pGetCurrentTimeFunction rt = None ->
  writesValue counter (externals "QueryPerformanceCounter") ->
  writesValue frequency (externals "QueryPerformanceFrequency") ->
  0 <= counter -> 0 < frequency ->
  let time := (inject_Z counter / inject_Z frequency)%Q in
  let '(answer, rt') := GetCurrentTimeFunction rt in
  exists f run,
    answer = inr (Some f)
    /\ runGetTime (double := Q) CLOCK_REALTIME externals (_module rt') (Some f) = Some run
    /\ ((run st).1 < inject_Z (Qfloor time) * 1000 + 10)%Q
    /\ ((1 # 100 <= time - inject_Z (Qfloor time))%Q ->
        ((run st).1 < time * 1000)%Q).
Proof.
  intros Hwindows Hc Hqpc Hqpf Hcounter Hfrequency time.
  destruct (windows_GetTime_value rt counter frequency st Hwindows Hc Hqpc Hqpf
    Hcounter Hfrequency) as (f & run & Hanswer & Hrun & Hvalue).
  fold time in Hvalue.
  destruct (GetCurrentTimeFunction rt) as [answer rt']. cbn [fst snd] in *.
  exists f, run. split; [done|]. split; [done|].
  set (fraction := (time - inject_Z (Qfloor time))%Q) in *.
  set (tv_nsec := Qfloor (fraction * inject_Z 10000000)) in *.
  set (bits := Z.of_N (integerBits (getElementType (_posixRuntime rt) 1))) in *.
  assert (0 <= fraction < 1)%Q as [Hlow Hhigh].
  { subst fraction. pose proof (Qfloor_le time). pose proof (Qlt_floor time) as Hlt.
    rewrite inject_Z_plus in Hlt. change (inject_Z 1) with 1%Q in Hlt. split; lra. }
  assert (0 <= tv_nsec) as Hnsec.
  { subst tv_nsec. rewrite <- (Qfloor_Z 0). apply Qfloor_resp_le.
    change (inject_Z 0) with 0%Q. change (inject_Z 10000000) with (10000000 # 1)%Q. nra. }
  assert (inject_Z (tv_nsec `mod` 2 ^ bits) <= fraction * (10000000 # 1))%Q as Hloaded.
  { apply (Qle_trans _ (inject_Z tv_nsec)).
    - rewrite <- Zle_Qle. apply Z.mod_le; [done|]. apply Z.pow_pos_nonneg; lia.
    - apply Qfloor_le. }
  assert ((run st).1 < inject_Z (Qfloor time) * 1000 + 10)%Q as Hbound.
  { rewrite Hvalue. unfold Qdiv.
    change (/ inject_Z 1000000000)%Q with (1 # 1000000000)%Q.
    change (inject_Z 1000) with (1000 # 1)%Q. lra. }
  split; [exact Hbound|]. intros Hfraction. subst fraction. lra.
Qed.
End Milliseconds.

(** C5 on a 64-bit Windows target whose counter reads 123456789 at a
    frequency of 10000000 per second: the current time is 12345.6789
    milliseconds, and [GetTime] returns 12003.456789. *)
Lemma GetTime_windows_not_milliseconds_witness :
  let '(answer, rt') := GetCurrentTimeFunction (newProvider 64 true) in
  exists f run,
    answer = inr (Some f)
    /\ runGetTime (double := Q) 0 (win32 123456789 10000000) (_module rt') (Some f) = Some run
    /\ ((run idle).1 == 12003456789 # 1000000)%Q
    /\ ((run idle).1 < inject_Z 123456789 / inject_Z 10000000 * 1000)%Q
    /\ (inject_Z 123456789 / inject_Z 10000000 * 1000 == 123456789 # 10000)%Q.
Proof.
  assert (forall value pointer st, exists result : Z,
    ((StoreCell pointer value;; mret 1) : State Machine Z) st
    = (result, {| cells := <[pointer := value]> (cells st); trace := trace st |}))
    as Hwrites by (intros; eexists; reflexivity).
  pose proof (GetTime_windows_not_milliseconds 0 (win32 123456789 10000000)
    (newProvider 64 true) 123456789 10000000 idle eq_refl eq_refl
    (fun pointer st => Hwrites 123456789 pointer st)
    (fun pointer st => Hwrites 10000000 pointer st)
    ltac:(lia) ltac:(lia)) as Hrun.
  cbv zeta in Hrun.
  destruct (GetCurrentTimeFunction (newProvider 64 true)) as [answer rt'] eqn:Hcall.
  vm_compute in Hcall. injection Hcall as <- <-.
  destruct Hrun as (f & run & Hanswer & Hbody & _ & Hless).
  exists f, run. split; [exact Hanswer|]. split; [exact Hbody|].
  split; [|split; [apply Hless; vm_compute; discriminate | vm_compute; reflexivity]].
  injection Hanswer as <-. vm_compute in Hbody. injection Hbody as <-.
  vm_compute. reflexivity.
Defined.
